(** * QVT: the QVoiceTxt chat front-end (src/QuantumCallInterface.jsx)

    A shallow embedding of the token codec, the WAV container writer, the
    retrying API caller, the Agent Q helper, the message router with its
    pending confirmation, and the reminder poll loop, followed by the
    properties of the specification that concern them.  The voice handler,
    whole sessions of the router, and the Agent Q and the dispatch of the
    first version of the component are embedded as well, with further
    properties of the code at the end.

    Conventions of the embedding.
    - A JavaScript string is a [string]; the operations that depend on the
      character set ([toLowerCase], [trim], the pattern of /remindme) are
      written for the ASCII range, which holds the dictionary and the
      whole command syntax.
    - A JavaScript number that holds an integer is a [Z]; this is exact
      below 2^53.  The writes of a DataView wrap as its setters do.  The
      delays of the retry loop are rationals.
    - [null] and [undefined] are [None].
    - An asynchronous function is the function of its inputs and of the
      answers of its collaborators (fetch, Math.random, Date.now, the
      Firestore calls), which are passed in as arguments. *)

From Stdlib Require Import ZArith QArith String Ascii List Lia Lqa DecimalString.
From stdpp Require Import base list strings gmap sorting.

Open Scope string_scope.

(* ------------------------------------------------------------------ *)
(** ** JavaScript string primitives                                     *)
(* ------------------------------------------------------------------ *)

Module JsString.

(** The double-quote character, code 34. *)
Definition dquote : ascii := ascii_of_nat 34.
Definition dq : string := String dquote "".

Definition is_upper (c : ascii) : bool :=
  ((65 <=? N_of_ascii c) && (N_of_ascii c <=? 90))%N.

Definition lower_char (c : ascii) : ascii :=
  if is_upper c then ascii_of_N (N_of_ascii c + 32) else c.

(** [s.toLowerCase()] *)
Fixpoint toLowerCase (s : string) : string :=
  match s with
  | "" => ""
  | String c r => String (lower_char c) (toLowerCase r)
  end.

(** [s.startsWith(p)] *)
Definition startsWith (s p : string) : bool := String.prefix p s.

(** [s.includes(p)] *)
Fixpoint includes (s p : string) : bool :=
  String.prefix p s ||
  match s with
  | "" => false
  | String _ r => includes r p
  end.

(** White space and line terminators removed by [trim] (ASCII range). *)
Definition is_space (c : ascii) : bool :=
  let n := N_of_ascii c in
  ((n =? 9) || (n =? 10) || (n =? 11) || (n =? 12) || (n =? 13) || (n =? 32))%N.

Fixpoint trimStart (s : string) : string :=
  match s with
  | "" => ""
  | String c r => if is_space c then trimStart r else s
  end.

(** [trimEnd] keeps a character when it is not a space or when something
    is kept after it. *)
Fixpoint trimEnd (s : string) : string :=
  match s with
  | "" => ""
  | String c r =>
      match trimEnd r with
      | "" => if is_space c then "" else String c ""
      | r' => String c r'
      end
  end.

(** [s.trim()] *)
Definition trim (s : string) : string := trimEnd (trimStart s).

(** Template-literal interpolation of an integer, [`${i}`], for a safe
    integer (the code prints an exponent from 1e21 on). *)
Definition show_int (i : Z) : string := NilZero.string_of_int (Z.to_int i).

(** [arr.findIndex(f)]: the first position whose element satisfies [f],
    or -1. *)
Fixpoint findIndex {A} (f : A -> bool) (l : list A) : Z :=
  match l with
  | [] => -1
  | x :: r => if f x then 0 else
                let i := findIndex f r in
                if (i =? -1)%Z then -1 else (i + 1)%Z
  end.

(** [arr[i]] for a number [i] that holds an integer: [undefined] outside
    the array. *)
Definition index {A} (l : list A) (i : Z) : option A :=
  if (i <? 0)%Z then None else l !! Z.to_nat i.

(** A string in a boolean context: the empty string is falsy. *)
Definition truthy (s : string) : bool := negb (String.eqb s "").

(** The ASCII range.  On a text of this range [toLowerCase] and [trim]
    above are those of JavaScript, which beyond it also fold the other
    cased letters and strip the other white space (U+00A0, U+2028, ...),
    and the [.] of a pattern refuses LF and CR only. *)
Definition is_ascii (c : ascii) : bool := (N_of_ascii c <? 128)%N.

Fixpoint ascii_text (s : string) : bool :=
  match s with
  | "" => true
  | String c r => is_ascii c && ascii_text r
  end.

(** [Number.isSafeInteger(i)]: the integers that a number holds exactly;
    on them the arithmetic of [Z] is that of the code as long as the
    results stay among them, and [show_int] is the interpolation of a
    template literal (which prints exponents from 1e21 on). *)
Definition safe_integer (i : Z) : Prop := (- 2 ^ 53 < i < 2 ^ 53)%Z.

End JsString.
Import JsString.

(* ------------------------------------------------------------------ *)
(** ** TokenLibrary and the decoding of stored messages                 *)
(* ------------------------------------------------------------------ *)

(** [defaultNexusConfig.tokenDictionary] *)
Definition tokenDictionary : list string :=
  [ "Hello."; "How are you?"; "I'm fine, thanks."; "What are you working on?";
    "I need help."; "Yes."; "No."; "That is correct."; "I agree.";
    "Please wait a moment."; "/ask"; "/summary"; "/optimize" ].

(** [defaultNexusConfig.botUserId] *)
Definition botUserId : string := "Agent Q Core ✨".

Module TokenLibrary.

(** [lookupToken]: [findIndex] on the lower-cased entries, [null] for -1. *)
Definition lookupToken (phrase : string) (dictionary : list string) : option Z :=
  let index :=
    findIndex (fun p => String.eqb (toLowerCase p) (toLowerCase phrase)) dictionary in
  if negb (index =? -1)%Z then Some index else None.

(** [lookupPhrase]: the entry, [null] when [dictionary[index]] is
    [undefined]. *)
Definition lookupPhrase (index : Z) (dictionary : list string) : option string :=
  match JsString.index dictionary index with
  | Some p => Some p
  | None => None
  end.

End TokenLibrary.

(** The sentinel of the snapshot listener,
    [`[TOKEN_ERROR: Unknown Index ${data.tokenIndex}]`]. *)
Definition token_error (i : Z) : string :=
  "[TOKEN_ERROR: Unknown Index " ++ show_int i ++ "]".

(** [TokenLibrary.lookupPhrase(i, dictionary) || `[TOKEN_ERROR: ...]`]:
    the decoding expression of the snapshot listener. *)
Definition decodeToken (i : Z) (dictionary : list string) : string :=
  match TokenLibrary.lookupPhrase i dictionary with
  | Some p => if truthy p then p else token_error i
  | None => token_error i
  end.

(** A stored chat document, as [doc.data()] returns it. *)
Record DocData := {
  d_text : option string;
  d_isTokenized : option bool;
  d_tokenIndex : option Z;       (* [Some] when [typeof tokenIndex === 'number'] *)
  d_userId : string
}.

(** A message of the [messages] state. *)
Record Message := {
  m_id : string;
  m_userId : string;
  m_text : string;
  m_isTokenized : bool;
  m_tokenIndex : option Z
}.

(** The mapping of the snapshot listener, [snapshot.docs.map(doc => ...)]. *)
Definition decodeDoc (dictionary : list string) (id : string) (data : DocData) : Message :=
  let text := match d_text data with
              | Some t => if truthy t then t else ""
              | None => "" end in
  let isTokenized := match d_isTokenized data with Some b => b | None => false end in
  let text := match isTokenized, d_tokenIndex data with
              | true, Some i => decodeToken i dictionary
              | _, _ => text
              end in
  {| m_id := id; m_userId := d_userId data; m_text := text;
     m_isTokenized := isTokenized; m_tokenIndex := d_tokenIndex data |}.

(** [getFormattedHistory(currentMessages, currentUserId, maxTurns)] *)
Record HistoryEntry := { h_sender : string; h_text : string }.

(** [arr.slice(start)] for an integer [start]: a negative [start] counts
    from the end. *)
Definition slice_from {A} (l : list A) (start : Z) : list A :=
  let len := Z.of_nat (length l) in
  let k := if (start <? 0)%Z then Z.max (len + start) 0 else Z.min start len in
  drop (Z.to_nat k) l.

Definition relevant (msg : Message) : bool :=
  negb (m_isTokenized msg) && truthy (m_text msg).

Definition formatMessage (currentUserId : string) (msg : Message) : HistoryEntry :=
  {| h_sender := if String.eqb (m_userId msg) currentUserId then "user" else "Agent Q";
     h_text := m_text msg |}.

Definition getFormattedHistory (currentMessages : list Message)
    (currentUserId : string) (maxTurns : Z) : list HistoryEntry :=
  let relevantMessages := slice_from (filter (fun m => relevant m = true) currentMessages) (- maxTurns) in
  map (formatMessage currentUserId) relevantMessages.

(* ------------------------------------------------------------------ *)
(** ** pcmToWav                                                         *)
(* ------------------------------------------------------------------ *)

Module Wav.

(** An ArrayBuffer is the list of its bytes.  A DataView setter takes its
    value modulo the width of the field and throws a RangeError ([None])
    when the field does not lie inside the buffer. *)
Definition setUint8 (view : list Z) (offset : nat) (value : Z) : option (list Z) :=
  if decide (offset + 1 <= length view)
  then Some (<[offset := (value mod 256)%Z]> view)
  else None.

(** [setUint16(offset, value, true)]: little-endian. *)
Definition setUint16 (view : list Z) (offset : nat) (value : Z) : option (list Z) :=
  if decide (offset + 2 <= length view)
  then Some (<[offset + 1 := ((value / 256) mod 256)%Z]>
             (<[offset := (value mod 256)%Z]> view))
  else None.

(** [setUint32(offset, value, true)]: little-endian. *)
Definition setUint32 (view : list Z) (offset : nat) (value : Z) : option (list Z) :=
  if decide (offset + 4 <= length view)
  then Some (<[offset + 3 := ((value / 16777216) mod 256)%Z]>
             (<[offset + 2 := ((value / 65536) mod 256)%Z]>
             (<[offset + 1 := ((value / 256) mod 256)%Z]>
             (<[offset := (value mod 256)%Z]> view))))
  else None.

(** [getUint16(offset, true)] and [getUint32(offset, true)], the readers a
    player applies to the header. *)
Definition getUint16 (view : list Z) (offset : nat) : option Z :=
  b0 ← view !! offset; b1 ← view !! (offset + 1);
  Some (b0 + 256 * b1)%Z.

Definition getUint32 (view : list Z) (offset : nat) : option Z :=
  b0 ← view !! offset; b1 ← view !! (offset + 1);
  b2 ← view !! (offset + 2); b3 ← view !! (offset + 3);
  Some (b0 + 256 * b1 + 65536 * b2 + 16777216 * b3)%Z.

Definition charCode (c : ascii) : Z := Z.of_N (N_of_ascii c).

(** [writeString(view, offset, string)] *)
Fixpoint writeString (view : list Z) (offset : nat) (s : string) : option (list Z) :=
  match s with
  | "" => Some view
  | String c r => view' ← setUint8 view offset (charCode c); writeString view' (S offset) r
  end.

(** An Int16Array: a window of [byteLength] bytes on an ArrayBuffer.
    [new Int16Array(arrayBuffer)], the one way the caller builds it, spans
    the whole buffer. *)
Record Int16Array := {
  buffer : list Z;
  byteOffset : nat;
  byteLength : nat
}.

Definition spans_buffer (a : Int16Array) : Prop :=
  byteOffset a = 0 /\ byteLength a = length (buffer a).

Record Blob := { blob_bytes : list Z; blob_type : string }.

(** The copy loop, [for (i = 0; i < pcmBytes.length; i++)
    dataView.setUint8(dataOffset + i, pcmBytes[i])]. *)
Fixpoint copyBytes (view : list Z) (dataOffset i : nat) (pcmBytes : list Z) : option (list Z) :=
  match pcmBytes with
  | [] => Some view
  | b :: r => view' ← setUint8 view (dataOffset + i) b; copyBytes view' dataOffset (S i) r
  end.

Definition pcmToWav (pcm16 : Int16Array) (sampleRate : Z) : option Blob :=
  let numChannels := 1%Z in
  let bitsPerSample := 16%Z in
  let byteRate := (sampleRate * numChannels * (bitsPerSample / 8))%Z in
  let blockAlign := (numChannels * (bitsPerSample / 8))%Z in
  let dataSize := byteLength pcm16 in
  let dataView := repeat 0%Z (44 + dataSize) in
  let offset := 0 in
  dataView ← writeString dataView offset "RIFF"; let offset := offset + 4 in
  dataView ← setUint32 dataView offset (36 + Z.of_nat dataSize); let offset := offset + 4 in
  dataView ← writeString dataView offset "WAVE"; let offset := offset + 4 in
  dataView ← writeString dataView offset "fmt "; let offset := offset + 4 in
  dataView ← setUint32 dataView offset 16; let offset := offset + 4 in
  dataView ← setUint16 dataView offset 1; let offset := offset + 2 in
  dataView ← setUint16 dataView offset numChannels; let offset := offset + 2 in
  dataView ← setUint32 dataView offset sampleRate; let offset := offset + 4 in
  dataView ← setUint32 dataView offset byteRate; let offset := offset + 4 in
  dataView ← setUint16 dataView offset blockAlign; let offset := offset + 2 in
  dataView ← setUint16 dataView offset bitsPerSample; let offset := offset + 2 in
  dataView ← writeString dataView offset "data"; let offset := offset + 4 in
  dataView ← setUint32 dataView offset (Z.of_nat dataSize);
  let dataOffset := 44 in
  let pcmBytes := buffer pcm16 in
  dataView ← copyBytes dataView dataOffset 0 pcmBytes;
  Some {| blob_bytes := dataView; blob_type := "audio/wav" |}.

(** The 44 bytes of a RIFF/WAVE header for mono 16-bit samples, field by
    field, each number in little-endian order; [pcmToWav_bytes] shows that
    these are the bytes that [pcmToWav] writes. *)
Definition le16 (v : Z) : list Z := [v mod 256; (v / 256) mod 256]%Z.

Definition le32 (v : Z) : list Z :=
  [v mod 256; (v / 256) mod 256; (v / 65536) mod 256; (v / 16777216) mod 256]%Z.

Definition tag (s : string) : list Z := map charCode (list_ascii_of_string s).

(** [writeString] inside the buffer, without its range check. *)
Fixpoint put_string (view : list Z) (offset : nat) (s : string) : list Z :=
  match s with
  | "" => view
  | String c r => put_string (<[offset := (charCode c mod 256)%Z]> view) (S offset) r
  end.

Definition riff_header (sampleRate dataSize : Z) : list Z :=
  tag "RIFF" ++ le32 (36 + dataSize) ++ tag "WAVE" ++
  tag "fmt " ++ le32 16 ++ le16 1 ++ le16 1 ++
  le32 sampleRate ++ le32 (sampleRate * 2) ++ le16 2 ++ le16 16 ++
  tag "data" ++ le32 dataSize.

End Wav.

(* ------------------------------------------------------------------ *)
(** ** callGeminiApi                                                    *)
(* ------------------------------------------------------------------ *)

Module Gateway.

(** What the caller sees of an error: its message. *)
Inductive ApiError :=
| StatusError (status : Z)   (* API call failed with status: N *)
| StructuredMissing          (* Structured response missing or invalid. *)
| OtherException             (* fetch, response.json() or JSON.parse threw *)
| FailedToConnect            (* Failed to connect to the AI service. *)
| MaxRetriesReached.         (* Maximum retry attempts reached. *)

(** What the world sees of a call: its requests and its sleeps. *)
Inductive Event :=
| Fetch (attempt : Z)
| Sleep (delay : Q).

Section CallGeminiApi.

(** A parsed JSON value; [jsonTextOf] is the path
    [result.candidates?.[0]?.content?.parts?.[0]?.text] when it holds a
    non-empty string, and [JSON_parse] is [None] on a SyntaxError. *)
Variable Json : Type.
Variable jsonTextOf : Json -> option string.
Variable JSON_parse : string -> option Json.

(** A response: its status and what [response.json()] resolves to
    ([None] when it rejects). *)
Record Response := { status : Z; body : option Json }.

Definition ok (r : Response) : bool :=
  ((200 <=? status r) && (status r <=? 299))%Z.

Inductive FetchOutcome :=
| Rejects
| Resolves (response : Response).

(** The collaborators: the answer to the fetch of each attempt and the
    draw of [Math.random()] in each attempt. *)
Variable fetch : Z -> FetchOutcome.
Variable random : Z -> Q.

Variable responseSchema : bool.   (* whether a schema was passed *)
Variable maxRetries : Z.

(** How the [try] block of one iteration ends. *)
Inductive TryOutcome :=
| Continue (delay : Q)
| Return (result : Json)
| Throw (e : ApiError).

(** [Math.pow(2, attempt) * 1000 + Math.random() * 1000] *)
Definition backoff (attempt : Z) : Q :=
  (inject_Z (2 ^ attempt * 1000) + random attempt * 1000)%Q.

Definition try_block (attempt : Z) : TryOutcome :=
  match fetch attempt with
  | Rejects => Throw OtherException
  | Resolves response =>
      if negb (ok response) then
        if ((status response =? 429) && (attempt <? maxRetries - 1))%Z then
          Continue (backoff attempt)
        else Throw (StatusError (status response))
      else
        match body response with
        | None => Throw OtherException
        | Some result =>
            if responseSchema then
              match jsonTextOf result with
              | Some jsonText =>
                  match JSON_parse jsonText with
                  | Some v => Return v
                  | None => Throw OtherException
                  end
              | None => Throw StructuredMissing
              end
            else Return result
        end
  end.

(** The [for] loop from [attempt]; [fuel] bounds the iterations left. *)
Fixpoint attempts (fuel : nat) (attempt : Z) : list Event * (ApiError + Json) :=
  match fuel with
  | O => ([], inl MaxRetriesReached)
  | S fuel' =>
      if (attempt <? maxRetries)%Z then
        match try_block attempt with
        | Continue delay =>
            let '(events, r) := attempts fuel' (attempt + 1)%Z in
            (Fetch attempt :: Sleep delay :: events, r)
        | Return result => ([Fetch attempt], inr result)
        | Throw _ =>
            if (attempt =? maxRetries - 1)%Z
            then ([Fetch attempt], inl FailedToConnect)
            else
              let '(events, r) := attempts fuel' (attempt + 1)%Z in
              (Fetch attempt :: events, r)
        end
      else ([], inl MaxRetriesReached)
  end.

Definition callGeminiApi : list Event * (ApiError + Json) :=
  attempts (Z.to_nat maxRetries) 0.

End CallGeminiApi.

Arguments Resolves {Json}.
Arguments Rejects {Json}.
Arguments status {Json}.
Arguments body {Json}.
Arguments ok {Json}.
Arguments Continue {Json}.
Arguments Return {Json}.
Arguments Throw {Json}.

Definition fetches (events : list Event) : list Z :=
  omap (fun e => match e with Fetch a => Some a | Sleep _ => None end) events.

Definition sleeps (events : list Event) : list Q :=
  omap (fun e => match e with Sleep d => Some d | Fetch _ => None end) events.

(** The events of a call whose attempts from [attempt] on are all rate
    limited: a request and a sleep for each of the [retries] attempts
    that are retried, then the last request. *)
Fixpoint rate_limited_events (delay : Z -> Q) (attempt : Z) (retries : nat) : list Event :=
  match retries with
  | O => [Fetch attempt]
  | S n => Fetch attempt :: Sleep (delay attempt) :: rate_limited_events delay (attempt + 1) n
  end.

(** The time a call spends asleep. *)
Definition total_sleep (events : list Event) : Q :=
  foldr Qplus 0%Q (sleeps events).

End Gateway.

(* ------------------------------------------------------------------ *)
(** ** Firestore, as the component uses it                              *)
(* ------------------------------------------------------------------ *)

(** The [content] argument of [saveMessage]: a string, a token index, or
    the [content] object of an Agent Q answer. *)
Inductive Content :=
| CString (s : string)
| CNumber (n : Z)
| CObject (action detail : string).

(** A document written to the chat collection ([timestamp] and
    [sessionChoice] are left out). *)
Record ChatDoc := {
  doc_text : option Content;
  doc_tokenIndex : option Content;
  doc_isTokenized : bool;
  doc_userId : string
}.

(** A document of [users/{userId}/reminders]. *)
Record ReminderDoc := { remindAt : Z; message : string }.

(** The two collections, and whether the store accepts writes ([addDoc]
    and [deleteDoc] reject when it does not). *)
Record Firestore := {
  chatMessages : list ChatDoc;
  reminders : list (string * ReminderDoc);
  writable : bool
}.

Definition add_chat (fs : Firestore) (d : ChatDoc) : Firestore :=
  {| chatMessages := chatMessages fs ++ [d]; reminders := reminders fs;
     writable := writable fs |}.

Definition add_reminder (fs : Firestore) (id : string) (d : ReminderDoc) : Firestore :=
  {| chatMessages := chatMessages fs; reminders := reminders fs ++ [(id, d)];
     writable := writable fs |}.

Definition delete_reminder (fs : Firestore) (id : string) : Firestore :=
  {| chatMessages := chatMessages fs;
     reminders := filter (fun r => r.1 <> id) (reminders fs);
     writable := writable fs |}.

(** The answers of the outside world to one run of a handler: the clock,
    the id Firestore gives to the next document, and the reply texts that
    the weather and the price lookups end in. *)
Record Env := {
  now : Z;
  nextDocId : string;
  weatherReply : string -> string;
  cryptoReply : string -> string
}.

(* ------------------------------------------------------------------ *)
(** ** askAgentQ                                                        *)
(* ------------------------------------------------------------------ *)

Module AgentQ.

Inductive RequestType := Chat | Intent | Command | Followup.

(** [{ type: 'text', content }], [{ type: 'intent', content: { action,
    argument } }] and [{ type: 'action', content: { action, details } }]. *)
Inductive Response :=
| RText (content : string)
| RIntent (action argument : string)
| RAction (action details : string).

Definition nl : string := String (ascii_of_nat 10) "".

(** [arr.join(sep)] *)
Fixpoint join (sep : string) (l : list string) : string :=
  match l with
  | [] => ""
  | [x] => x
  | x :: r => x ++ sep ++ join sep r
  end.

(** *** The pattern [/remindme (\d+)([mh]) "(.+)"/i] *)

Definition is_digit (c : ascii) : bool :=
  ((48 <=? N_of_ascii c) && (N_of_ascii c <=? 57))%N.

(** [.] matches all but the line terminators: LF and CR in the ASCII
    range (the pattern also refuses U+2028 and U+2029). *)
Definition is_line_terminator (c : ascii) : bool :=
  ((N_of_ascii c =? 10) || (N_of_ascii c =? 13))%N.

(** [[mh]] under the flag [i]. *)
Definition is_unit (c : ascii) : bool :=
  Ascii.eqb (lower_char c) "m" || Ascii.eqb (lower_char c) "h".

(** A literal under the flag [i]: the rest of [s] after it. *)
Fixpoint strip_literal_ci (lit s : string) : option string :=
  match lit with
  | "" => Some s
  | String a lit' =>
      match s with
      | String b s' =>
          if Ascii.eqb (lower_char a) (lower_char b) then strip_literal_ci lit' s' else None
      | "" => None
      end
  end.

(** [\d+] is greedy, and what follows it cannot start with a digit, so
    only the longest run of digits can lead to a match. *)
Fixpoint span_digits (s : string) : string * string :=
  match s with
  | String c r =>
      if is_digit c then let '(ds, rest) := span_digits r in (String c ds, rest)
      else ("", s)
  | "" => ("", "")
  end.

(** The group [(.+)] and the quote after it: the longest non-empty run [m]
    without line terminator that a double quote follows. *)
Fixpoint dot_plus_quote (s : string) : option string :=
  match s with
  | "" => None
  | String c r =>
      if is_line_terminator c then None
      else match dot_plus_quote r with
           | Some m => Some (String c m)
           | None =>
               match r with
               | String q _ => if Ascii.eqb q dquote then Some (String c "") else None
               | "" => None
               end
           end
  end.

(** The pattern at the start of [s]: the groups [value], [unit], [msg]. *)
Definition match_here (s : string) : option (string * ascii * string) :=
  s1 ← strip_literal_ci "remindme " s;
  let '(value, s2) := span_digits s1 in
  if String.eqb value "" then None else
  match s2 with
  | String unit (String sp (String q s4)) =>
      if is_unit unit && Ascii.eqb sp " " && Ascii.eqb q dquote
      then msg ← dot_plus_quote s4; Some (value, unit, msg)
      else None
  | _ => None
  end.

(** [userQuery.match(...)]: the leftmost match. *)
Fixpoint remindme_match (s : string) : option (string * ascii * string) :=
  match match_here s with
  | Some m => Some m
  | None => match s with
            | "" => None
            | String _ r => remindme_match r
            end
  end.

(** What the pattern says, without the search: somewhere in [s] stands
    the word [remindme] and a space in any case, a non-empty run of
    digits, one of the letters m and h in any case, a space, a double
    quote, a non-empty text without line terminator, and a double quote. *)
Fixpoint all_chars (P : ascii -> bool) (s : string) : bool :=
  match s with
  | "" => true
  | String c r => P c && all_chars P r
  end.

Definition remindme_occurs (s : string) : Prop :=
  exists pre kw value unit msg post,
    s = pre ++ kw ++ value ++ String unit (" " ++ dq ++ msg ++ dq ++ post) /\
    toLowerCase kw = "remindme " /\
    value <> "" /\ all_chars is_digit value = true /\
    is_unit unit = true /\
    msg <> "" /\ all_chars (fun c => negb (is_line_terminator c)) msg = true.

(** [parseInt(value)] on a run of digits: the exact value, which is the
    number of the code as long as it is a safe integer. *)
Definition digit_value (c : ascii) : Z := Z.of_N (N_of_ascii c) - 48.

Fixpoint parseInt_acc (acc : Z) (s : string) : Z :=
  match s with
  | "" => acc
  | String c r => parseInt_acc (10 * acc + digit_value c) r
  end.

Definition parseInt (value : string) : Z := parseInt_acc 0 value.

(** *** The fixed replies *)

Definition usage_reply : string :=
  "Agent Q: Usage: /remindme 10m " ++ dq ++ "your message" ++ dq.

Definition reminder_set_reply (value : string) (unit : ascii) (msg : string) : string :=
  "Agent Q: I'll remind you in " ++ value ++ String unit "" ++ ": " ++ dq ++ msg ++ dq ++ ".".

Definition help_reply : string :=
  "Agent Q Help:" ++ nl ++
  "  - /archive: Save chat log (confirms)" ++ nl ++
  "  - /weather [location]: Live weather" ++ nl ++
  "  - /crypto [symbol]: Crypto price (USD)" ++ nl ++
  "  - /summary: Chat summary" ++ nl ++
  "  - /tokenlist: List available tokens" ++ nl ++
  "  - /remindme 5m " ++ dq ++ "your text" ++ dq ++ ": Persistent reminder" ++ nl ++
  "  - /admin: Admin info" ++ nl ++
  "  - /help: Show available commands".

(** [userId[userId.length - 1] % 2 === 1]: the last character is an odd
    digit. *)
Fixpoint last_char (s : string) : option ascii :=
  match s with
  | "" => None
  | String c "" => Some c
  | String _ r => last_char r
  end.

Definition last_is_odd_digit (s : string) : bool :=
  match last_char s with
  | Some c => is_digit c && N.odd (N_of_ascii c)
  | None => false
  end.

(** [askAgentQ(userQuery, requestType, conversationHistory, db, userId)];
    [db] tells whether a database handle was passed. *)
Definition askAgentQ (env : Env) (fs : Firestore) (userQuery : string)
    (requestType : RequestType) (conversationHistory : list HistoryEntry)
    (db : bool) (userId : option string) : Response * Firestore :=
  let lowerQuery := toLowerCase userQuery in
  let command := match requestType with Command => true | _ => false end in
  if command && startsWith lowerQuery "/weather" then
    (RText (weatherReply env userQuery), fs)
  else if command && startsWith lowerQuery "/crypto" then
    (RText (cryptoReply env userQuery), fs)
  else if command && startsWith lowerQuery "/remindme" then
    match remindme_match userQuery, db, userId with
    | Some (value, unit, msg), true, Some uid =>
        if truthy uid then
          let delayMs := if Ascii.eqb unit "m" then (parseInt value * 60000)%Z
                         else (parseInt value * 3600000)%Z in
          let when := (now env + delayMs)%Z in
          if writable fs then
            (RText (reminder_set_reply value unit msg),
             add_reminder fs (nextDocId env) {| remindAt := when; message := msg |})
          else (RText "Agent Q: Error setting reminder.", fs)
        else (RText usage_reply, fs)
    | _, _, _ => (RText usage_reply, fs)
    end
  else if command && startsWith lowerQuery "/archive" then
    (RAction "ARCHIVE_CONFIRM" "Would you like to save the current chat archive? (yes/no)", fs)
  else if command && String.eqb (trim lowerQuery) "/admin" then
    match userId with
    | Some uid =>
        if truthy uid && last_is_odd_digit uid
        then (RText "Agent Q: Welcome, admin! Here is your secret: 42.", fs)
        else (RText "Agent Q: You are not an admin. Access denied.", fs)
    | None => (RText "Agent Q: You are not an admin. Access denied.", fs)
    end
  else if command && startsWith lowerQuery "/summary" then
    let summary :=
      match conversationHistory with
      | [] => "No conversation history."
      | _ => join nl (map (fun h => h_sender h ++ ": " ++ h_text h) conversationHistory)
      end in
    (RText ("Agent Q: Here is a summary of recent conversation:" ++ nl ++ summary), fs)
  else if command && String.eqb lowerQuery "/help" then
    (RText help_reply, fs)
  else if command && String.eqb lowerQuery "/tokenlist" then
    (RText ("Agent Q Tokens: " ++ join ", " tokenDictionary), fs)
  else
    match requestType with
    | Intent =>
        if includes lowerQuery "archive" then (RIntent "ARCHIVE_ACCESS" "", fs)
        else if includes lowerQuery "weather"
        then (RText "Agent Q: (Intent) Simulated weather is mild and pleasant.", fs)
        else (RText "Agent Q: I am unsure how to handle your request.", fs)
    | Followup =>
        if String.eqb lowerQuery "yes" || String.eqb lowerQuery "y"
        then (RAction "ARCHIVE_SAVE" "Archive saved.", fs)
        else if String.eqb lowerQuery "no" || String.eqb lowerQuery "n"
        then (RText "Agent Q: Archive not saved.", fs)
        else (RText ("Agent Q: Please respond " ++ dq ++ "yes" ++ dq ++ " or " ++ dq ++ "no" ++ dq ++ "."), fs)
    | Chat =>
        if includes lowerQuery "hello" || includes lowerQuery "hi"
        then (RText "Agent Q: Hello! How can I assist you in the Quantum Channel?", fs)
        else if includes lowerQuery "tokenlist"
        then (RText ("Agent Q: Tokens available: " ++ join ", " tokenDictionary), fs)
        else (RText ("Agent Q: (Simulated) I received: " ++ userQuery), fs)
    | Command => (RText "Agent Q: I am unsure how to handle your request.", fs)
    end.

End AgentQ.

(* ------------------------------------------------------------------ *)
(** ** The component state, saveMessage and handleUserMessage           *)
(* ------------------------------------------------------------------ *)

Module Router.
Import AgentQ.

(** The React state of [QVoiceTxtApp] that the handlers read or write. *)
Record State := {
  dbInstance : bool;               (* whether a database handle is set *)
  userId : option string;
  messages : list Message;
  currentMessage : string;
  error : option string;
  isBotThinking : bool;
  pendingAction : option Response
}.

Definition setCurrentMessage (v : string) (s : State) : State :=
  {| dbInstance := dbInstance s; userId := userId s; messages := messages s;
     currentMessage := v; error := error s; isBotThinking := isBotThinking s;
     pendingAction := pendingAction s |}.

Definition setError (v : option string) (s : State) : State :=
  {| dbInstance := dbInstance s; userId := userId s; messages := messages s;
     currentMessage := currentMessage s; error := v; isBotThinking := isBotThinking s;
     pendingAction := pendingAction s |}.

Definition setIsBotThinking (v : bool) (s : State) : State :=
  {| dbInstance := dbInstance s; userId := userId s; messages := messages s;
     currentMessage := currentMessage s; error := error s; isBotThinking := v;
     pendingAction := pendingAction s |}.

Definition setPendingAction (v : option Response) (s : State) : State :=
  {| dbInstance := dbInstance s; userId := userId s; messages := messages s;
     currentMessage := currentMessage s; error := error s;
     isBotThinking := isBotThinking s; pendingAction := v |}.

(** A sender id in a boolean context. *)
Definition truthy_id (id : option string) : option string :=
  match id with
  | Some s => if truthy s then Some s else None
  | None => None
  end.

(** [saveMessage(content, senderId, isTokenized)] *)
Definition saveMessage (st : State) (fs : Firestore) (content : Content)
    (senderId : option string) (isTokenized : bool) : State * Firestore * bool :=
  match dbInstance st, truthy_id senderId with
  | true, Some sender =>
      let messageToSave :=
        if isTokenized
        then {| doc_text := None; doc_tokenIndex := Some content;
                doc_isTokenized := isTokenized; doc_userId := sender |}
        else {| doc_text := Some content; doc_tokenIndex := None;
                doc_isTokenized := isTokenized; doc_userId := sender |} in
      if writable fs then (st, add_chat fs messageToSave, true)
      else (setError (Some "Failed to save message.") st, fs, false)
  | _, _ => (st, fs, false)
  end.

(** The callback that [handleUserMessage] hands to [setTimeout], with the
    values its closure holds. *)
Inductive Task :=
| FollowupTask (userMessage : string)
| ReplyTask (userMessage : string) (userRequestType : RequestType)
            (messages : list Message) (userId : string) (dbInstance : bool).

(** [pendingAction && pendingAction.type === 'action' &&
    pendingAction.content.action === 'ARCHIVE_CONFIRM'] *)
Definition awaiting_confirmation (p : option Response) : bool :=
  match p with
  | Some (RAction action _) => String.eqb action "ARCHIVE_CONFIRM"
  | _ => false
  end.

(** The request type that [handleUserMessage] detects. *)
Definition detect (userMessage : string) : RequestType :=
  if startsWith userMessage "/" then Command
  else if includes (toLowerCase userMessage) "archive"
          || includes (toLowerCase userMessage) "weather" then Intent
  else Chat.

(** [handleUserMessage()], up to the [setTimeout] it ends in. *)
Definition handleUserMessage (tokenDictionary : list string)
    (st : State) (fs : Firestore) : State * Firestore * option Task :=
  let userMessage := trim (currentMessage st) in
  match truthy_id (userId st) with
  | None => (st, fs, None)
  | Some uid =>
      if String.eqb userMessage "" then (st, fs, None) else
      let st := setError None (setCurrentMessage "" st) in
      match TokenLibrary.lookupToken (toLowerCase userMessage) tokenDictionary with
      | Some tokenIndex =>
          let '(st, fs, _) := saveMessage st fs (CNumber tokenIndex) (Some uid) true in
          (st, fs, None)
      | None =>
          if awaiting_confirmation (pendingAction st) then
            (setIsBotThinking true st, fs, Some (FollowupTask userMessage))
          else
            let userRequestType := detect userMessage in
            let '(st', fs, _) := saveMessage st fs (CString userMessage) (Some uid) false in
            (setIsBotThinking true st', fs,
             Some (ReplyTask userMessage userRequestType (messages st) uid (dbInstance st)))
      end
  end.

(** [res.content] as an argument of [saveMessage]. *)
Definition content_of (res : Response) : Content :=
  match res with
  | RText c => CString c
  | RIntent a b => CObject a b
  | RAction a d => CObject a d
  end.

(** The timer callback. *)
Definition runTask (env : Env) (task : Task) (st : State) (fs : Firestore)
    : State * Firestore :=
  match task with
  | FollowupTask userMessage =>
      let '(res, fs) := askAgentQ env fs userMessage Followup [] false None in
      let '(st, fs, _) :=
        match res with
        | RAction action _ =>
            if String.eqb action "ARCHIVE_SAVE"
            then saveMessage st fs (CString "Agent Q: [Simulated] Archive saved!")
                             (Some botUserId) false
            else saveMessage st fs (content_of res) (Some botUserId) false
        | _ => saveMessage st fs (content_of res) (Some botUserId) false
        end in
      (setIsBotThinking false (setPendingAction None st), fs)
  | ReplyTask userMessage userRequestType messages uid db =>
      let history := getFormattedHistory messages uid 10 in
      let '(res, fs) := askAgentQ env fs userMessage userRequestType history db (Some uid) in
      let '(st, fs) :=
        match res with
        | RAction action details =>
            if String.eqb action "ARCHIVE_CONFIRM" then
              let '(st, fs, _) := saveMessage st fs (CString details) (Some botUserId) false in
              (setPendingAction (Some res) st, fs)
            else if String.eqb action "ARCHIVE_SAVE" then
              (saveMessage st fs (CString "Agent Q: [Simulated] Archive saved!")
                           (Some botUserId) false).1
            else (saveMessage st fs (content_of res) (Some botUserId) false).1
        | RIntent action _ =>
            if String.eqb action "ARCHIVE_ACCESS" then
              (saveMessage st fs (CString "Agent Q: [Simulated] Archive retrieved!")
                           (Some botUserId) false).1
            else (saveMessage st fs (content_of res) (Some botUserId) false).1
        | RText _ => (saveMessage st fs (content_of res) (Some botUserId) false).1
        end in
      (setIsBotThinking false st, fs)
  end.

(** One submission with its timer callback run to the end. *)
Definition submit (env : Env) (tokenDictionary : list string)
    (st : State) (fs : Firestore) : State * Firestore :=
  match handleUserMessage tokenDictionary st fs with
  | (st, fs, Some task) => runTask env task st fs
  | (st, fs, None) => (st, fs)
  end.

End Router.

(* ------------------------------------------------------------------ *)
(** ** The reminder poll loop                                           *)
(* ------------------------------------------------------------------ *)

Module Reminders.
Import Router.

(** What a poll does for a record: the [saveMessage] call it issues and
    the [deleteDoc] call after it, each tagged with the record's id. *)
Inductive Effect :=
| Emit (docId : string) (content : Content) (senderId : string)
| Delete (docId : string).

(** The process: the set behind [firedReminderIdsRef], the component
    state, the store, and the effects issued so far.  The effect is taken
    as mounted, with [saveMessage] bound (the source lists [saveMessage]
    among the dependencies of the effect above its declaration). *)
Record Process := {
  fired : gset string;
  state : State;
  store : Firestore;
  effects : list Effect
}.

(** [deleteDoc(doc(dbInstance, `users/${userId}/reminders/${docId}`))] *)
Definition deleteDoc (fs : Firestore) (docId : string) : Firestore :=
  if writable fs then delete_reminder fs docId else fs.

(** The [forEach] callback on one [docSnap]. *)
Definition on_doc (now : Z) (p : Process) (docSnap : string * ReminderDoc) : Process :=
  let data := docSnap.2 in
  let docId := docSnap.1 in
  if (remindAt data <=? now)%Z && negb (bool_decide (docId ∈ fired p)) then
    let fired' := {[docId]} ∪ fired p in
    let content := CString ("⏰ Reminder: " ++ message data) in
    let '(st, fs, _) := saveMessage (state p) (store p) content (Some botUserId) false in
    let fs := deleteDoc fs docId in
    {| fired := fired'; state := st; store := fs;
       effects := effects p ++ [Emit docId content botUserId; Delete docId] |}
  else p.

(** One tick of the interval with the snapshot that [getDocs] resolved
    to, or [None] when it rejected.  The callbacks are folded one after
    the other; [forEach] starts them all before a write resolves, so the
    effects of different records interleave in the code, and only the
    order of the effects of one record is that of the fold. *)
Definition poll (now : Z) (snap : option (list (string * ReminderDoc))) (p : Process) : Process :=
  match snap with
  | Some docs => foldl (on_doc now) p docs
  | None =>
      {| fired := fired p;
         state := setError (Some "Agent Q: Error polling reminders.") (state p);
         store := store p; effects := effects p |}
  end.

(** [getDocs(query(remindersCol, orderBy('remindAt'), limit(10)))] on the
    store as it is. *)
Definition earlier (a b : string * ReminderDoc) : Prop :=
  (remindAt a.2 <= remindAt b.2)%Z.

#[global] Instance earlier_dec : RelDecision earlier :=
  fun a b => decide (remindAt a.2 <= remindAt b.2)%Z.

Definition due_query (fs : Firestore) : list (string * ReminderDoc) :=
  take 10 (merge_sort earlier (reminders fs)).

(** A tick that reads the store of the process itself. *)
Definition tick (now : Z) (p : Process) : Process :=
  poll now (Some (due_query (store p))) p.

(** The ticks of a process, each with its clock and its snapshot. *)
Definition run (ticks : list (Z * option (list (string * ReminderDoc)))) (p : Process) : Process :=
  foldl (fun p t => poll t.1 t.2 p) p ticks.

(** A process at mount: nothing fired, nothing issued. *)
Definition start (st : State) (fs : Firestore) : Process :=
  {| fired := ∅; state := st; store := fs; effects := [] |}.

(** The ids of the records for which an utterance was emitted. *)
Definition emitted (effs : list Effect) : list string :=
  omap (fun e => match e with Emit id _ _ => Some id | Delete _ => None end) effs.

(** The invariant of the process: the ids with an emitted utterance are
    the fired ids, each once. *)
Definition once (p : Process) : Prop :=
  NoDup (emitted (effects p)) /\ (forall id, id ∈ emitted (effects p) <-> id ∈ fired p).

(** The record that an effect is about. *)
Definition effect_id (e : Effect) : string :=
  match e with Emit docId _ _ => docId | Delete docId => docId end.

End Reminders.

(* ------------------------------------------------------------------ *)
(** ** A sample session                                                 *)
(* ------------------------------------------------------------------ *)

Module Sample.
Import AgentQ Router.

Definition env : Env :=
  {| now := 1000; nextDocId := "r1";
     weatherReply := fun _ => "Agent Q: Weather unavailable for Boston.";
     cryptoReply := fun _ => "Agent Q: Crypto price unavailable." |}.

Definition fs : Firestore := {| chatMessages := []; reminders := []; writable := true |}.

(** A ready session with [input] in the input box. *)
Definition ready (input : string) (pending : option Response) : State :=
  {| dbInstance := true; userId := Some "u1"; messages := [];
     currentMessage := input; error := None; isBotThinking := false;
     pendingAction := pending |}.

(** The pending confirmation that the answer to [/archive] sets. *)
Definition confirm : Response :=
  RAction "ARCHIVE_CONFIRM" "Would you like to save the current chat archive? (yes/no)".

End Sample.

(* ------------------------------------------------------------------ *)
(** ** handleTtsGeneration and base64ToArrayBuffer                      *)
(* ------------------------------------------------------------------ *)

Module Tts.
Import Wav.

(** The pattern [/rate=(\d+)/] on the mime type: the leftmost place where
    the word stands before a digit, with the run of digits after it. *)
Fixpoint strip_literal (lit s : string) : option string :=
  match lit with
  | "" => Some s
  | String a lit' =>
      match s with
      | String b s' => if Ascii.eqb a b then strip_literal lit' s' else None
      | "" => None
      end
  end.

Definition rate_here (s : string) : option string :=
  s1 ← strip_literal "rate=" s;
  let '(value, _) := AgentQ.span_digits s1 in
  if String.eqb value "" then None else Some value.

Fixpoint rate_match (s : string) : option string :=
  match rate_here s with
  | Some value => Some value
  | None => match s with
            | "" => None
            | String _ r => rate_match r
            end
  end.

(** [sampleRateMatch ? parseInt(sampleRateMatch[1], 10) : 16000] *)
Definition sampleRate_of (mimeType : string) : Z :=
  match rate_match mimeType with
  | Some value => AgentQ.parseInt value
  | None => 16000
  end.

(** [new Int16Array(pcmData)]: a RangeError when the byte length is odd,
    else the array on the whole buffer. *)
Definition newInt16Array (pcmData : list Z) : option Int16Array :=
  if Nat.even (length pcmData)
  then Some {| buffer := pcmData; byteOffset := 0; byteLength := length pcmData |}
  else None.

(** The loop of [base64ToArrayBuffer], [bytes[i] = binaryString.charCodeAt(i)]. *)
Fixpoint charCodes (binaryString : string) : list Z :=
  match binaryString with
  | "" => []
  | String c r => (charCode c mod 256)%Z :: charCodes r
  end.

(** The part of the answer that the handler reads,
    [result?.candidates?.[0]?.content?.parts?.[0]], with its
    [inlineData.data] and [inlineData.mimeType]. *)
Record Part := { inlineData_data : option string; inlineData_mimeType : option string }.

(** How the handler ends: the clip it plays, or the error it sets. *)
Inductive Outcome :=
| Played (wavBlob : Blob)
| Failed (error : string).

Definition invalid_format : string :=
  "Agent Q: Voice Decoding failed: Invalid audio format from TTS service.".

Definition service_error : string :=
  "Agent Q: Voice Decoding failed: TTS service error.".

Section HandleTtsGeneration.

(** The browser's [atob] ([None] when it throws), the parsed answers of
    the service and the path to their first part. *)
Variable atob : string -> option string.
Variable Json : Type.
Variable firstPart : Json -> option Part.
Variable fetch : Z -> Gateway.FetchOutcome Json.
Variable random : Z -> Q.

Definition base64ToArrayBuffer (base64 : string) : option (list Z) :=
  binaryString ← atob base64; Some (charCodes binaryString).

(** The body of the [try] after the call, on its result. *)
Definition decode_part (part : option Part) : Outcome :=
  match part with
  | Some {| inlineData_data := Some audioData; inlineData_mimeType := Some mimeType |} =>
      if truthy audioData && truthy mimeType && startsWith mimeType "audio/L16" then
        let sampleRate := sampleRate_of mimeType in
        match base64ToArrayBuffer audioData with
        | None => Failed service_error
        | Some pcmData =>
            match newInt16Array pcmData with
            | None => Failed service_error
            | Some pcm16 =>
                match pcmToWav pcm16 sampleRate with
                | None => Failed service_error
                | Some wavBlob => Played wavBlob
                end
            end
        end
      else Failed invalid_format
  | _ => Failed invalid_format
  end.

(** [handleTtsGeneration(textToSpeak)]: the call with no schema and the
    default three attempts, then the decoding. *)
Definition handleTtsGeneration : list Gateway.Event * Outcome :=
  match Gateway.callGeminiApi Json (fun _ => None) (fun _ => None) fetch random false 3 with
  | (events, inl _) => (events, Failed service_error)
  | (events, inr result) => (events, decode_part (firstPart result))
  end.

End HandleTtsGeneration.

End Tts.

(* ------------------------------------------------------------------ *)
(** ** A session: inputs typed and submitted one after the other        *)
(* ------------------------------------------------------------------ *)

Module Session.
Import Router.

(** The input box is filled with [input] and the message is submitted;
    [env] holds the answers of the outside world during it. *)
Definition enter (tokenDictionary : list string) (w : State * Firestore)
    (step : Env * string) : State * Firestore :=
  submit step.1 tokenDictionary (setCurrentMessage step.2 w.1) w.2.

Definition session (tokenDictionary : list string) (steps : list (Env * string))
    (w : State * Firestore) : State * Firestore :=
  foldl (enter tokenDictionary) w steps.


(** A document holds a text or a token index, never both, and the flag
    tells which. *)
Definition well_formed_doc (d : ChatDoc) : Prop :=
  (doc_isTokenized d = true /\ doc_text d = None /\ exists i, doc_tokenIndex d = Some (CNumber i)) \/
  (doc_isTokenized d = false /\ doc_tokenIndex d = None /\ exists c, doc_text d = Some c).

(** The store after some handlers ran: the chat collection got well-formed
    documents at its end, the reminders got records at their end, nothing
    else changed. *)
Definition grows (fs fs' : Firestore) : Prop :=
  writable fs' = writable fs /\
  (exists new, chatMessages fs' = (chatMessages fs ++ new)%list /\ Forall well_formed_doc new) /\
  (exists more, reminders fs' = (reminders fs ++ more)%list).

(** The pending action is unset or the confirmation request. *)
Definition pending_is_confirm (st : State) : Prop :=
  pendingAction st = None \/
  exists details, pendingAction st = Some (AgentQ.RAction "ARCHIVE_CONFIRM" details).

End Session.

(* ------------------------------------------------------------------ *)
(** ** The first version of the component: askAgentQ and the dispatch   *)
(* ------------------------------------------------------------------ *)

Module V1.

Inductive RequestType := Chat | Intent | Command.

(** [AgentQResponse]: [{type: 'text', content}] or
    [{type: 'intent', content: {action, argument}}]. *)
Inductive AgentQResponse :=
| Text (content : string)
| IntentOf (action argument : string).

(** [s.substring(n)] *)
Fixpoint substring (n : nat) (s : string) : string :=
  match n, s with
  | O, _ => s
  | S n', String _ r => substring n' r
  | S _, "" => ""
  end.

(** [s.split(sep)[0]] for a non-empty [sep]: the part before its first
    occurrence, the whole of [s] when there is none. *)
Fixpoint split_0 (sep s : string) : string :=
  if String.prefix sep s then ""
  else match s with
       | "" => ""
       | String c r => String c (split_0 sep r)
       end.

(** [s.split(sep)[1]]: the part between the first and the second
    occurrence, [undefined] when [sep] does not occur. *)
Fixpoint split_1 (sep s : string) : option string :=
  if String.prefix sep s then Some (split_0 sep (substring (String.length sep) s))
  else match s with
       | "" => None
       | String _ r => split_1 sep r
       end.

(** [s || d] on strings. *)
Definition or_else (s d : string) : string := if truthy s then s else d.

Definition default_reply : string :=
  "Agent Q: Your message has been processed by my QNN's intuitive and instinctive layers. How else can I assist you within the QCOS environment?".

Definition summary_reply : string :=
  "Agent Q: Utilizing my QNN's instinctive layer to generate a concise summary of our quantum conversation, focusing on key entanglement points.".

Definition ask_reply (query : string) : string :=
  "Agent Q: Processing your query: " ++ dq ++ query ++ dq ++
  " with QNN-enhanced search. My intuitive layer is now scanning for real-time data.".

Definition optimize_reply (target : string) : string :=
  "Agent Q: Initiating QNN-guided optimization analysis for " ++ dq ++ target ++ dq ++
  ". My QNN's intuitive layer identifies bottlenecks, while the instinctive layer suggests optimal quantum-inspired solutions.".

(** [askAgentQ(userQuery, requestType, conversationHistory)]; [None] is
    the rejection that a [split] on [undefined] would cause. *)
Definition askAgentQ (userQuery : string) (requestType : RequestType)
    (conversationHistory : list HistoryEntry) : option AgentQResponse :=
  match requestType with
  | Intent =>
      let lowerQuery := toLowerCase userQuery in
      if includes lowerQuery "call " then
        segment ← split_1 "call " lowerQuery;
        Some (IntentOf "CALL" (or_else (split_0 " " segment) "unknown"))
      else if includes lowerQuery "hangup" then Some (IntentOf "HANGUP" "")
      else if includes lowerQuery "chirp" then Some (IntentOf "CHIRP" "")
      else if includes lowerQuery "save chat history"
              || String.eqb lowerQuery "archive_save"
              || includes lowerQuery "save chat"
      then Some (IntentOf "ARCHIVE_SAVE" "")
      else if includes lowerQuery "retrieve my archive"
              || String.eqb lowerQuery "archive_access"
              || includes lowerQuery "retrieve archive"
      then Some (IntentOf "ARCHIVE_ACCESS" "")
      else Some (IntentOf "CHAT" userQuery)
  | Command =>
      if startsWith (toLowerCase userQuery) "/ask" then
        Some (Text (ask_reply (trim (substring 5 userQuery))))
      else if startsWith (toLowerCase userQuery) "/summary" then
        Some (Text summary_reply)
      else if startsWith (toLowerCase userQuery) "/optimize" then
        let target := or_else (trim (substring 9 userQuery)) "App Component" in
        Some (Text (optimize_reply target))
      else Some (Text default_reply)
  | Chat => Some (Text default_reply)
  end.

(** What a handler ends in: a message saved from the bot, or one of the
    archive handlers. *)
Inductive Step :=
| Say (botResponse : string)
| ArchiveSave
| ArchiveAccess.

Definition recognition_error : string :=
  "Agent Q: Intent recognition error: Command structure could not be verified by QNN. Falling back to chat.".

(** [handleGeneralConversation(userText)] *)
Definition handleGeneralConversation (history : list HistoryEntry) (userText : string) : list Step :=
  match askAgentQ userText Chat history with
  | Some (Text content) => [Say content]
  | Some (IntentOf _ _) => [Say "Agent Q: An unexpected error occurred in QNN processing."]
  | None => [Say "Agent Q: Connection instability detected during QNN processing. Please repeat your last message."]
  end.

(** [handleIntentDecryption(userMessage)]: the [switch] on the action,
    and the [catch] with its fall-back to the chat. *)
Definition handleIntentDecryption (history : list HistoryEntry) (userMessage : string) : list Step :=
  match askAgentQ userMessage Intent [] with
  | Some (IntentOf action argument) =>
      if String.eqb action "CALL" then
        [Say ("Agent Q: Command accepted. Initiating secure channel establishment for **"
              ++ argument ++ "**...")]
      else if String.eqb action "HANGUP" then
        [Say "Agent Q: Command accepted. **Terminating session** and purging quantum keys. Goodbye."]
      else if String.eqb action "CHIRP" then
        [Say "Agent Q: Command accepted. Running signal integrity test (CHIRP). Test successful, bandwidth stable."]
      else if String.eqb action "ARCHIVE_SAVE" then [ArchiveSave]
      else if String.eqb action "ARCHIVE_ACCESS" then [ArchiveAccess]
      else handleGeneralConversation history userMessage
  | Some (Text _) | None =>
      Say recognition_error :: handleGeneralConversation history userMessage
  end.

(** [handleAskResponse(question)] *)
Definition handleAskResponse (history : list HistoryEntry) (question : string) : list Step :=
  match askAgentQ ("/ask " ++ question) Command history with
  | Some (Text content) => [Say content]
  | Some (IntentOf _ _) => [Say "Agent Q: An unexpected error occurred during /ask processing."]
  | None => [Say "Agent Q: Error: My QNN failed to decode complex query. Try again."]
  end.

(** [handleCommandResponse(command, query)] *)
Definition handleCommandResponse (history : list HistoryEntry) (command query : string) : list Step :=
  match askAgentQ query Command history with
  | Some (Text content) => [Say content]
  | Some (IntentOf _ _) =>
      [Say ("Agent Q: An unexpected error occurred during " ++ command ++ " processing.")]
  | None =>
      [Say ("Agent Q: Error: Could not execute " ++ command ++ " protocol. Try simplifying the request.")]
  end.

(** The calls that [handleUserMessage] issues, in their order. *)
Inductive Action :=
| SaveMessage (content : Content) (senderId : string) (isTokenized : bool)
| AskResponse (question : string)
| CommandResponse (command query : string)
| IntentDecryption (userMessage : string).

(** [handleUserMessage()] on the input box, the user id and the
    [isBotThinking] flag of its closure. *)
Definition handleUserMessage (tokenDictionary : list string) (currentMessage : string)
    (userId : option string) (isBotThinking : bool) : list Action :=
  let userMessage := trim currentMessage in
  match Router.truthy_id userId with
  | None => []
  | Some uid =>
      if String.eqb userMessage "" then [] else
      let lowerMessage := toLowerCase userMessage in
      match TokenLibrary.lookupToken lowerMessage tokenDictionary with
      | Some tokenIndex => [SaveMessage (CNumber tokenIndex) uid true]
      | None =>
          if startsWith lowerMessage "/ask" || startsWith lowerMessage "/summary"
             || startsWith lowerMessage "/optimize" then
            SaveMessage (CString userMessage) uid false ::
            (if isBotThinking then [] else
             if startsWith lowerMessage "/ask" then
               let question := trim (substring 5 userMessage) in
               if truthy question then [AskResponse question]
               else [SaveMessage (CString "Agent Q: Please ask me a question after '/ask'.")
                                 uid false]
             else if String.eqb lowerMessage "/summary" then
               [CommandResponse "Summary" lowerMessage]
             else if startsWith lowerMessage "/optimize" then
               [CommandResponse "Optimization" lowerMessage]
             else [])
          else
            SaveMessage (CString userMessage) uid false ::
            (if isBotThinking then [] else [IntentDecryption userMessage])
      end
  end.

(** The handler that an action of the dispatch runs. *)
Definition run_action (history : list HistoryEntry) (a : Action) : list Step :=
  match a with
  | SaveMessage _ _ _ => []
  | AskResponse question => handleAskResponse history question
  | CommandResponse command query => handleCommandResponse history command query
  | IntentDecryption userMessage => handleIntentDecryption history userMessage
  end.

End V1.

(* ================================================================== *)
(** * Properties                                                        *)
(* ================================================================== *)

(** ** findIndex *)

Lemma findIndex_range {A} (f : A -> bool) (l : list A) :
  (-1 <= findIndex f l < Z.of_nat (length l))%Z.
Proof.
  induction l as [|x r IH]; simpl; [lia|].
  destruct (f x); [lia|].
  destruct (Z.eqb_spec (findIndex f r) (-1)); lia.
Qed.

Lemma findIndex_found {A} (f : A -> bool) (l : list A) (i : Z) :
  findIndex f l = i -> i <> (-1)%Z ->
  exists x, l !! Z.to_nat i = Some x /\ f x = true /\
            forall j y, (j < Z.to_nat i)%nat -> l !! j = Some y -> f y = false.
Proof.
  revert i. induction l as [|x r IH]; simpl; intros i Hi Hne; [congruence|].
  destruct (f x) eqn:Hfx.
  - subst i. exists x. repeat split; auto. intros j y Hj. simpl in Hj. lia.
  - destruct (Z.eqb_spec (findIndex f r) (-1)) as [E|E]; [congruence|].
    destruct (IH _ eq_refl E) as (y & Hy & Hfy & Hfirst).
    pose proof (findIndex_range f r) as Hr.
    subst i. exists y.
    replace (Z.to_nat (findIndex f r + 1)) with (S (Z.to_nat (findIndex f r))) by lia.
    repeat split; auto.
    intros [|j] z Hj Hz; simpl in Hz.
    + congruence.
    + apply (Hfirst j); [lia|done].
Qed.

Lemma findIndex_none {A} (f : A -> bool) (l : list A) :
  findIndex f l = (-1)%Z <-> forall x, x ∈ l -> f x = false.
Proof.
  induction l as [|x r IH]; simpl.
  - split; [|done]. intros _ x Hx. inversion Hx.
  - destruct (f x) eqn:Hfx.
    + split; [lia|]. intros H. specialize (H x (list_elem_of_here _ _)). congruence.
    + destruct (Z.eqb_spec (findIndex f r) (-1)) as [E|E].
      * split; [|done]. intros _ y Hy. apply elem_of_cons in Hy as [->|Hy]; [done|].
        by apply IH.
      * pose proof (findIndex_range f r) as Hr. split; [lia|].
        intros H. exfalso. apply E, IH. intros y Hy. apply H. by right.
Qed.

(** ** TokenLibrary *)

Lemma lookupToken_some (dictionary : list string) (s : string) (i : Z) :
  TokenLibrary.lookupToken s dictionary = Some i ->
  exists q, TokenLibrary.lookupPhrase i dictionary = Some q /\
            toLowerCase q = toLowerCase s /\
            forall j q', (0 <= j < i)%Z ->
              TokenLibrary.lookupPhrase j dictionary = Some q' ->
              toLowerCase q' <> toLowerCase s.
Proof.
  unfold TokenLibrary.lookupToken, TokenLibrary.lookupPhrase, JsString.index.
  set (f := fun p => String.eqb (toLowerCase p) (toLowerCase s)).
  destruct (Z.eqb_spec (findIndex f dictionary) (-1)) as [E|E]; simpl; [done|].
  intros [= <-].
  destruct (findIndex_found f dictionary _ eq_refl E) as (q & Hq & Hfq & Hfirst).
  pose proof (findIndex_range f dictionary) as Hr.
  exists q. split; [|split].
  - destruct (Z.ltb_spec (findIndex f dictionary) 0); [lia|]. by rewrite Hq.
  - by apply String.eqb_eq.
  - intros j q' Hj. destruct (Z.ltb_spec j 0); [lia|].
    destruct (dictionary !! Z.to_nat j) eqn:Hl; [|done]. intros [= ->].
    specialize (Hfirst (Z.to_nat j) q' ltac:(lia) Hl).
    unfold f in Hfirst. by apply String.eqb_neq.
Qed.

Lemma lookupToken_none (dictionary : list string) (s : string) :
  TokenLibrary.lookupToken s dictionary = None <->
  forall q, q ∈ dictionary -> toLowerCase q <> toLowerCase s.
Proof.
  unfold TokenLibrary.lookupToken.
  set (f := fun p => String.eqb (toLowerCase p) (toLowerCase s)).
  destruct (Z.eqb_spec (findIndex f dictionary) (-1)) as [E|E]; simpl.
  - split; [|done]. intros _ q Hq.
    apply String.eqb_neq. by apply (proj1 (findIndex_none f dictionary) E).
  - split; [done|]. intros H. exfalso. apply E, findIndex_none.
    intros q Hq. apply String.eqb_neq. by apply H.
Qed.



(** On the dictionary of the configuration the entries differ even up to
    case, so decoding the code of an entry gives the entry itself. *)
Lemma tokenDictionary_roundtrip (p : string) :
  p ∈ tokenDictionary ->
  exists i, TokenLibrary.lookupToken p tokenDictionary = Some i /\
            TokenLibrary.lookupPhrase i tokenDictionary = Some p.
Proof.
  unfold tokenDictionary. intros H.
  repeat (apply elem_of_cons in H as [->|H]; [eexists; split; vm_compute; reflexivity|]).
  inversion H.
Qed.

(** ** Decoding a stored index *)

Lemma lookupPhrase_out_of_range (dictionary : list string) (i : Z) :
  (i < 0 \/ Z.of_nat (length dictionary) <= i)%Z ->
  TokenLibrary.lookupPhrase i dictionary = None.
Proof.
  intros H. unfold TokenLibrary.lookupPhrase, JsString.index.
  destruct (Z.ltb_spec i 0); [done|].
  rewrite lookup_ge_None_2; [done|lia].
Qed.

Lemma startsWith_app (p rest : string) : startsWith (p ++ rest) p = true.
Proof.
  unfold startsWith. induction p as [|a p IH]; [by destruct rest|].
  change (String a p ++ rest) with (String a (p ++ rest)).
  cbn [String.prefix]. by destruct (ascii_dec a a).
Qed.

(** C3 (amended). For an index outside the dictionary, [lookupPhrase] is
    [null] and the decoding expression of the snapshot listener gives the
    sentinel [[TOKEN_ERROR: Unknown Index i]], with the index in decimal
    digits when it is a safe integer; for every safe integer the decoding
    expression gives a string, an entry of the dictionary or the
    sentinel; and for every index at all it gives an entry of the
    dictionary or a text that starts as the sentinel does. *)
Theorem decodeToken_unknown_index (dictionary : list string) (i : Z) :
  safe_integer i ->
  (i < 0 \/ Z.of_nat (length dictionary) <= i)%Z ->
  TokenLibrary.lookupPhrase i dictionary = None /\
  decodeToken i dictionary = "[TOKEN_ERROR: Unknown Index " ++ show_int i ++ "]" /\
  (forall j, safe_integer j ->
             decodeToken j dictionary ∈ dictionary \/
             decodeToken j dictionary = "[TOKEN_ERROR: Unknown Index " ++ show_int j ++ "]") /\
  (forall j, decodeToken j dictionary ∈ dictionary \/
             startsWith (decodeToken j dictionary) "[TOKEN_ERROR: Unknown Index " = true).
Proof.
  intros _ H. split; [by apply lookupPhrase_out_of_range|]. split.
  { unfold decodeToken. by rewrite lookupPhrase_out_of_range. }
  assert (Hall : forall j,
    decodeToken j dictionary ∈ dictionary \/
    decodeToken j dictionary = "[TOKEN_ERROR: Unknown Index " ++ show_int j ++ "]").
  { intros j. unfold decodeToken, TokenLibrary.lookupPhrase, JsString.index.
    destruct (Z.ltb_spec j 0); [by right|].
    destruct (dictionary !! Z.to_nat j) as [p|] eqn:E; [|by right].
    destruct (truthy p); [left|by right].
    by eapply list_elem_of_lookup_2. }
  split; [intros j _; apply Hall|].
  intros j. destruct (Hall j) as [Hin| ->]; [by left|right].
  apply startsWith_app.
Qed.

Lemma decodeToken_unknown_index_witness :
  safe_integer 13 /\
  (13 < 0 \/ Z.of_nat (length tokenDictionary) <= 13)%Z /\
  decodeToken 13 tokenDictionary = "[TOKEN_ERROR: Unknown Index 13]".
Proof.
  assert (H0 : safe_integer 13) by (unfold safe_integer; lia).
  assert (H : (13 < 0 \/ Z.of_nat (length tokenDictionary) <= 13)%Z)
    by (right; simpl; lia).
  split; [exact H0|]. split; [exact H|].
  exact (proj1 (proj2 (decodeToken_unknown_index tokenDictionary 13 H0 H))).
Defined.

(** C3 as the specification words it: the sentinel of the code is not the
    string [[TOKEN_ERROR: unknown index -1]]. *)
Lemma decodeToken_sentinel_spelling :
  (-1 < 0)%Z /\
  decodeToken (-1) tokenDictionary = "[TOKEN_ERROR: Unknown Index -1]" /\
  decodeToken (-1) tokenDictionary <> "[TOKEN_ERROR: unknown index " ++ show_int (-1) ++ "]".
Proof. split; [lia|]. split; [reflexivity|discriminate]. Qed.

(** ** The history handed to Agent Q *)

Lemma slice_from_last {A} (l : list A) (n : nat) :
  (0 < n)%nat -> slice_from l (- Z.of_nat n) = drop (length l - n) l.
Proof.
  intros Hn. unfold slice_from.
  destruct (Z.ltb_spec (- Z.of_nat n) 0); [|lia].
  f_equal. lia.
Qed.

Lemma relevant_spec (m : Message) :
  relevant m = true <-> m_isTokenized m = false /\ m_text m <> "".
Proof.
  unfold relevant, truthy.
  rewrite andb_true_iff, !negb_true_iff, String.eqb_neq. tauto.
Qed.

Lemma history_of_recent (msgs : list Message) (uid : string) :
  exists recent : list Message,
    getFormattedHistory msgs uid 10 = map (formatMessage uid) recent /\
    recent `suffix_of` filter (fun m => relevant m = true) msgs /\
    length recent = Nat.min 10 (length (filter (fun m => relevant m = true) msgs)) /\
    (forall m, m ∈ recent ->
       m ∈ msgs /\ m_isTokenized m = false /\ m_text m <> "" /\
       h_text (formatMessage uid m) = m_text m /\
       (h_sender (formatMessage uid m) = "user" <-> m_userId m = uid)).
Proof.
  set (kept := filter (fun m => relevant m = true) msgs).
  exists (drop (length kept - 10) kept).
  split; [|split; [|split]].
  - unfold getFormattedHistory. fold kept.
    f_equal. apply (slice_from_last kept 10). lia.
  - apply suffix_drop.
  - rewrite length_drop. lia.
  - intros m Hm.
    assert (Hk : m ∈ kept) by (eapply elem_of_suffix; [exact Hm|apply suffix_drop]).
    apply list_elem_of_filter in Hk as [Hrel Hin].
    apply relevant_spec in Hrel as [Htok Htext].
    repeat split; auto.
    + unfold formatMessage; simpl.
      destruct (String.eqb_spec (m_userId m) uid); [done|discriminate].
    + intros E. unfold formatMessage; simpl. by rewrite E, String.eqb_refl.
Qed.

(** A tokenized document of the store never reaches the history, whatever
    its index decodes to. *)
Lemma tokenized_doc_not_in_history (dictionary : list string)
    (docs : list (string * DocData)) (uid : string) (e : HistoryEntry) :
  e ∈ getFormattedHistory (map (fun d => decodeDoc dictionary d.1 d.2) docs) uid 10 ->
  exists d, d ∈ docs /\ d_isTokenized d.2 <> Some true /\
            e = formatMessage uid (decodeDoc dictionary d.1 d.2).
Proof.
  intros He.
  destruct (history_of_recent (map (fun d => decodeDoc dictionary d.1 d.2) docs) uid)
    as (recent & Heq & _ & _ & Hall).
  rewrite Heq in He.
  apply list_elem_of_fmap in He as (m & -> & Hm).
  destruct (Hall m Hm) as (Hin & Htok & _).
  apply list_elem_of_fmap in Hin as (d' & -> & Hd').
  exists d'. repeat split; auto.
  intros E. unfold decodeDoc in Htok. simpl in Htok. by rewrite E in Htok.
Qed.


(** ** pcmToWav *)

Section WavProofs.
Import Wav.
Local Open Scope list_scope.
Local Open Scope Z_scope.

Lemma le32_value (v : Z) :
  0 <= v < 2 ^ 32 ->
  v mod 256 + 256 * ((v / 256) mod 256) + 65536 * ((v / 65536) mod 256)
    + 16777216 * ((v / 16777216) mod 256) = v.
Proof.
  intros H. change (2 ^ 32) with 4294967296 in H.
  Z.div_mod_to_equations. lia.
Qed.

Lemma le16_value (v : Z) :
  0 <= v < 2 ^ 16 ->
  v mod 256 + 256 * ((v / 256) mod 256) = v.
Proof.
  intros H. change (2 ^ 16) with 65536 in H.
  Z.div_mod_to_equations. lia.
Qed.

(** The copy loop fills the bytes after a prefix of [dataOffset + i]
    bytes, when the buffer has room for them. *)
Lemma copyBytes_app (pcmBytes pre rest : list Z) (dataOffset i : nat) :
  length pre = (dataOffset + i)%nat ->
  (length pcmBytes <= length rest)%nat ->
  copyBytes (pre ++ rest) dataOffset i pcmBytes =
    Some (pre ++ map (fun b => b mod 256) pcmBytes ++ drop (length pcmBytes) rest).
Proof.
  revert pre rest i.
  induction pcmBytes as [|b r IH]; intros pre rest i Hpre Hlen; simpl.
  - by rewrite drop_0.
  - destruct rest as [|x rest]; simpl in Hlen; [lia|].
    unfold setUint8.
    destruct (decide (dataOffset + i + 1 <= length (pre ++ x :: rest))%nat) as [_|Hn].
    2:{ exfalso. apply Hn. rewrite length_app. simpl. lia. }
    simpl.
    rewrite <- Hpre, insert_app_r_alt, Nat.sub_diag by lia. simpl.
    rewrite (cons_middle _ pre rest), app_assoc.
    rewrite (IH (pre ++ [b mod 256]) rest (S i)).
    + by rewrite <- app_assoc.
    + rewrite length_app. simpl. lia.
    + lia.
Qed.

(** The loop throws when the ArrayBuffer behind the array is longer than
    the room left in the view. *)
Lemma copyBytes_overflow (pcmBytes view : list Z) (dataOffset i : nat) :
  (dataOffset + i <= length view < dataOffset + i + length pcmBytes)%nat ->
  copyBytes view dataOffset i pcmBytes = None.
Proof.
  revert view i. induction pcmBytes as [|b r IH]; intros view i H; simpl in *.
  - lia.
  - unfold setUint8. destruct (decide _) as [Hle|Hn]; [|done]. simpl.
    apply IH. rewrite length_insert. lia.
Qed.

Lemma setUint8_prefix (h t : list Z) (offset : nat) (v : Z) :
  (offset + 1 <= length h)%nat ->
  setUint8 (h ++ t) offset v = Some (<[offset := v mod 256]> h ++ t).
Proof.
  intros H. unfold setUint8.
  destruct (decide _) as [_|Hn]; [|exfalso; apply Hn; rewrite length_app; lia].
  by rewrite insert_app_l by lia.
Qed.

Lemma setUint16_prefix (h t : list Z) (offset : nat) (v : Z) :
  (offset + 2 <= length h)%nat ->
  setUint16 (h ++ t) offset v =
    Some (<[(offset + 1)%nat := (v / 256) mod 256]> (<[offset := v mod 256]> h) ++ t).
Proof.
  intros H. unfold setUint16.
  destruct (decide _) as [_|Hn]; [|exfalso; apply Hn; rewrite length_app; lia].
  by rewrite !insert_app_l by (rewrite ?length_insert; lia).
Qed.

Lemma setUint32_prefix (h t : list Z) (offset : nat) (v : Z) :
  (offset + 4 <= length h)%nat ->
  setUint32 (h ++ t) offset v =
    Some (<[(offset + 3)%nat := (v / 16777216) mod 256]>
          (<[(offset + 2)%nat := (v / 65536) mod 256]>
          (<[(offset + 1)%nat := (v / 256) mod 256]>
          (<[offset := v mod 256]> h))) ++ t).
Proof.
  intros H. unfold setUint32.
  destruct (decide _) as [_|Hn]; [|exfalso; apply Hn; rewrite length_app; lia].
  by rewrite !insert_app_l by (rewrite ?length_insert; lia).
Qed.

Lemma length_put_string (s : string) (view : list Z) (offset : nat) :
  length (put_string view offset s) = length view.
Proof.
  revert view offset. induction s as [|c r IH]; intros; simpl; [done|].
  by rewrite IH, length_insert.
Qed.

Lemma writeString_prefix (s : string) (h t : list Z) (offset : nat) :
  (offset + String.length s <= length h)%nat ->
  writeString (h ++ t) offset s = Some (put_string h offset s ++ t).
Proof.
  revert h offset. induction s as [|c r IH]; intros h offset H; simpl in *; [done|].
  rewrite setUint8_prefix by lia. cbn [mbind option_bind].
  apply IH. rewrite length_insert. lia.
Qed.

Ltac view_length :=
  repeat first [rewrite length_insert | rewrite length_put_string];
  try match goal with H : length _ = 44%nat |- _ => rewrite H end.

(** The bytes of the blob, when the array spans its buffer: the header,
    then the samples. *)
Lemma pcmToWav_bytes (pcm16 : Int16Array) (sampleRate : Z) :
  byteLength pcm16 = length (buffer pcm16) ->
  pcmToWav pcm16 sampleRate =
    Some {| blob_bytes := riff_header sampleRate (Z.of_nat (byteLength pcm16))
                          ++ map (fun b => b mod 256) (buffer pcm16);
            blob_type := "audio/wav" |}.
Proof.
  intros Hspan. unfold pcmToWav.
  set (n := byteLength pcm16) in *.
  change (repeat 0 (44 + n)) with (repeat 0 44 ++ repeat 0 n).
  replace (sampleRate * 1 * (16 / 8)) with (sampleRate * 2)
    by (change (16 / 8) with 2; lia).
  change (1 * (16 / 8)) with 2.
  remember (repeat 0 44) as h0 eqn:Eh0.
  assert (Hh0 : length h0 = 44%nat) by (by subst h0).
  repeat (first [ rewrite writeString_prefix by (view_length; simpl; lia)
                | rewrite setUint16_prefix by (view_length; lia)
                | rewrite setUint32_prefix by (view_length; lia) ];
          cbn [mbind option_bind]).
  rewrite (copyBytes_app (buffer pcm16) _ (repeat 0 n) 44 0).
  - rewrite <- Hspan, drop_ge, app_nil_r by (rewrite repeat_length; lia).
    subst h0. reflexivity.
  - by view_length.
  - rewrite repeat_length. lia.
Qed.

(** C6 (amended). For an array that spans its buffer and header values
    that fit their 32-bit fields, [pcmToWav] returns a blob of type
    audio/wav of 44 bytes and the samples; read in little-endian order the
    44 bytes are the RIFF/WAVE header with riffChunkSize = 36 + dataSize,
    format 1, one channel, the sample rate, byteRate = sampleRate * 2,
    blockAlign = 2, 16 bits per sample and dataSize = the byte length of
    the samples. *)
Theorem pcmToWav_header (pcm16 : Int16Array) (sampleRate : Z) :
  spans_buffer pcm16 ->
  0 <= sampleRate ->
  sampleRate * 2 < 2 ^ 32 ->
  36 + Z.of_nat (byteLength pcm16) < 2 ^ 32 ->
  exists bytes,
    pcmToWav pcm16 sampleRate = Some {| blob_bytes := bytes; blob_type := "audio/wav" |} /\
    length bytes = (44 + byteLength pcm16)%nat /\
    take 4 bytes = tag "RIFF" /\
    getUint32 bytes 4 = Some (36 + Z.of_nat (byteLength pcm16)) /\
    take 4 (drop 8 bytes) = tag "WAVE" /\
    take 4 (drop 12 bytes) = tag "fmt " /\
    getUint32 bytes 16 = Some 16 /\
    getUint16 bytes 20 = Some 1 /\
    getUint16 bytes 22 = Some 1 /\
    getUint32 bytes 24 = Some sampleRate /\
    getUint32 bytes 28 = Some (sampleRate * 2) /\
    getUint16 bytes 32 = Some 2 /\
    getUint16 bytes 34 = Some 16 /\
    take 4 (drop 36 bytes) = tag "data" /\
    getUint32 bytes 40 = Some (Z.of_nat (byteLength pcm16)) /\
    drop 44 bytes = map (fun b => b mod 256) (buffer pcm16).
Proof.
  intros [_ Hspan] Hrate Hbyte Hsize.
  eexists. split; [by apply pcmToWav_bytes|].
  unfold riff_header, le32, le16.
  change (tag "RIFF") with [82; 73; 70; 70].
  change (tag "WAVE") with [87; 65; 86; 69].
  change (tag "fmt ") with [102; 109; 116; 32].
  change (tag "data") with [100; 97; 116; 97].
  set (n := Z.of_nat (byteLength pcm16)) in *.
  assert (Hn : 0 <= n) by (subst n; lia).
  cbn [app take drop].
  unfold getUint32, getUint16.
  cbn [lookup list_lookup Nat.add mbind option_bind].
  rewrite !le32_value, !le16_value by (change (2 ^ 16) with 65536; lia).
  repeat split.
  cbn [length]. rewrite length_map. lia.
Qed.

Lemma pcmToWav_header_witness :
  let pcm16 := {| buffer := []; byteOffset := 0; byteLength := 0 |} in
  spans_buffer pcm16 /\
  exists bytes,
    pcmToWav pcm16 16000 = Some {| blob_bytes := bytes; blob_type := "audio/wav" |} /\
    length bytes = 44%nat /\
    getUint32 bytes 4 = Some 36 /\
    getUint32 bytes 40 = Some 0.
Proof.
  intros pcm16.
  assert (Hspan : spans_buffer pcm16) by (split; reflexivity).
  split; [exact Hspan|].
  destruct (pcmToWav_header pcm16 16000 Hspan)
    as (bytes & H0 & H1 & _ & H2 & _ & _ & _ & _ & _ & _ & _ & _ & _ & _ & H3 & _);
    [lia | reflexivity | reflexivity |].
  exists bytes. repeat split; assumption.
Defined.

(** C6 as the specification words it, for every sample rate: at the rate
    2^31 the byteRate field holds 0, not 2^32. *)
Lemma pcmToWav_byteRate_wraps :
  let pcm16 := {| buffer := []; byteOffset := 0; byteLength := 0 |} in
  spans_buffer pcm16 /\
  exists bytes,
    pcmToWav pcm16 2147483648 = Some {| blob_bytes := bytes; blob_type := "audio/wav" |} /\
    getUint32 bytes 24 = Some 2147483648 /\
    getUint32 bytes 28 = Some 0 /\
    getUint32 bytes 28 <> Some (2147483648 * 2).
Proof.
  split; [split; reflexivity|].
  eexists. split; [reflexivity|]. repeat split. discriminate.
Qed.

(** An array on a part of a longer buffer makes the copy loop write past
    the view: a RangeError. *)
Lemma pcmToWav_partial_view :
  pcmToWav {| buffer := [1; 2; 3; 4]; byteOffset := 2; byteLength := 2 |} 16000 = None.
Proof. reflexivity. Qed.

End WavProofs.

(** ** callGeminiApi *)

Section GatewayProofs.
Import Gateway.
Local Open Scope list_scope.

Context {Json : Type}.
Variable jsonTextOf : Json -> option string.
Variable JSON_parse : string -> option Json.
Variable fetch : Z -> FetchOutcome Json.
Variable random : Z -> Q.
Variable responseSchema : bool.
Variable maxRetries : Z.

Abbreviation try_block := (try_block Json jsonTextOf JSON_parse fetch random responseSchema maxRetries).
Abbreviation attempts := (attempts Json jsonTextOf JSON_parse fetch random responseSchema maxRetries).
Abbreviation callGeminiApi := (callGeminiApi Json jsonTextOf JSON_parse fetch random responseSchema maxRetries).

(** Whatever the answers, the error of a call is one of the two final
    messages: no status and no other cause reaches the caller. *)
Lemma attempts_error (fuel : nat) (attempt : Z) (e : ApiError) :
  (attempts fuel attempt).2 = inl e -> e = FailedToConnect \/ e = MaxRetriesReached.
Proof.
  revert attempt. induction fuel as [|fuel IH]; intros attempt; simpl.
  - intros [= <-]. by right.
  - destruct (attempt <? maxRetries)%Z; [|intros [= <-]; by right].
    destruct (try_block attempt) as [d|r|err].
    + specialize (IH (attempt + 1)%Z). by destruct (attempts fuel (attempt + 1)).
    + discriminate.
    + destruct (attempt =? maxRetries - 1)%Z; [intros [= <-]; by left|].
      specialize (IH (attempt + 1)%Z). by destruct (attempts fuel (attempt + 1)).
Qed.

(** A status that is neither a success nor 429 ends the [try] block with
    the status error, which the [catch] of the same iteration takes: on
    an attempt that is not the last the loop goes on. *)
Lemma attempts_status_error (fuel : nat) (attempt : Z) (r : Response Json) :
  (attempt < maxRetries - 1)%Z ->
  fetch attempt = Resolves r ->
  ok r = false -> status r <> 429%Z ->
  try_block attempt = Throw (StatusError (status r)) /\
  attempts (S fuel) attempt =
    (Fetch attempt :: (attempts fuel (attempt + 1)).1, (attempts fuel (attempt + 1)).2).
Proof.
  intros Hlt Hf Hok H429.
  assert (Ht : try_block attempt = Throw (StatusError (status r))).
  { unfold Gateway.try_block. rewrite Hf, Hok. simpl.
    destruct (Z.eqb_spec (status r) 429); [done|]. done. }
  split; [done|]. simpl. rewrite Ht.
  destruct (Z.ltb_spec attempt maxRetries); [|lia].
  destruct (Z.eqb_spec attempt (maxRetries - 1)); [lia|].
  by destruct (attempts fuel (attempt + 1)).
Qed.

(** The fuel of [callGeminiApi] never runs out before the loop ends: more
    fuel changes nothing. *)
Lemma attempts_fuel (fuel fuel' : nat) (attempt : Z) :
  (Z.to_nat (maxRetries - attempt) <= fuel)%nat ->
  (Z.to_nat (maxRetries - attempt) <= fuel')%nat ->
  attempts fuel attempt = attempts fuel' attempt.
Proof.
  revert fuel' attempt. induction fuel as [|fuel IH]; intros [|fuel'] attempt H H'.
  - reflexivity.
  - simpl. destruct (Z.ltb_spec attempt maxRetries); [lia|done].
  - simpl. destruct (Z.ltb_spec attempt maxRetries); [lia|done].
  - simpl. destruct (Z.ltb_spec attempt maxRetries); [|done].
    rewrite (IH fuel' (attempt + 1)%Z) by lia. done.
Qed.

Lemma backoff_bounds (k : Z) :
  (0 <= random k < 1)%Q ->
  (inject_Z (2 ^ k * 1000) <= backoff random k < inject_Z (2 ^ k * 1000) + 1000)%Q.
Proof. unfold backoff. intros [H0 H1]. split; lra. Qed.

(** The upper bound of one attempt is the lower bound of the next at most. *)
Lemma backoff_bound_step (j k : Z) :
  (0 <= j < k)%Z ->
  (inject_Z (2 ^ j * 1000) + 1000 <= inject_Z (2 ^ k * 1000))%Q.
Proof.
  intros H.
  assert (Hp : (2 ^ j * 1000 + 1000 <= 2 ^ k * 1000)%Z).
  { assert (2 ^ j < 2 ^ k)%Z by (apply Z.pow_lt_mono_r; lia). lia. }
  rewrite Zle_Qle, inject_Z_plus in Hp. exact Hp.
Qed.

Lemma attempts_S (fuel : nat) (attempt : Z) :
  attempts (S fuel) attempt =
    if (attempt <? maxRetries)%Z then
      match try_block attempt with
      | Continue delay =>
          let '(events, r) := attempts fuel (attempt + 1)%Z in
          (Fetch attempt :: Sleep delay :: events, r)
      | Return result => ([Fetch attempt], inr result)
      | Throw _ =>
          if (attempt =? maxRetries - 1)%Z
          then ([Fetch attempt], inl FailedToConnect)
          else
            let '(events, r) := attempts fuel (attempt + 1)%Z in
            (Fetch attempt :: events, r)
      end
    else ([], inl MaxRetriesReached).
Proof. reflexivity. Qed.

Lemma attempts_rate_limited (retries : nat) (attempt : Z) :
  (0 <= attempt)%Z ->
  (attempt + Z.of_nat retries = maxRetries - 1)%Z ->
  (forall k, (attempt <= k < maxRetries)%Z ->
     exists r, fetch k = Resolves r /\ status r = 429%Z) ->
  attempts (S retries) attempt =
    (rate_limited_events (backoff random) attempt retries, inl FailedToConnect).
Proof.
  revert attempt. induction retries as [|n IH]; intros attempt H0 Hlast H429.
  - destruct (H429 attempt ltac:(lia)) as (r & Hf & Hs).
    simpl. unfold Gateway.try_block. rewrite Hf. unfold ok. rewrite Hs. simpl.
    destruct (Z.ltb_spec attempt maxRetries); [|lia].
    destruct (Z.ltb_spec attempt (maxRetries - 1)); [lia|].
    destruct (Z.eqb_spec attempt (maxRetries - 1)); [done|lia].
  - destruct (H429 attempt ltac:(lia)) as (r & Hf & Hs).
    rewrite attempts_S.
    rewrite (IH (attempt + 1)%Z) by (try lia; intros; apply H429; lia).
    unfold Gateway.try_block. rewrite Hf. unfold ok. rewrite Hs. simpl.
    destruct (Z.ltb_spec attempt maxRetries); [|lia].
    destruct (Z.ltb_spec attempt (maxRetries - 1)); [done|lia].
Qed.

Lemma fetches_rate_limited (delay : Z -> Q) (retries : nat) (attempt : Z) :
  fetches (rate_limited_events delay attempt retries) = seqZ attempt (Z.of_nat (S retries)).
Proof.
  revert attempt. induction retries as [|n IH]; intros attempt.
  - reflexivity.
  - cbn [rate_limited_events fetches omap list_omap]. fold (fetches (rate_limited_events delay (attempt + 1) n)).
    rewrite IH. rewrite (seqZ_cons attempt (Z.of_nat (S (S n)))) by lia.
    do 2 f_equal; lia.
Qed.

Lemma sleeps_rate_limited (delay : Z -> Q) (retries : nat) (attempt : Z) :
  sleeps (rate_limited_events delay attempt retries) = map delay (seqZ attempt (Z.of_nat retries)).
Proof.
  revert attempt. induction retries as [|n IH]; intros attempt.
  - reflexivity.
  - cbn [rate_limited_events sleeps omap list_omap]. fold (sleeps (rate_limited_events delay (attempt + 1) n)).
    rewrite IH. rewrite (seqZ_cons attempt (Z.of_nat (S n))) by lia.
    cbn [map]. do 3 f_equal; lia.
Qed.

(** C4. When every attempt is answered with status 429 (and there is at
    least one attempt), the call makes [maxRetries] requests, sleeps
    before each of the [maxRetries - 1] retries for
    [2^attempt * 1000 + random * 1000] milliseconds, which lies in
    [2^attempt * 1000, 2^attempt * 1000 + 1000) and does not decrease from
    one attempt to the next, and then fails with the message
    [Failed to connect to the AI service.] *)
Theorem callGeminiApi_sustained_429 :
  (1 <= maxRetries)%Z ->
  (forall k, (0 <= k < maxRetries)%Z -> exists r, fetch k = Resolves r /\ status r = 429%Z) ->
  (forall k, (0 <= random k < 1)%Q) ->
  callGeminiApi =
    (rate_limited_events (backoff random) 0 (Z.to_nat (maxRetries - 1)), inl FailedToConnect) /\
  fetches callGeminiApi.1 = seqZ 0 maxRetries /\
  sleeps callGeminiApi.1 = map (backoff random) (seqZ 0 (maxRetries - 1)) /\
  length (sleeps callGeminiApi.1) = Z.to_nat (maxRetries - 1) /\
  (forall k, (inject_Z (2 ^ k * 1000) <= backoff random k
              < inject_Z (2 ^ k * 1000) + 1000)%Q) /\
  (forall j k, (0 <= j < k)%Z ->
     (inject_Z (2 ^ j * 1000) <= inject_Z (2 ^ k * 1000))%Q /\
     (inject_Z (2 ^ j * 1000) + 1000 <= inject_Z (2 ^ k * 1000) + 1000)%Q /\
     (backoff random j <= backoff random k)%Q).
Proof.
  intros Hmax H429 Hrandom.
  assert (Hrun : callGeminiApi =
    (rate_limited_events (backoff random) 0 (Z.to_nat (maxRetries - 1)), inl FailedToConnect)).
  { unfold Gateway.callGeminiApi.
    replace (Z.to_nat maxRetries) with (S (Z.to_nat (maxRetries - 1))) by lia.
    apply attempts_rate_limited; [lia|lia|]. intros k Hk. apply H429. lia. }
  rewrite Hrun. cbn [fst].
  split; [done|]. split; [|split; [|split; [|split]]].
  - rewrite fetches_rate_limited. f_equal. lia.
  - rewrite sleeps_rate_limited. do 2 f_equal. lia.
  - rewrite sleeps_rate_limited, length_map, length_seqZ. lia.
  - intros k. by apply backoff_bounds.
  - intros j k Hjk.
    pose proof (backoff_bound_step j k Hjk) as Hstep.
    pose proof (backoff_bounds j (Hrandom j)) as [Hj0 Hj1].
    pose proof (backoff_bounds k (Hrandom k)) as [Hk0 Hk1].
    repeat split; lra.
Qed.

End GatewayProofs.

Lemma callGeminiApi_sustained_429_witness :
  let fetch := fun _ : Z => Gateway.Resolves {| Gateway.status := 429; Gateway.body := @None unit |} in
  let random := fun _ : Z => (1 # 2)%Q in
  (1 <= 3)%Z /\
  Gateway.callGeminiApi unit (fun _ => None) (fun _ => None) fetch random false 3 =
    ([Gateway.Fetch 0; Gateway.Sleep (3000 # 2); Gateway.Fetch 1; Gateway.Sleep (5000 # 2);
      Gateway.Fetch 2], inl Gateway.FailedToConnect).
Proof.
  intros fetch random.
  assert (H : (1 <= 3)%Z) by lia.
  split; [exact H|].
  refine (proj1 (callGeminiApi_sustained_429 (fun _ => None) (fun _ => None)
                   fetch random false 3 H _ _)).
  - intros k _. eexists. split; reflexivity.
  - intros k. split; [discriminate|reflexivity].
Defined.

(** C2 on the code: a status 500 on the first attempt is retried, and a
    status 500 on every attempt ends in the message of a failed
    connection, without the status. *)
Lemma callGeminiApi_status_500 :
  let failing := Gateway.Resolves {| Gateway.status := 500; Gateway.body := @None unit |} in
  let success := Gateway.Resolves {| Gateway.status := 200; Gateway.body := Some tt |} in
  Gateway.try_block unit (fun _ => None) (fun _ => None) (fun _ => failing)
      (fun _ => 0%Q) false 3 0 = Gateway.Throw (Gateway.StatusError 500) /\
  Gateway.callGeminiApi unit (fun _ => None) (fun _ => None) (fun _ => failing)
      (fun _ => 0%Q) false 3 =
    ([Gateway.Fetch 0; Gateway.Fetch 1; Gateway.Fetch 2], inl Gateway.FailedToConnect) /\
  Gateway.callGeminiApi unit (fun _ => None) (fun _ => None)
      (fun k => if (k =? 0)%Z then failing else success) (fun _ => 0%Q) false 3 =
    ([Gateway.Fetch 0; Gateway.Fetch 1], inr tt).
Proof. repeat split. Qed.

(** ** handleUserMessage *)

Section RouterProofs.
Import AgentQ Router.

Lemma lower_char_idem (c : ascii) : lower_char (lower_char c) = lower_char c.
Proof. by destruct c as [[] [] [] [] [] [] [] []]. Qed.

Lemma toLowerCase_idem (s : string) : toLowerCase (toLowerCase s) = toLowerCase s.
Proof. induction s as [|c r IH]; simpl; [done|]. by rewrite lower_char_idem, IH. Qed.

(** The token lookup of [handleUserMessage] finds an index exactly when
    the message equals an entry of the dictionary up to case. *)
Lemma lookupToken_lower (dictionary : list string) (s : string) :
  (exists q, q ∈ dictionary /\ toLowerCase q = toLowerCase s) <->
  exists i, TokenLibrary.lookupToken (toLowerCase s) dictionary = Some i.
Proof.
  split.
  - intros (q & Hq & E).
    destruct (TokenLibrary.lookupToken (toLowerCase s) dictionary) as [i|] eqn:El; [by exists i|].
    exfalso. apply (proj1 (lookupToken_none _ _) El q Hq). by rewrite toLowerCase_idem.
  - intros (i & Hi). destruct (lookupToken_some _ _ _ Hi) as (q & Hq & E & _).
    exists q. split; [|by rewrite toLowerCase_idem in E].
    unfold TokenLibrary.lookupPhrase, JsString.index in Hq.
    destruct (i <? 0)%Z; [done|].
    destruct (dictionary !! Z.to_nat i) eqn:El; [|done].
    injection Hq as ->. by eapply list_elem_of_lookup_2.
Qed.

Lemma truthy_id_some (uid : string) : uid <> "" -> truthy_id (Some uid) = Some uid.
Proof.
  intros H. unfold truthy_id, truthy. by destruct (String.eqb_spec uid "").
Qed.

(** C8 (amended). With a user id, no pending confirmation and a non-empty
    trimmed input [s], the input and the dictionary in the ASCII range:
    when [s] equals an entry of the dictionary up to case, the handler
    saves the index as a tokenized message and sets no callback;
    otherwise it sets the reply callback with request type command when
    [s] starts with a slash, else intent when the lower-cased [s] includes
    archive or weather, else chat. *)
Theorem handleUserMessage_precedence (dictionary : list string)
    (st : State) (fs : Firestore) (uid : string) :
  userId st = Some uid -> uid <> "" ->
  pendingAction st = None ->
  ascii_text (currentMessage st) = true ->
  Forall (fun p => ascii_text p = true) dictionary ->
  trim (currentMessage st) <> "" ->
  let s := trim (currentMessage st) in
  let in_dictionary := exists q, q ∈ dictionary /\ toLowerCase q = toLowerCase s in
  (in_dictionary ->
     exists i st' fs',
       TokenLibrary.lookupToken (toLowerCase s) dictionary = Some i /\
       handleUserMessage dictionary st fs = (st', fs', None) /\
       (dbInstance st = true -> writable fs = true ->
        fs' = add_chat fs {| doc_text := None; doc_tokenIndex := Some (CNumber i);
                             doc_isTokenized := true; doc_userId := uid |})) /\
  (~ in_dictionary ->
     exists st' fs',
       handleUserMessage dictionary st fs =
         (st', fs',
          Some (ReplyTask s
                  (if startsWith s "/" then Command
                   else if includes (toLowerCase s) "archive"
                           || includes (toLowerCase s) "weather" then Intent
                   else Chat)
                  (messages st) uid (dbInstance st)))).
Proof.
  intros Huid Hne Hpend _ _ Hs s in_dictionary.
  unfold handleUserMessage. fold s.
  rewrite Huid, (truthy_id_some uid Hne).
  destruct (String.eqb_spec s ""); [done|].
  split.
  - intros Hin. apply lookupToken_lower in Hin as (i & Hi). rewrite Hi.
    unfold saveMessage. cbn [dbInstance setError setCurrentMessage].
    rewrite (truthy_id_some uid Hne).
    destruct (dbInstance st) eqn:Hdb, (writable fs) eqn:Hw;
      eexists _, _, _; (split; [reflexivity|]); (split; [reflexivity|]); intros; congruence.
  - intros Hout.
    destruct (TokenLibrary.lookupToken (toLowerCase s) dictionary) as [i|] eqn:Hi.
    { exfalso. apply Hout, lookupToken_lower. by exists i. }
    cbn [pendingAction setError setCurrentMessage]. rewrite Hpend. cbn [awaiting_confirmation].
    destruct (saveMessage _ fs (CString s) (Some uid) false) as [[st' fs'] b].
    by eexists _, _.
Qed.

Lemma handleUserMessage_precedence_witness :
  let st := Sample.ready " /help " None in
  userId st = Some "u1" /\ "u1" <> "" /\ pendingAction st = None /\
  ascii_text (currentMessage st) = true /\
  Forall (fun p => ascii_text p = true) tokenDictionary /\
  trim (currentMessage st) <> "" /\
  exists st' fs',
    handleUserMessage tokenDictionary st Sample.fs =
      (st', fs', Some (ReplyTask "/help" Command [] "u1" true)).
Proof.
  intros st.
  assert (H1 : userId st = Some "u1") by reflexivity.
  assert (H2 : "u1" <> "") by discriminate.
  assert (H3 : pendingAction st = None) by reflexivity.
  assert (Ha : ascii_text (currentMessage st) = true) by reflexivity.
  assert (Hd : Forall (fun p => ascii_text p = true) tokenDictionary)
    by (unfold tokenDictionary; repeat constructor).
  assert (H4 : trim (currentMessage st) <> "") by discriminate.
  repeat (split; [assumption|]).
  apply (proj2 (handleUserMessage_precedence tokenDictionary st Sample.fs "u1"
                  H1 H2 H3 Ha Hd H4)).
  intros (q & Hq & E). revert E.
  unfold tokenDictionary in Hq.
  repeat (apply elem_of_cons in Hq as [->|Hq]; [discriminate|]).
  inversion Hq.
Defined.

(** C8 as the specification words it, in a session without a user id:
    the guard at the head of the handler returns at once, so the phrase
    [Yes.] of the dictionary is not stored as a token and the command
    [/help] is not classified; state and store stay as they are and no
    callback is set. *)
Lemma handleUserMessage_without_user :
  let st (input : string) :=
    {| dbInstance := true; userId := None; messages := [];
       currentMessage := input; error := None; isBotThinking := false;
       pendingAction := None |} in
  pendingAction (st "Yes.") = None /\ trim (currentMessage (st "Yes.")) <> "" /\
  TokenLibrary.lookupToken (toLowerCase (trim (currentMessage (st "Yes."))))
    tokenDictionary = Some 5%Z /\
  handleUserMessage tokenDictionary (st "Yes.") Sample.fs = (st "Yes.", Sample.fs, None) /\
  chatMessages (handleUserMessage tokenDictionary (st "Yes.") Sample.fs).1.2 = [] /\
  startsWith (trim (currentMessage (st "/help"))) "/" = true /\
  handleUserMessage tokenDictionary (st "/help") Sample.fs = (st "/help", Sample.fs, None).
Proof.
  intros st. split; [reflexivity|]. split; [discriminate|].
  repeat split; reflexivity.
Qed.

(** The answer of Agent Q to a follow-up, as the timer callback saves it. *)
Lemma askAgentQ_followup (env : Env) (fs : Firestore) (s : string) :
  askAgentQ env fs s Followup [] false None =
    (if String.eqb (toLowerCase s) "yes" || String.eqb (toLowerCase s) "y"
     then RAction "ARCHIVE_SAVE" "Archive saved."
     else if String.eqb (toLowerCase s) "no" || String.eqb (toLowerCase s) "n"
     then RText "Agent Q: Archive not saved."
     else RText ("Agent Q: Please respond " ++ dq ++ "yes" ++ dq ++ " or " ++ dq ++ "no" ++ dq ++ "."),
     fs).
Proof.
  unfold askAgentQ. cbn [andb].
  destruct (_ || _); [done|]. by destruct (_ || _).
Qed.

Lemma pendingAction_saveMessage (st : State) (fs : Firestore) (c : Content)
    (sender : option string) (tok : bool) :
  pendingAction (saveMessage st fs c sender tok).1.1 = pendingAction st.
Proof.
  unfold saveMessage.
  by destruct (dbInstance st), (truthy_id sender), (writable fs).
Qed.

(** C1 (amended). With a confirmation pending (and so a user id, which
    the session keeps once it has one), the input and the dictionary in
    the ASCII range: a submitted input that is no phrase of the
    dictionary is handed to the follow-up callback, whatever request type
    it would otherwise get; the callback asks Agent Q with the type
    followup, saves one of the three follow-up replies and clears the
    pending confirmation.  An input that is a phrase of the dictionary is
    saved as a token, that one document being added to the store, is
    handed to no callback and leaves the confirmation pending. *)
Theorem pending_followup (env : Env) (dictionary : list string)
    (st : State) (fs : Firestore) (uid details : string) :
  userId st = Some uid -> uid <> "" ->
  pendingAction st = Some (RAction "ARCHIVE_CONFIRM" details) ->
  ascii_text (currentMessage st) = true ->
  Forall (fun p => ascii_text p = true) dictionary ->
  trim (currentMessage st) <> "" ->
  let s := trim (currentMessage st) in
  (TokenLibrary.lookupToken (toLowerCase s) dictionary = None ->
     exists st1,
       handleUserMessage dictionary st fs = (st1, fs, Some (FollowupTask s)) /\
       pendingAction st1 = pendingAction st /\
       pendingAction (runTask env (FollowupTask s) st1 fs).1 = None /\
       pendingAction (submit env dictionary st fs).1 = None /\
       (dbInstance st = true -> writable fs = true ->
        (runTask env (FollowupTask s) st1 fs).2 =
          add_chat fs
            {| doc_text := Some (CString
                 (if String.eqb (toLowerCase s) "yes" || String.eqb (toLowerCase s) "y"
                  then "Agent Q: [Simulated] Archive saved!"
                  else if String.eqb (toLowerCase s) "no" || String.eqb (toLowerCase s) "n"
                  then "Agent Q: Archive not saved."
                  else "Agent Q: Please respond " ++ dq ++ "yes" ++ dq ++ " or "
                         ++ dq ++ "no" ++ dq ++ "."));
               doc_tokenIndex := None; doc_isTokenized := false;
               doc_userId := botUserId |})) /\
  (forall i, TokenLibrary.lookupToken (toLowerCase s) dictionary = Some i ->
     exists st1 fs1,
       handleUserMessage dictionary st fs = (st1, fs1, None) /\
       submit env dictionary st fs = (st1, fs1) /\
       pendingAction st1 = pendingAction st /\
       pendingAction (submit env dictionary st fs).1
         = Some (RAction "ARCHIVE_CONFIRM" details) /\
       (dbInstance st = true -> writable fs = true ->
        fs1 = add_chat fs {| doc_text := None; doc_tokenIndex := Some (CNumber i);
                             doc_isTokenized := true; doc_userId := uid |} /\
        chatMessages (submit env dictionary st fs).2 =
          (chatMessages fs ++
             [ {| doc_text := None; doc_tokenIndex := Some (CNumber i);
                  doc_isTokenized := true; doc_userId := uid |} ])%list)).
Proof.
  intros Huid Hne Hpend _ _ Hs s.
  split.
  - intros Hnone.
    assert (Hh : handleUserMessage dictionary st fs =
                 (setIsBotThinking true (setError None (setCurrentMessage "" st)), fs,
                  Some (FollowupTask s))).
    { unfold handleUserMessage. fold s.
      rewrite Huid, (truthy_id_some uid Hne).
      destruct (String.eqb_spec s ""); [done|].
      rewrite Hnone. cbn [pendingAction setError setCurrentMessage]. rewrite Hpend.
      reflexivity. }
    eexists. split; [exact Hh|].
    assert (Hclear : forall st1,
      pendingAction (runTask env (FollowupTask s) st1 fs).1 = None).
    { intros st1. unfold runTask. rewrite askAgentQ_followup.
      destruct (_ || _); [|destruct (_ || _)];
        cbn [content_of]; by destruct (saveMessage _ _ _ _ _) as [[? ?] ?]. }
    split; [done|]. split; [apply Hclear|]. split.
    + unfold submit. rewrite Hh. apply Hclear.
    + intros Hdb Hw. unfold runTask. rewrite askAgentQ_followup.
      destruct (_ || _); [|destruct (_ || _)];
        cbn [content_of]; unfold saveMessage;
        cbn [dbInstance setIsBotThinking setError setCurrentMessage];
        rewrite Hdb, Hw; reflexivity.
  - intros i Hi.
    unfold submit, handleUserMessage. fold s.
    rewrite Huid, (truthy_id_some uid Hne).
    destruct (String.eqb_spec s ""); [done|].
    rewrite Hi.
    pose proof (pendingAction_saveMessage (setError None (setCurrentMessage "" st)) fs
                  (CNumber i) (Some uid) true) as Hp.
    assert (Hsave : dbInstance st = true -> writable fs = true ->
      (saveMessage (setError None (setCurrentMessage "" st)) fs
         (CNumber i) (Some uid) true).1.2 =
        add_chat fs {| doc_text := None; doc_tokenIndex := Some (CNumber i);
                       doc_isTokenized := true; doc_userId := uid |}).
    { intros Hdb Hw. unfold saveMessage.
      cbn [dbInstance setError setCurrentMessage].
      by rewrite Hdb, (truthy_id_some uid Hne), Hw. }
    destruct (saveMessage _ fs (CNumber i) (Some uid) true) as [[st1 fs1] b].
    cbn [fst snd] in *.
    exists st1, fs1. split; [done|]. split; [done|]. split; [done|].
    split; [by rewrite Hp|].
    intros Hdb Hw. rewrite (Hsave Hdb Hw). by split.
Qed.

(** The pending action is only ever the confirmation of [/archive]: the
    handler leaves it as it is, and the callback clears it or sets it to
    an answer with the action ARCHIVE_CONFIRM. *)
Lemma pendingAction_handleUserMessage (dictionary : list string) (st : State) (fs : Firestore) :
  pendingAction (handleUserMessage dictionary st fs).1.1 = pendingAction st.
Proof.
  unfold handleUserMessage.
  destruct (truthy_id (userId st)) as [uid|]; [|done].
  destruct (String.eqb (trim (currentMessage st)) ""); [done|].
  destruct (TokenLibrary.lookupToken _ dictionary) as [i|].
  - pose proof (pendingAction_saveMessage (setError None (setCurrentMessage "" st)) fs
                  (CNumber i) (Some uid) true) as Hp.
    by destruct (saveMessage _ fs (CNumber i) (Some uid) true) as [[st1 fs1] b].
  - cbn [pendingAction setError setCurrentMessage].
    destruct (awaiting_confirmation (pendingAction st)); [done|].
    pose proof (pendingAction_saveMessage (setError None (setCurrentMessage "" st)) fs
                  (CString (trim (currentMessage st))) (Some uid) false) as Hp.
    by destruct (saveMessage _ fs (CString _) (Some uid) false) as [[st1 fs1] b].
Qed.

Lemma pendingAction_runTask (env : Env) (task : Task) (st : State) (fs : Firestore) :
  pendingAction st = None \/
    (exists details, pendingAction st = Some (RAction "ARCHIVE_CONFIRM" details)) ->
  pendingAction (runTask env task st fs).1 = None \/
    (exists details,
       pendingAction (runTask env task st fs).1 = Some (RAction "ARCHIVE_CONFIRM" details)).
Proof.
  intros Hst. destruct task as [userMessage|userMessage ty msgs uid db]; unfold runTask.
  - left. destruct (askAgentQ env fs userMessage Followup [] false None) as [res fs1].
    destruct res as [c|a b|a d]; [| |destruct (String.eqb a "ARCHIVE_SAVE")];
      by destruct (saveMessage _ _ _ _ _) as [[? ?] ?].
  - destruct (askAgentQ env fs userMessage ty _ db (Some uid)) as [res fs1].
    assert (Hsave : forall c,
      pendingAction (saveMessage st fs1 c (Some botUserId) false).1.1 = None \/
      (exists details, pendingAction (saveMessage st fs1 c (Some botUserId) false).1.1
                       = Some (RAction "ARCHIVE_CONFIRM" details))).
    { intros c. by rewrite pendingAction_saveMessage. }
    destruct res as [c|a b|a d].
    + specialize (Hsave (CString c)). cbn [content_of].
      by destruct (saveMessage st fs1 (CString c) (Some botUserId) false) as [[? ?] ?].
    + destruct (String.eqb a "ARCHIVE_ACCESS"); cbn [content_of];
        [specialize (Hsave (CString "Agent Q: [Simulated] Archive retrieved!"))
        |specialize (Hsave (CObject a b))];
        by destruct (saveMessage st fs1 _ (Some botUserId) false) as [[? ?] ?].
    + destruct (String.eqb_spec a "ARCHIVE_CONFIRM") as [->|_].
      * right. exists d.
        by destruct (saveMessage st fs1 (CString d) (Some botUserId) false) as [[? ?] ?].
      * destruct (String.eqb a "ARCHIVE_SAVE"); cbn [content_of];
          [specialize (Hsave (CString "Agent Q: [Simulated] Archive saved!"))
          |specialize (Hsave (CObject a d))];
          by destruct (saveMessage st fs1 _ (Some botUserId) false) as [[? ?] ?].
Qed.

Lemma pendingAction_submit (env : Env) (dictionary : list string) (st : State) (fs : Firestore) :
  pendingAction st = None \/
    (exists details, pendingAction st = Some (RAction "ARCHIVE_CONFIRM" details)) ->
  pendingAction (submit env dictionary st fs).1 = None \/
    (exists details,
       pendingAction (submit env dictionary st fs).1 = Some (RAction "ARCHIVE_CONFIRM" details)).
Proof.
  intros Hst. unfold submit.
  pose proof (pendingAction_handleUserMessage dictionary st fs) as Hh.
  destruct (handleUserMessage dictionary st fs) as [[st1 fs1] [task|]]; cbn [fst] in *.
  - apply pendingAction_runTask. by rewrite Hh.
  - by rewrite Hh.
Qed.

Lemma pending_followup_witness :
  let st := Sample.ready "/help" (Some Sample.confirm) in
  userId st = Some "u1" /\ "u1" <> "" /\
  pendingAction st = Some Sample.confirm /\
  ascii_text (currentMessage st) = true /\
  Forall (fun p => ascii_text p = true) tokenDictionary /\
  trim (currentMessage st) <> "" /\
  TokenLibrary.lookupToken (toLowerCase (trim (currentMessage st))) tokenDictionary = None /\
  exists st1,
    handleUserMessage tokenDictionary st Sample.fs = (st1, Sample.fs, Some (FollowupTask "/help")) /\
    pendingAction (submit Sample.env tokenDictionary st Sample.fs).1 = None.
Proof.
  intros st.
  assert (H1 : userId st = Some "u1") by reflexivity.
  assert (H2 : "u1" <> "") by discriminate.
  assert (H3 : pendingAction st = Some Sample.confirm) by reflexivity.
  assert (Ha : ascii_text (currentMessage st) = true) by reflexivity.
  assert (Hd : Forall (fun p => ascii_text p = true) tokenDictionary)
    by (unfold tokenDictionary; repeat constructor).
  assert (H4 : trim (currentMessage st) <> "") by discriminate.
  assert (H5 : TokenLibrary.lookupToken (toLowerCase (trim (currentMessage st)))
                 tokenDictionary = None) by reflexivity.
  repeat (split; [assumption|]).
  destruct (proj1 (pending_followup Sample.env tokenDictionary st Sample.fs "u1" _
                     H1 H2 H3 Ha Hd H4) H5)
    as (st1 & Hh & _ & _ & Hc & _).
  exists st1. split; assumption.
Defined.

(** C1 as the specification words it, for an input that is a phrase of
    the dictionary: with the confirmation of [/archive] pending, the
    input [Yes.] is saved as token 5, no follow-up is run, and the
    confirmation stays pending. *)
Lemma pending_token_not_followup :
  let st := Sample.ready "Yes." (Some Sample.confirm) in
  exists st1 fs1,
    handleUserMessage tokenDictionary st Sample.fs = (st1, fs1, None) /\
    submit Sample.env tokenDictionary st Sample.fs = (st1, fs1) /\
    chatMessages fs1 =
      [ {| doc_text := None; doc_tokenIndex := Some (CNumber 5);
           doc_isTokenized := true; doc_userId := "u1" |} ] /\
    pendingAction st1 = Some Sample.confirm /\
    pendingAction st1 <> None.
Proof.
  eexists _, _. split; [reflexivity|]. split; [reflexivity|].
  split; [reflexivity|]. split; [reflexivity|discriminate].
Qed.

End RouterProofs.

(** ** The /remindme command *)

Section RemindmeProofs.
Import AgentQ.

Lemma app_String (c : ascii) (s t : string) : String c s ++ t = String c (s ++ t).
Proof. reflexivity. Qed.

Lemma app_empty_l (t : string) : "" ++ t = t.
Proof. reflexivity. Qed.

(** *** The matcher finds the groups of a well-formed command *)

Lemma strip_literal_ci_app (lit rest : string) :
  strip_literal_ci lit (lit ++ rest) = Some rest.
Proof.
  induction lit as [|a lit IH]; [done|].
  rewrite app_String. simpl. by rewrite Ascii.eqb_refl.
Qed.

Lemma span_digits_app (value rest : string) (c : ascii) :
  all_chars is_digit value = true -> is_digit c = false ->
  span_digits (value ++ String c rest) = (value, String c rest).
Proof.
  intros Hv Hc. induction value as [|d value IH].
  - rewrite app_empty_l. simpl. by rewrite Hc.
  - simpl in Hv. apply andb_true_iff in Hv as [Hd Hv].
    rewrite app_String. simpl. by rewrite Hd, (IH Hv).
Qed.

Lemma dot_plus_quote_closing (msg : string) :
  msg <> "" ->
  all_chars (fun c => negb (is_line_terminator c)) msg = true ->
  dot_plus_quote (msg ++ dq) = Some msg.
Proof.
  induction msg as [|c msg IH]; [done|]. intros _ Hall.
  simpl in Hall. apply andb_true_iff in Hall as [Hc Hall].
  apply negb_true_iff in Hc.
  rewrite app_String. simpl. rewrite Hc.
  destruct msg as [|c' msg'].
  - reflexivity.
  - by rewrite IH.
Qed.

(** *** A match is an occurrence of the pattern, and conversely *)

Lemma lower_char_eqb (a b : ascii) :
  Ascii.eqb (lower_char a) (lower_char b) = true <-> lower_char a = lower_char b.
Proof. apply Ascii.eqb_eq. Qed.

Lemma strip_literal_ci_sound (lit s rest : string) :
  strip_literal_ci lit s = Some rest ->
  exists kw, s = kw ++ rest /\ toLowerCase kw = toLowerCase lit.
Proof.
  revert s. induction lit as [|a lit IH]; intros s H; simpl in H.
  - injection H as ->. by exists "".
  - destruct s as [|b s]; [done|].
    destruct (Ascii.eqb (lower_char a) (lower_char b)) eqn:E; [|done].
    apply lower_char_eqb in E.
    destruct (IH _ H) as (kw & -> & Hkw).
    exists (String b kw). split; [done|]. simpl. by rewrite Hkw, E.
Qed.

Lemma strip_literal_ci_complete (lit kw rest : string) :
  toLowerCase kw = toLowerCase lit ->
  strip_literal_ci lit (kw ++ rest) = Some rest.
Proof.
  revert kw. induction lit as [|a lit IH]; intros [|b kw] H; simpl in H; try done.
  injection H as Hc Hr.
  rewrite app_String. simpl. rewrite Hc, Ascii.eqb_refl. by apply IH.
Qed.

Lemma span_digits_sound (s value rest : string) :
  span_digits s = (value, rest) ->
  s = value ++ rest /\ all_chars is_digit value = true.
Proof.
  revert value rest. induction s as [|c s IH]; intros value rest H; simpl in H.
  - by injection H as <- <-.
  - destruct (is_digit c) eqn:Hc.
    + destruct (span_digits s) as [ds r]. injection H as <- <-.
      destruct (IH ds r eq_refl) as [-> Hall]. simpl. by rewrite Hc, Hall.
    + by injection H as <- <-.
Qed.

Lemma dot_plus_quote_sound (s msg : string) :
  dot_plus_quote s = Some msg ->
  exists post, s = msg ++ dq ++ post /\ msg <> "" /\
               all_chars (fun c => negb (is_line_terminator c)) msg = true.
Proof.
  revert msg. induction s as [|c s IH]; intros msg H; simpl in H; [done|].
  destruct (is_line_terminator c) eqn:Hc; [done|].
  destruct (dot_plus_quote s) as [m|] eqn:Hm.
  - injection H as <-. destruct (IH m eq_refl) as (post & -> & _ & Hall).
    exists post. simpl. by rewrite Hc, Hall.
  - destruct s as [|q s]; [done|].
    destruct (Ascii.eqb_spec q dquote) as [->|]; [|done].
    injection H as <-. exists s. simpl. by rewrite Hc.
Qed.

Lemma dot_plus_quote_complete (msg post : string) :
  msg <> "" ->
  all_chars (fun c => negb (is_line_terminator c)) msg = true ->
  exists m, dot_plus_quote (msg ++ dq ++ post) = Some m.
Proof.
  induction msg as [|c msg IH]; [done|]. intros _ Hall.
  simpl in Hall. apply andb_true_iff in Hall as [Hc Hall].
  apply negb_true_iff in Hc.
  rewrite app_String. simpl. rewrite Hc.
  destruct (dot_plus_quote (msg ++ dq ++ post)) as [m|] eqn:Hm; [by eexists|].
  destruct msg as [|c' msg'].
  - by eexists.
  - destruct (IH ltac:(done) Hall) as (m & Hm'); congruence.
Qed.

Lemma is_unit_not_digit (c : ascii) : is_unit c = true -> is_digit c = false.
Proof. by destruct c as [[] [] [] [] [] [] [] []]. Qed.

Lemma match_here_sound (s value msg : string) (unit : ascii) :
  match_here s = Some (value, unit, msg) ->
  exists kw post,
    s = kw ++ value ++ String unit (" " ++ dq ++ msg ++ dq ++ post) /\
    toLowerCase kw = "remindme " /\
    value <> "" /\ all_chars is_digit value = true /\
    is_unit unit = true /\
    msg <> "" /\ all_chars (fun c => negb (is_line_terminator c)) msg = true.
Proof.
  unfold match_here. intros H.
  destruct (strip_literal_ci "remindme " s) as [s1|] eqn:H1; [|done].
  cbn [mbind option_bind] in H.
  destruct (strip_literal_ci_sound _ _ _ H1) as (kw & -> & Hkw).
  destruct (span_digits s1) as [ds s2] eqn:H2.
  destruct (span_digits_sound _ _ _ H2) as [-> Hds].
  destruct (String.eqb_spec ds ""); [done|].
  destruct s2 as [|u [|sp [|q s4]]]; try done.
  destruct (is_unit u) eqn:Hu; [|done].
  destruct (Ascii.eqb_spec sp " ") as [->|]; [|done].
  destruct (Ascii.eqb_spec q dquote) as [->|]; [|done].
  cbn [andb] in H.
  destruct (dot_plus_quote s4) as [m|] eqn:H4; [|done].
  cbn [mbind option_bind] in H. injection H as <- <- <-.
  destruct (dot_plus_quote_sound _ _ H4) as (post & -> & Hm & Hall).
  by exists kw, post.
Qed.

Lemma match_here_complete (kw value msg post : string) (unit : ascii) :
  toLowerCase kw = "remindme " ->
  value <> "" -> all_chars is_digit value = true ->
  is_unit unit = true ->
  msg <> "" -> all_chars (fun c => negb (is_line_terminator c)) msg = true ->
  exists m,
    match_here (kw ++ value ++ String unit (" " ++ dq ++ msg ++ dq ++ post))
      = Some (value, unit, m).
Proof.
  intros Hkw Hv Hds Hu Hm Hall. unfold match_here.
  rewrite (strip_literal_ci_complete "remindme " kw) by done.
  cbn [mbind option_bind].
  rewrite span_digits_app by auto using is_unit_not_digit.
  destruct (String.eqb_spec value ""); [done|].
  change (" " ++ dq ++ msg ++ dq ++ post)
    with (String " " (String dquote (msg ++ dq ++ post))).
  rewrite Hu. cbn [andb]. rewrite !Ascii.eqb_refl.
  destruct (dot_plus_quote_complete msg post Hm Hall) as (m & ->).
  by exists m.
Qed.

Lemma remindme_match_sound (s value msg : string) (unit : ascii) :
  remindme_match s = Some (value, unit, msg) -> remindme_occurs s.
Proof.
  induction s as [|c s IH]; intros H.
  - simpl in H. destruct (match_here "") eqn:E; [|done]. done.
  - cbn [remindme_match] in H.
    destruct (match_here (String c s)) as [[[v u] m]|] eqn:E.
    + injection H as -> -> ->.
      destruct (match_here_sound _ _ _ _ E) as (kw & post & Hs & Hrest).
      exists "", kw, value, unit, msg, post. by rewrite app_empty_l.
    + destruct (IH H) as (pre & kw & v & u & m & post & -> & Hrest).
      exists (String c pre), kw, v, u, m, post. by rewrite app_String.
Qed.

Lemma remindme_match_complete (s : string) :
  remindme_occurs s -> exists m, remindme_match s = Some m.
Proof.
  intros (pre & kw & v & u & msg & post & -> & Hkw & Hv & Hds & Hu & Hm & Hall).
  destruct (match_here_complete kw v msg post u Hkw Hv Hds Hu Hm Hall) as (m & Hhere).
  induction pre as [|c pre IH].
  - rewrite app_empty_l.
    destruct (kw ++ v ++ String u (" " ++ dq ++ msg ++ dq ++ post)) eqn:E;
      cbn [remindme_match]; rewrite Hhere; by eexists.
  - rewrite app_String. cbn [remindme_match].
    destruct (match_here (String c _)); [by eexists|]. exact IH.
Qed.

(** *** The command *)

Lemma match_here_exact (value msg : string) (unit : ascii) :
  value <> "" -> all_chars is_digit value = true ->
  is_unit unit = true ->
  msg <> "" -> all_chars (fun c => negb (is_line_terminator c)) msg = true ->
  match_here ("remindme " ++ value ++ String unit (" " ++ dq ++ msg ++ dq))
    = Some (value, unit, msg).
Proof.
  intros Hv Hds Hu Hm Hall. unfold match_here.
  rewrite strip_literal_ci_app. cbn [mbind option_bind].
  rewrite span_digits_app by auto using is_unit_not_digit.
  destruct (String.eqb_spec value ""); [done|].
  change (" " ++ dq ++ msg ++ dq) with (String " " (String dquote (msg ++ dq))).
  rewrite Hu. cbn [andb]. rewrite !Ascii.eqb_refl.
  by rewrite dot_plus_quote_closing.
Qed.

Lemma remindme_match_here (s : string) (m : string * ascii * string) :
  match_here s = Some m -> remindme_match s = Some m.
Proof. intros H. destruct s; cbn [remindme_match]; by rewrite H. Qed.

Lemma remindme_match_command (value msg : string) (unit : ascii) :
  value <> "" -> all_chars is_digit value = true ->
  is_unit unit = true ->
  msg <> "" -> all_chars (fun c => negb (is_line_terminator c)) msg = true ->
  remindme_match ("/remindme " ++ value ++ String unit (" " ++ dq ++ msg ++ dq))
    = Some (value, unit, msg).
Proof.
  intros Hv Hds Hu Hm Hall.
  change ("/remindme " ++ value ++ String unit (" " ++ dq ++ msg ++ dq))
    with (String "/" ("remindme " ++ value ++ String unit (" " ++ dq ++ msg ++ dq))).
  cbn [remindme_match].
  change (match_here (String "/" ("remindme " ++ value ++ String unit (" " ++ dq ++ msg ++ dq))))
    with (@None (string * ascii * string)).
  by apply remindme_match_here, match_here_exact.
Qed.

Lemma remindme_not_other_command (s : string) :
  startsWith s "/remindme" = true ->
  startsWith s "/weather" = false /\ startsWith s "/crypto" = false.
Proof.
  unfold startsWith. destruct s as [|c1 s]; [done|].
  cbn [String.prefix]. destruct (ascii_dec "/" c1) as [<-|]; [|done].
  destruct s as [|c2 s]; [done|].
  cbn [String.prefix]. destruct (ascii_dec "r" c2) as [<-|]; [|done].
  intros _. split; reflexivity.
Qed.

Lemma truthy_nonempty (s : string) : s <> "" -> truthy s = true.
Proof. intros H. unfold truthy. by destruct (String.eqb_spec s ""). Qed.

(** [parseInt] reads a run of digits as a decimal number. *)
Lemma parseInt_acc_app (s t : string) (acc : Z) :
  parseInt_acc acc (s ++ t) = parseInt_acc (parseInt_acc acc s) t.
Proof. revert acc. induction s as [|c s IH]; intros acc; [done|]. rewrite app_String. simpl. apply IH. Qed.

Lemma parseInt_snoc (s : string) (c : ascii) :
  parseInt (s ++ String c "") = (10 * parseInt s + digit_value c)%Z.
Proof. unfold parseInt. by rewrite parseInt_acc_app. Qed.

(** C9 (amended). For a command [/remindme <N><m|h> "<message>"] with a
    lower-case unit and a non-empty message of the ASCII range without
    line break, a database handle, a user id and a store that accepts the
    write, and with the clock and the due time among the safe integers, a
    reminder record is added with the due time [now + N * 60000] for the
    unit m and [now + N * 3600000] for the unit h and with the message.
    For an input that starts with /remindme and in which the pattern
    occurs nowhere, even up to case, no record is added and the reply is
    the usage message. *)
Theorem remindme_command (env : Env) (fs : Firestore) (history : list HistoryEntry) :
  (forall (value msg uid : string) (unit : ascii),
     value <> "" -> all_chars is_digit value = true ->
     unit = "m"%char \/ unit = "h"%char ->
     msg <> "" -> all_chars (fun c => negb (is_line_terminator c)) msg = true ->
     ascii_text msg = true ->
     (0 <= now env)%Z ->
     safe_integer (now env + parseInt value *
                     (if Ascii.eqb unit "m" then 60000 else 3600000)) ->
     uid <> "" -> writable fs = true ->
     askAgentQ env fs ("/remindme " ++ value ++ String unit (" " ++ dq ++ msg ++ dq))
               Command history true (Some uid) =
       (RText (reminder_set_reply value unit msg),
        add_reminder fs (nextDocId env)
          {| remindAt := (now env + parseInt value *
                            (if Ascii.eqb unit "m" then 60000 else 3600000))%Z;
             message := msg |})) /\
  (forall (userQuery : string) (db : bool) (uid : option string),
     startsWith (toLowerCase userQuery) "/remindme" = true ->
     ~ remindme_occurs userQuery ->
     askAgentQ env fs userQuery Command history db uid = (RText usage_reply, fs)).
Proof.
  split.
  - intros value msg uid unit Hv Hds Hu Hm Hall _ _ _ Huid Hw.
    assert (Hunit : is_unit unit = true) by (by destruct Hu as [-> | ->]).
    unfold askAgentQ.
    assert (Hstart : startsWith
              (toLowerCase ("/remindme " ++ value ++ String unit (" " ++ dq ++ msg ++ dq)))
              "/remindme" = true) by reflexivity.
    destruct (remindme_not_other_command _ Hstart) as [Hnw Hnc].
    rewrite Hnw, Hnc, Hstart. cbn [andb].
    rewrite remindme_match_command, (truthy_nonempty uid), Hw by done.
    by destruct Hu as [-> | ->].
  - intros userQuery db uid Hstart Hnone.
    unfold askAgentQ.
    destruct (remindme_not_other_command _ Hstart) as [Hnw Hnc].
    rewrite Hnw, Hnc, Hstart. cbn [andb].
    destruct (remindme_match userQuery) as [[[v u] m]|] eqn:E; [|done].
    exfalso. by eapply Hnone, remindme_match_sound.
Qed.

Lemma remindme_command_witness :
  "1" <> "" /\ all_chars is_digit "1" = true /\
  "call Sam" <> "" /\
  all_chars (fun c => negb (is_line_terminator c)) "call Sam" = true /\
  ascii_text "call Sam" = true /\
  (0 <= now Sample.env)%Z /\
  safe_integer (now Sample.env + parseInt "1" * 60000) /\
  "u1" <> "" /\ writable Sample.fs = true /\
  askAgentQ Sample.env Sample.fs ("/remindme 1m " ++ dq ++ "call Sam" ++ dq)
            Command [] true (Some "u1") =
    (RText ("Agent Q: I'll remind you in 1m: " ++ dq ++ "call Sam" ++ dq ++ "."),
     add_reminder Sample.fs "r1" {| remindAt := 1000 + 60000; message := "call Sam" |}) /\
  startsWith (toLowerCase "/remindme soon") "/remindme" = true /\
  ~ remindme_occurs "/remindme soon" /\
  askAgentQ Sample.env Sample.fs "/remindme soon" Command [] true (Some "u1") =
    (RText usage_reply, Sample.fs).
Proof.
  assert (H1 : "1" <> "") by discriminate.
  assert (H2 : all_chars is_digit "1" = true) by reflexivity.
  assert (H3 : "call Sam" <> "") by discriminate.
  assert (H4 : all_chars (fun c => negb (is_line_terminator c)) "call Sam" = true)
    by reflexivity.
  assert (Ha : ascii_text "call Sam" = true) by reflexivity.
  assert (Hn : (0 <= now Sample.env)%Z) by (cbn; lia).
  assert (Hs : safe_integer (now Sample.env + parseInt "1" * 60000))
    by (unfold safe_integer; split; reflexivity).
  assert (H5 : "u1" <> "") by discriminate.
  assert (H6 : writable Sample.fs = true) by reflexivity.
  assert (H7 : startsWith (toLowerCase "/remindme soon") "/remindme" = true)
    by reflexivity.
  assert (H8 : ~ remindme_occurs "/remindme soon").
  { intros Ho. destruct (remindme_match_complete _ Ho) as (m & Hm). discriminate Hm. }
  repeat (split; [assumption|]).
  destruct (remindme_command Sample.env Sample.fs []) as [Hthen Hb].
  split; [|split; [assumption|split; [assumption|]]].
  - exact (Hthen "1" "call Sam" "u1" "m"%char H1 H2 (or_introl eq_refl) H3 H4
             Ha Hn Hs H5 H6).
  - exact (Hb "/remindme soon" true (Some "u1") H7 H8).
Defined.

(** C9 as the specification words it.  A well-formed command in a
    session without a user id is answered with the usage message and adds
    no record: the branch is guarded by the match, the handle and the user
    id together.  And an input that starts with /remindme and is not of
    the shape, with text before and after the pattern and the word in
    upper case, adds a record: the pattern is unanchored and ignores
    case. *)
Lemma remindme_guard_and_search :
  let well_formed := "/remindme 1m " ++ dq ++ "call Sam" ++ dq in
  let loose := "/remindme please: REMINDME 2h " ++ dq ++ "tea" ++ dq ++ " thanks" in
  askAgentQ Sample.env Sample.fs well_formed Command [] true None =
    (RText usage_reply, Sample.fs) /\
  reminders (askAgentQ Sample.env Sample.fs well_formed Command [] true None).2 = [] /\
  startsWith (toLowerCase loose) "/remindme" = true /\
  askAgentQ Sample.env Sample.fs loose Command [] true (Some "u1") =
    (RText (reminder_set_reply "2" "h" "tea"),
     add_reminder Sample.fs "r1"
       {| remindAt := now Sample.env + 2 * 3600000; message := "tea" |}) /\
  (askAgentQ Sample.env Sample.fs loose Command [] true (Some "u1")).1
    <> RText usage_reply.
Proof.
  intros well_formed loose.
  split; [reflexivity|]. split; [reflexivity|]. split; [reflexivity|].
  split; [reflexivity|]. discriminate.
Qed.

(** Beside it, a slip of the same branch at the unit M: the pattern
    accepts the letter in upper case and the comparison with m does not,
    so the command is neither refused with the usage message nor taken as
    five minutes; a record due in five hours is added. *)
Lemma remindme_upper_case_unit :
  let userQuery := "/remindme 5M " ++ dq ++ "x" ++ dq in
  askAgentQ Sample.env Sample.fs userQuery Command [] true (Some "u1") =
    (RText (reminder_set_reply "5" "M" "x"),
     add_reminder Sample.fs "r1"
       {| remindAt := now Sample.env + 5 * 3600000; message := "x" |}) /\
  (askAgentQ Sample.env Sample.fs userQuery Command [] true (Some "u1")).1
    <> RText usage_reply /\
  reminders (askAgentQ Sample.env Sample.fs userQuery Command [] true (Some "u1")).2
    <> [] /\
  (now Sample.env + 5 * 3600000 <> now Sample.env + 5 * 60000)%Z.
Proof. repeat split; discriminate. Qed.

End RemindmeProofs.

(** ** The reminder poll loop *)

Section ReminderProofs.
Import Router Reminders.
Local Open Scope list_scope.

Lemma emitted_app (l k : list Effect) : emitted (l ++ k) = emitted l ++ emitted k.
Proof. apply omap_app. Qed.

(** A record that is due and not yet fired: its id joins the set, its
    utterance is emitted from the bot and its deletion follows. *)
Lemma on_doc_due (now : Z) (p : Process) (d : string * ReminderDoc) :
  (remindAt d.2 <= now)%Z -> d.1 ∉ fired p ->
  fired (on_doc now p d) = {[d.1]} ∪ fired p /\
  effects (on_doc now p d) =
    effects p ++ [Emit d.1 (CString ("⏰ Reminder: " +:+ message d.2)) botUserId; Delete d.1] /\
  (dbInstance (state p) = true -> writable (store p) = true ->
   chatMessages (store (on_doc now p d)) =
     chatMessages (store p) ++
       [ {| doc_text := Some (CString ("⏰ Reminder: " +:+ message d.2));
            doc_tokenIndex := None; doc_isTokenized := false;
            doc_userId := botUserId |} ] /\
   reminders (store (on_doc now p d)) =
     filter (fun r => r.1 <> d.1) (reminders (store p))).
Proof.
  intros Hdue Hfresh. unfold on_doc.
  destruct (Z.leb_spec (remindAt d.2) now); [|lia].
  rewrite bool_decide_eq_false_2 by done. cbn [andb negb].
  unfold saveMessage. change (truthy_id (Some botUserId)) with (Some botUserId).
  destruct (dbInstance (state p)) eqn:Hdb, (writable (store p)) eqn:Hw;
    cbn [fired effects store]; (split; [done|]); (split; [done|]); intros; try congruence.
  unfold deleteDoc. cbn [writable add_chat]. rewrite Hw. done.
Qed.

(** Any other record is left alone. *)
Lemma on_doc_skip (now : Z) (p : Process) (d : string * ReminderDoc) :
  (now < remindAt d.2)%Z \/ d.1 ∈ fired p -> on_doc now p d = p.
Proof.
  intros H. unfold on_doc. destruct H as [H|H].
  - destruct (Z.leb_spec (remindAt d.2) now); [lia|]. done.
  - rewrite bool_decide_eq_true_2 by done. by rewrite andb_false_r.
Qed.

Lemma once_on_doc (now : Z) (p : Process) (d : string * ReminderDoc) :
  once p -> once (on_doc now p d).
Proof.
  intros [Hnd Heq].
  destruct (decide ((remindAt d.2 <= now)%Z /\ d.1 ∉ fired p)) as [[Hdue Hfresh]|Hno].
  - destruct (on_doc_due now p d Hdue Hfresh) as (Hf & He & _).
    unfold once. rewrite Hf, He, emitted_app. cbn [emitted omap list_omap].
    split.
    + apply NoDup_app. split; [done|]. split; [|apply NoDup_singleton].
      intros id Hid Hin. apply list_elem_of_singleton in Hin as ->.
      by apply Hfresh, Heq.
    + intros id. rewrite elem_of_app, list_elem_of_singleton, elem_of_union, elem_of_singleton.
      rewrite Heq. tauto.
  - rewrite on_doc_skip; [done|].
    destruct (decide (d.1 ∈ fired p)); [by right|]. left.
    destruct (Z.le_gt_cases (remindAt d.2) now); [|lia]. tauto.
Qed.

Lemma once_poll (now : Z) (snap : option (list (string * ReminderDoc))) (p : Process) :
  once p -> once (poll now snap p).
Proof.
  destruct snap as [docs|]; [|done]. simpl.
  revert p. induction docs as [|d docs IH]; intros p Hp; [done|].
  simpl. by apply IH, once_on_doc.
Qed.

Lemma once_run (ticks : list (Z * option (list (string * ReminderDoc)))) (p : Process) :
  once p -> once (run ticks p).
Proof.
  unfold run. revert p. induction ticks as [|t ticks IH]; intros p Hp; [done|].
  simpl. by apply IH, once_poll.
Qed.

(** C5. In a process that starts with an empty fired set, whatever the
    clock and the snapshot of each tick, no record id has two emitted
    utterances, and the ids with an utterance are the fired ids.  Each
    callback tests the id against the set first: for a due record whose id
    is not in the set it adds the id, emits the reminder text from the bot
    user and then deletes the record; for any other record it does
    nothing. *)
Theorem reminder_delivered_once
    (ticks : list (Z * option (list (string * ReminderDoc))))
    (st : State) (fs : Firestore) :
  NoDup (emitted (effects (run ticks (start st fs)))) /\
  (forall id, id ∈ emitted (effects (run ticks (start st fs)))
              <-> id ∈ fired (run ticks (start st fs))) /\
  (forall (now : Z) (p : Process) (d : string * ReminderDoc),
     ((remindAt d.2 <= now)%Z -> d.1 ∉ fired p ->
      fired (on_doc now p d) = {[d.1]} ∪ fired p /\
      effects (on_doc now p d) =
        effects p ++ [Emit d.1 (CString ("⏰ Reminder: " +:+ message d.2)) botUserId;
                      Delete d.1] /\
      (dbInstance (state p) = true -> writable (store p) = true ->
       chatMessages (store (on_doc now p d)) =
         chatMessages (store p) ++
           [ {| doc_text := Some (CString ("⏰ Reminder: " +:+ message d.2));
                doc_tokenIndex := None; doc_isTokenized := false;
                doc_userId := botUserId |} ] /\
       reminders (store (on_doc now p d)) =
         filter (fun r => r.1 <> d.1) (reminders (store p)))) /\
     ((now < remindAt d.2)%Z \/ d.1 ∈ fired p -> on_doc now p d = p)).
Proof.
  assert (H0 : once (start st fs)).
  { split; [apply NoDup_nil_2|]. intros id. cbn. set_solver. }
  destruct (once_run ticks _ H0) as [Hnd Heq].
  split; [exact Hnd|]. split; [exact Heq|].
  intros now p d. split; [apply on_doc_due|apply on_doc_skip].
Qed.

(** The scenario of the specification: the record of
    [/remindme 1m "call Sam"], made at time 1000, is not delivered by a
    tick at 60999, is delivered and deleted by the tick at 61000, and a
    later tick emits nothing more. *)
Lemma call_sam_scenario :
  let made := submit Sample.env tokenDictionary
                (Sample.ready ("/remindme 1m " +:+ dq +:+ "call Sam" +:+ dq) None) Sample.fs in
  let p0 := start made.1 made.2 in
  reminders made.2 = [("r1", {| remindAt := 61000; message := "call Sam" |})] /\
  effects (tick 60999 p0) = [] /\
  effects (tick 61000 (tick 60999 p0)) =
    [Emit "r1" (CString "⏰ Reminder: call Sam") botUserId; Delete "r1"] /\
  reminders (store (tick 61000 (tick 60999 p0))) = [] /\
  effects (tick 73000 (tick 61000 (tick 60999 p0))) =
    [Emit "r1" (CString "⏰ Reminder: call Sam") botUserId; Delete "r1"].
Proof. vm_compute. repeat split. Qed.

End ReminderProofs.

(* ================================================================== *)
(** * Further properties of the code                                    *)
(* ================================================================== *)

(** ** The token codec beyond the round trip *)

Section CodecProperties.
Import Router Session.
Local Open Scope list_scope.


Lemma findIndex_app {A} (f : A -> bool) (l k : list A) :
  findIndex f l <> (-1)%Z -> findIndex f (l ++ k) = findIndex f l.
Proof.
  induction l as [|x l IH]; simpl; [done|].
  destruct (f x); [done|].
  destruct (Z.eqb_spec (findIndex f l) (-1)) as [E|E]; [done|].
  intros _. rewrite (IH E).
  by destruct (Z.eqb_spec (findIndex f l) (-1)).
Qed.

Lemma lookupToken_range (dictionary : list string) (s : string) (i : Z) :
  TokenLibrary.lookupToken s dictionary = Some i ->
  (0 <= i < Z.of_nat (length dictionary))%Z.
Proof.
  unfold TokenLibrary.lookupToken.
  set (f := fun p => String.eqb (toLowerCase p) (toLowerCase s)).
  pose proof (findIndex_range f dictionary) as Hr.
  destruct (Z.eqb_spec (findIndex f dictionary) (-1)); simpl; [done|].
  intros [= <-]. lia.
Qed.



(** X2. Entries added at the end of the dictionary leave every index that was
    found before, and what it decodes to, as they were. *)
Theorem lookupToken_app (dictionary more : list string) (s : string) (i : Z) :
  TokenLibrary.lookupToken s dictionary = Some i ->
  TokenLibrary.lookupToken s (dictionary ++ more) = Some i /\
  TokenLibrary.lookupPhrase i (dictionary ++ more) = TokenLibrary.lookupPhrase i dictionary /\
  decodeToken i (dictionary ++ more) = decodeToken i dictionary.
Proof.
  intros Hi. pose proof (lookupToken_range _ _ _ Hi) as Hr.
  assert (Hp : TokenLibrary.lookupPhrase i (dictionary ++ more)
               = TokenLibrary.lookupPhrase i dictionary).
  { unfold TokenLibrary.lookupPhrase, JsString.index.
    destruct (Z.ltb_spec i 0); [done|].
    by rewrite lookup_app_l by lia. }
  split; [|split; [done|]].
  - revert Hi. unfold TokenLibrary.lookupToken.
    set (f := fun p => String.eqb (toLowerCase p) (toLowerCase s)).
    destruct (Z.eqb_spec (findIndex f dictionary) (-1)) as [E|E]; simpl; [done|].
    intros [= <-]. rewrite (findIndex_app f dictionary more E).
    by destruct (Z.eqb_spec (findIndex f dictionary) (-1)).
  - unfold decodeToken. by rewrite Hp.
Qed.

Lemma lookupToken_app_witness :
  TokenLibrary.lookupToken "yes." tokenDictionary = Some 5%Z /\
  TokenLibrary.lookupToken "yes." (tokenDictionary ++ ["Maybe."; "yes."]) = Some 5%Z.
Proof.
  assert (H : TokenLibrary.lookupToken "yes." tokenDictionary = Some 5%Z) by reflexivity.
  split; [exact H|].
  exact (proj1 (lookupToken_app tokenDictionary ["Maybe."; "yes."] "yes." 5 H)).
Defined.

End CodecProperties.

(** ** askAgentQ: what it answers and what it writes *)

Section AgentQProperties.
Import AgentQ.
Local Open Scope list_scope.

(** Splits the goal along the tests of [askAgentQ], outermost first. *)
Ltac agent_cases :=
  repeat match goal with
         | |- context [if ?b then _ else _] =>
             lazymatch b with
             | context [if _ then _ else _] => fail
             | _ => let E := fresh "E" in destruct b eqn:E
             end
         | |- context [match ?x with _ => _ end] =>
             lazymatch x with
             | context [if _ then _ else _] => fail
             | context [match _ with _ => _ end] => fail
             | _ => let E := fresh "E" in destruct x eqn:E
             end
         end.

(** X3. Agent Q writes to the store in one case only: a /remindme command
    adds one reminder.  It never touches the chat messages, never removes
    a reminder and never adds one for another request. *)
Theorem askAgentQ_store (env : Env) (fs : Firestore) (userQuery : string)
    (requestType : RequestType) (history : list HistoryEntry)
    (db : bool) (uid : option string) :
  let fs' := (askAgentQ env fs userQuery requestType history db uid).2 in
  chatMessages fs' = chatMessages fs /\
  writable fs' = writable fs /\
  (reminders fs' = reminders fs \/
   exists d, reminders fs' = reminders fs ++ [(nextDocId env, d)] /\
             requestType = Command /\
             startsWith (toLowerCase userQuery) "/remindme" = true /\
             db = true /\ writable fs = true).
Proof.
  unfold askAgentQ. cbv zeta.
  destruct requestType; cbn [andb].
  all: agent_cases; cbn [snd chatMessages writable reminders add_reminder].
  all: split; [done|]; split; [done|];
    first [by left | right; eexists; by repeat split].
Qed.

Lemma archive_not_other_command (s : string) :
  startsWith s "/archive" = true ->
  startsWith s "/weather" = false /\ startsWith s "/crypto" = false /\
  startsWith s "/remindme" = false.
Proof.
  unfold startsWith. destruct s as [|c1 s]; [done|].
  cbn [String.prefix]. destruct (ascii_dec "/" c1) as [<-|]; [|done].
  destruct s as [|c2 s]; [done|].
  cbn [String.prefix]. destruct (ascii_dec "a" c2) as [<-|]; [|done].
  intros _. repeat split; reflexivity.
Qed.

Lemma askAgentQ_chat (env : Env) (fs : Firestore) (userQuery : string)
    (requestType : RequestType) (history : list HistoryEntry)
    (db : bool) (uid : option string) :
  chatMessages (askAgentQ env fs userQuery requestType history db uid).2 = chatMessages fs /\
  writable (askAgentQ env fs userQuery requestType history db uid).2 = writable fs /\
  exists more, reminders (askAgentQ env fs userQuery requestType history db uid).2
               = reminders fs ++ more.
Proof.
  unfold askAgentQ. cbv zeta.
  destruct requestType; cbn [andb].
  all: agent_cases; cbn [snd chatMessages writable reminders add_reminder].
  all: split; [done|]; split; [done|];
    first [by exists []; rewrite app_nil_r | by eexists].
Qed.

Lemma askAgentQ_confirm (env : Env) (fs : Firestore) (userQuery : string)
    (requestType : RequestType) (history : list HistoryEntry)
    (db : bool) (uid : option string) :
  (exists d, (askAgentQ env fs userQuery requestType history db uid).1
             = RAction "ARCHIVE_CONFIRM" d) <->
  requestType = Command /\ startsWith (toLowerCase userQuery) "/archive" = true.
Proof.
  split.
  - intros (d & H). revert H. unfold askAgentQ. cbv zeta.
    destruct requestType; cbn [andb]; agent_cases; cbn [fst]; try discriminate.
    by intros _.
  - intros [-> Hstart].
    pose proof (archive_not_other_command _ Hstart) as Hw.
    destruct Hw as (Hw & Hc & Hr).
    unfold askAgentQ. cbv zeta. cbn [andb]. rewrite Hw, Hc, Hr, Hstart.
    by eexists.
Qed.

(** X4. The answers that are not plain text: the confirmation request comes
    exactly from the commands that start with /archive, the save action
    only from a follow-up that is yes or y, and the intent object only
    from an intent request that includes archive. *)
Theorem askAgentQ_shape (env : Env) (fs : Firestore) (userQuery : string)
    (requestType : RequestType) (history : list HistoryEntry)
    (db : bool) (uid : option string) :
  let res := (askAgentQ env fs userQuery requestType history db uid).1 in
  let lowerQuery := toLowerCase userQuery in
  (forall a d, res = RAction a d ->
     (a = "ARCHIVE_CONFIRM" /\ requestType = Command /\
      startsWith lowerQuery "/archive" = true) \/
     (a = "ARCHIVE_SAVE" /\ requestType = Followup /\
      (lowerQuery = "yes" \/ lowerQuery = "y"))) /\
  (forall a b, res = RIntent a b ->
     a = "ARCHIVE_ACCESS" /\ b = "" /\ requestType = Intent /\
     includes lowerQuery "archive" = true) /\
  (requestType = Command -> startsWith lowerQuery "/archive" = true ->
   exists d, res = RAction "ARCHIVE_CONFIRM" d).
Proof.
  cbv zeta. split; [|split].
  - intros a d. unfold askAgentQ. cbv zeta.
    destruct requestType; cbn [andb]; agent_cases; cbn [fst]; try discriminate.
    + intros [= <- <-]. left. by repeat split.
    + intros [= <- <-]. right. repeat split.
      apply orb_true_iff in E as [E|E]; apply String.eqb_eq in E; auto.
  - intros a b. unfold askAgentQ. cbv zeta.
    destruct requestType; cbn [andb]; agent_cases; cbn [fst]; try discriminate.
    intros [= <- <-]. by repeat split.
  - intros -> Hstart.
    destruct (archive_not_other_command _ Hstart) as (Hw & Hc & Hr).
    unfold askAgentQ. cbv zeta. cbn [andb]. rewrite Hw, Hc, Hr, Hstart.
    by eexists.
Qed.

End AgentQProperties.

(** ** The router over whole sessions *)

Section SessionProperties.
Import AgentQ Router Session.
Local Open Scope list_scope.

Lemma grows_refl (fs : Firestore) : grows fs fs.
Proof.
  split; [done|]. split; [exists []|exists []]; by rewrite app_nil_r.
Qed.

Lemma grows_trans (a b c : Firestore) : grows a b -> grows b c -> grows a c.
Proof.
  intros (Hw1 & (n1 & Hc1 & Hf1) & (m1 & Hr1)) (Hw2 & (n2 & Hc2 & Hf2) & (m2 & Hr2)).
  split; [congruence|]. split.
  - exists (n1 ++ n2). rewrite Hc2, Hc1, app_assoc. split; [done|]. by apply Forall_app.
  - exists (m1 ++ m2). by rewrite Hr2, Hr1, app_assoc.
Qed.

Lemma saveMessage_grows (st : State) (fs : Firestore) (c : Content)
    (sender : option string) (tok : bool) :
  (tok = true -> exists i, c = CNumber i) ->
  grows fs (saveMessage st fs c sender tok).1.2.
Proof.
  intros Htok. unfold saveMessage.
  destruct (dbInstance st); [|apply grows_refl].
  destruct (truthy_id sender) as [s|]; [|apply grows_refl].
  destruct (writable fs) eqn:Hw; [|apply grows_refl].
  cbn [fst snd]. split; [done|]. split; [|exists []; by rewrite app_nil_r].
  eexists. split; [reflexivity|]. apply Forall_singleton.
  destruct tok.
  - left. destruct (Htok eq_refl) as (i & ->). repeat split. by exists i.
  - right. repeat split. by eexists.
Qed.

Lemma askAgentQ_grows (env : Env) (fs : Firestore) (userQuery : string)
    (requestType : RequestType) (history : list HistoryEntry)
    (db : bool) (uid : option string) :
  grows fs (askAgentQ env fs userQuery requestType history db uid).2.
Proof.
  destruct (askAgentQ_chat env fs userQuery requestType history db uid) as (Hc & Hw & Hr).
  split; [done|]. split; [|done]. exists []. by rewrite app_nil_r.
Qed.

Lemma handleUserMessage_grows (dictionary : list string) (st : State) (fs : Firestore) :
  grows fs (handleUserMessage dictionary st fs).1.2.
Proof.
  unfold handleUserMessage.
  destruct (truthy_id (userId st)) as [uid|]; [|apply grows_refl].
  destruct (String.eqb (trim (currentMessage st)) ""); [apply grows_refl|].
  destruct (TokenLibrary.lookupToken _ dictionary) as [i|].
  - pose proof (saveMessage_grows (setError None (setCurrentMessage "" st)) fs
                  (CNumber i) (Some uid) true ltac:(by eexists)) as H.
    by destruct (saveMessage _ fs (CNumber i) (Some uid) true) as [[st1 fs1] b].
  - destruct (awaiting_confirmation _); [apply grows_refl|].
    pose proof (saveMessage_grows (setError None (setCurrentMessage "" st)) fs
                  (CString (trim (currentMessage st))) (Some uid) false ltac:(done)) as H.
    by destruct (saveMessage _ fs (CString _) (Some uid) false) as [[st1 fs1] b].
Qed.

Lemma runTask_grows (env : Env) (task : Task) (st : State) (fs : Firestore) :
  grows fs (runTask env task st fs).2.
Proof.
  assert (Hsave : forall st fs1 c,
    grows fs fs1 -> grows fs (saveMessage st fs1 c (Some botUserId) false).1.2).
  { intros st' fs1 c H. eapply grows_trans; [exact H|]. by apply saveMessage_grows. }
  destruct task as [userMessage|userMessage ty msgs uid db]; unfold runTask.
  - pose proof (askAgentQ_grows env fs userMessage Followup [] false None) as Hq.
    destruct (askAgentQ env fs userMessage Followup [] false None) as [res fs1].
    cbn [snd] in Hq.
    destruct res as [c|a b|a d]; [| |destruct (String.eqb a "ARCHIVE_SAVE")];
      match goal with |- context [saveMessage ?s ?f ?c ?i ?t] =>
        pose proof (Hsave s f c Hq) as H; destruct (saveMessage s f c i t) as [[? ?] ?] end;
      exact H.
  - pose proof (askAgentQ_grows env fs userMessage ty (getFormattedHistory msgs uid 10)
                  db (Some uid)) as Hq.
    destruct (askAgentQ env fs userMessage ty _ db (Some uid)) as [res fs1].
    cbn [snd] in Hq.
    destruct res as [c|a b|a d];
      [|destruct (String.eqb a "ARCHIVE_ACCESS")
       |destruct (String.eqb a "ARCHIVE_CONFIRM"); [|destruct (String.eqb a "ARCHIVE_SAVE")]];
      match goal with |- context [saveMessage ?s ?f ?c ?i ?t] =>
        pose proof (Hsave s f c Hq) as H; destruct (saveMessage s f c i t) as [[? ?] ?] end;
      exact H.
Qed.

Lemma submit_grows (env : Env) (dictionary : list string) (st : State) (fs : Firestore) :
  grows fs (submit env dictionary st fs).2.
Proof.
  unfold submit.
  pose proof (handleUserMessage_grows dictionary st fs) as Hh.
  destruct (handleUserMessage dictionary st fs) as [[st1 fs1] [task|]]; cbn [fst snd] in *.
  - eapply grows_trans; [exact Hh|apply runTask_grows].
  - exact Hh.
Qed.

(** X5. Whatever is typed in a session, the handlers only append: the store
    keeps its write flag, the chat collection keeps its documents and gets
    new ones at the end, each with a text or with a token index and the
    flag that tells which, and no reminder is removed. *)
Theorem session_appends (dictionary : list string) (steps : list (Env * string))
    (w : State * Firestore) :
  writable (session dictionary steps w).2 = writable w.2 /\
  (exists new,
     chatMessages (session dictionary steps w).2 = chatMessages w.2 ++ new /\
     Forall well_formed_doc new) /\
  (exists more, reminders (session dictionary steps w).2 = reminders w.2 ++ more).
Proof.
  change (grows w.2 (session dictionary steps w).2).
  unfold session. revert w. induction steps as [|step steps IH]; intros w.
  - apply grows_refl.
  - cbn [foldl]. eapply grows_trans; [|apply IH].
    unfold enter. apply submit_grows.
Qed.

(** X6. In a session the pending action is never anything but unset or the
    confirmation request of /archive. *)
Theorem session_pending (dictionary : list string) (steps : list (Env * string))
    (w : State * Firestore) :
  pending_is_confirm w.1 ->
  pending_is_confirm (session dictionary steps w).1.
Proof.
  unfold session. revert w. induction steps as [|step steps IH]; intros w Hw; [done|].
  cbn [foldl]. apply IH. unfold enter.
  apply pendingAction_submit. exact Hw.
Qed.

Lemma session_pending_witness :
  let w := (Sample.ready "" None, Sample.fs) in
  pending_is_confirm w.1 /\
  pending_is_confirm
    (session tokenDictionary
       [(Sample.env, "/archive now"); (Sample.env, "Hello."); (Sample.env, "maybe")] w).1.
Proof.
  intros w.
  assert (H : pending_is_confirm w.1) by (by left).
  split; [exact H|]. by apply session_pending.
Defined.

Lemma trimStart_spaces (s : string) : all_chars is_space s = true -> trimStart s = "".
Proof.
  induction s as [|c s IH]; [done|]. simpl. intros H.
  apply andb_true_iff in H as [Hc Hs]. rewrite Hc. by apply IH.
Qed.

(** X7. A submission is ignored altogether when the input holds white space
    only or when no user id is set: the state, the input box included,
    and the store stay as they are and no callback is set. *)
Theorem blank_input_ignored (env : Env) (dictionary : list string)
    (st : State) (fs : Firestore) :
  all_chars is_space (currentMessage st) = true \/ userId st = None \/ userId st = Some "" ->
  handleUserMessage dictionary st fs = (st, fs, None) /\
  submit env dictionary st fs = (st, fs).
Proof.
  intros H.
  assert (Hh : handleUserMessage dictionary st fs = (st, fs, None)).
  { unfold handleUserMessage. destruct H as [H|[H|H]].
    - unfold trim. rewrite (trimStart_spaces _ H). cbn.
      by destruct (truthy_id (userId st)).
    - by rewrite H.
    - by rewrite H. }
  split; [done|]. unfold submit. by rewrite Hh.
Qed.

Lemma blank_input_ignored_witness :
  let st := Sample.ready "   " (Some Sample.confirm) in
  (all_chars is_space (currentMessage st) = true \/ userId st = None \/ userId st = Some "") /\
  submit Sample.env tokenDictionary st Sample.fs = (st, Sample.fs).
Proof.
  intros st.
  assert (H : all_chars is_space (currentMessage st) = true \/ userId st = None
              \/ userId st = Some "") by (by left).
  split; [exact H|].
  exact (proj2 (blank_input_ignored Sample.env tokenDictionary st Sample.fs H)).
Defined.

Lemma saveMessage_ok (st : State) (fs : Firestore) (c : Content) (sender : string) (tok : bool) :
  dbInstance st = true -> writable fs = true -> sender <> "" ->
  saveMessage st fs c (Some sender) tok =
    (st,
     add_chat fs (if tok
                  then {| doc_text := None; doc_tokenIndex := Some c;
                          doc_isTokenized := true; doc_userId := sender |}
                  else {| doc_text := Some c; doc_tokenIndex := None;
                          doc_isTokenized := false; doc_userId := sender |}),
     true).
Proof.
  intros Hdb Hw Hs. unfold saveMessage.
  rewrite Hdb, (truthy_id_some sender Hs), Hw. by destruct tok.
Qed.



Lemma botUserId_nonempty : botUserId <> "".
Proof. discriminate. Qed.

(** The timer callback saves one message, from the bot, whatever Agent Q
    answers. *)
Lemma runTask_one_reply (env : Env) (task : Task) (st : State) (fs : Firestore) :
  dbInstance st = true -> writable fs = true ->
  exists c,
    chatMessages (runTask env task st fs).2 =
      chatMessages fs ++ [ {| doc_text := Some c; doc_tokenIndex := None;
                              doc_isTokenized := false; doc_userId := botUserId |} ] /\
    isBotThinking (runTask env task st fs).1 = false /\
    currentMessage (runTask env task st fs).1 = currentMessage st.
Proof.
  intros Hdb Hw.
  destruct task as [userMessage|userMessage ty msgs uid db]; unfold runTask.
  - destruct (askAgentQ_chat env fs userMessage Followup [] false None) as (Hc & Hw' & _).
    destruct (askAgentQ env fs userMessage Followup [] false None) as [res fs1].
    cbn [snd] in Hc, Hw'. rewrite Hw in Hw'.
    destruct res as [c|a b|a d]; [| |destruct (String.eqb a "ARCHIVE_SAVE")];
      rewrite saveMessage_ok by auto using botUserId_nonempty;
      cbn [fst snd add_chat chatMessages]; rewrite Hc; by eexists.
  - destruct (askAgentQ_chat env fs userMessage ty (getFormattedHistory msgs uid 10)
                db (Some uid)) as (Hc & Hw' & _).
    destruct (askAgentQ env fs userMessage ty _ db (Some uid)) as [res fs1].
    cbn [snd] in Hc, Hw'. rewrite Hw in Hw'.
    destruct res as [c|a b|a d];
      [|destruct (String.eqb a "ARCHIVE_ACCESS")
       |destruct (String.eqb a "ARCHIVE_CONFIRM"); [|destruct (String.eqb a "ARCHIVE_SAVE")]];
      rewrite saveMessage_ok by auto using botUserId_nonempty;
      cbn [fst snd add_chat chatMessages]; rewrite Hc; by eexists.
Qed.

(** X9. With the store at hand, an input of the ASCII range that is no
    phrase of the (ASCII) dictionary
    gets one reply from the bot, no more and no less.  Without a pending
    confirmation the input itself is saved before the reply; an answer to
    a pending confirmation is not saved, only the reply to it.  The input
    box is left empty and the thinking flag off. *)
Theorem one_reply_per_input (env : Env) (dictionary : list string)
    (st : State) (fs : Firestore) (uid : string) :
  userId st = Some uid -> uid <> "" ->
  dbInstance st = true -> writable fs = true ->
  ascii_text (currentMessage st) = true ->
  Forall (fun p => ascii_text p = true) dictionary ->
  trim (currentMessage st) <> "" ->
  TokenLibrary.lookupToken (toLowerCase (trim (currentMessage st))) dictionary = None ->
  exists c,
    chatMessages (submit env dictionary st fs).2 =
      chatMessages fs ++
      (if awaiting_confirmation (pendingAction st) then []
       else [ {| doc_text := Some (CString (trim (currentMessage st)));
                 doc_tokenIndex := None; doc_isTokenized := false; doc_userId := uid |} ]) ++
      [ {| doc_text := Some c; doc_tokenIndex := None;
           doc_isTokenized := false; doc_userId := botUserId |} ] /\
    isBotThinking (submit env dictionary st fs).1 = false /\
    currentMessage (submit env dictionary st fs).1 = "".
Proof.
  intros Huid Hne Hdb Hw _ _ Hs Hnone.
  unfold submit, handleUserMessage.
  rewrite Huid, (truthy_id_some uid Hne).
  destruct (String.eqb_spec (trim (currentMessage st)) ""); [done|].
  rewrite Hnone. cbn [pendingAction setError setCurrentMessage].
  destruct (awaiting_confirmation (pendingAction st)).
  - match goal with |- context [runTask env ?t ?s fs] =>
      destruct (runTask_one_reply env t s fs Hdb Hw) as (c & Hc & Hb & Hm) end.
    exists c. by rewrite Hc, Hb, Hm.
  - rewrite saveMessage_ok by done.
    match goal with |- context [runTask env ?t ?s ?f] =>
      destruct (runTask_one_reply env t s f Hdb Hw) as (c & Hc & Hb & Hm) end.
    exists c. rewrite Hc, Hb, Hm. cbn [add_chat chatMessages].
    by rewrite <- app_assoc.
Qed.

Lemma one_reply_per_input_witness :
  let st := Sample.ready "what is the weather?" None in
  userId st = Some "u1" /\ "u1" <> "" /\
  dbInstance st = true /\ writable Sample.fs = true /\
  ascii_text (currentMessage st) = true /\
  Forall (fun p => ascii_text p = true) tokenDictionary /\
  trim (currentMessage st) <> "" /\
  TokenLibrary.lookupToken (toLowerCase (trim (currentMessage st))) tokenDictionary = None /\
  exists c,
    chatMessages (submit Sample.env tokenDictionary st Sample.fs).2 =
      [ {| doc_text := Some (CString "what is the weather?");
           doc_tokenIndex := None; doc_isTokenized := false; doc_userId := "u1" |};
        {| doc_text := Some c; doc_tokenIndex := None;
           doc_isTokenized := false; doc_userId := botUserId |} ].
Proof.
  intros st.
  assert (H1 : userId st = Some "u1") by reflexivity.
  assert (H2 : "u1" <> "") by discriminate.
  assert (H3 : dbInstance st = true) by reflexivity.
  assert (H4 : writable Sample.fs = true) by reflexivity.
  assert (Ha : ascii_text (currentMessage st) = true) by reflexivity.
  assert (Hd : Forall (fun p => ascii_text p = true) tokenDictionary)
    by (unfold tokenDictionary; repeat constructor).
  assert (H5 : trim (currentMessage st) <> "") by discriminate.
  assert (H6 : TokenLibrary.lookupToken (toLowerCase (trim (currentMessage st)))
                 tokenDictionary = None) by reflexivity.
  repeat (split; [assumption|]).
  destruct (one_reply_per_input Sample.env tokenDictionary st Sample.fs "u1"
              H1 H2 H3 H4 Ha Hd H5 H6) as (c & Hc & _).
  exists c. exact Hc.
Defined.

Lemma lower_char_slash (c : ascii) : lower_char c = "/"%char -> c = "/"%char.
Proof. destruct c as [[] [] [] [] [] [] [] []]; (done || discriminate). Qed.

Lemma lower_starts_with_slash (s : string) :
  startsWith (toLowerCase s) "/archive" = true -> startsWith s "/" = true.
Proof.
  unfold startsWith. destruct s as [|c s]; [done|].
  cbn [toLowerCase String.prefix].
  destruct (ascii_dec "/" (lower_char c)) as [E|]; [|done].
  symmetry in E. apply lower_char_slash in E as ->. intros _.
  destruct (ascii_dec "/" "/"); [by destruct s|done].
Qed.

(** X10. With a user id and no pending confirmation, the input and the
    dictionary in the ASCII range, one submission sets a pending
    confirmation exactly when the input is no phrase of the dictionary
    and starts, up to case, with /archive; what it sets is the
    confirmation request. *)
Theorem pending_set_by_archive (env : Env) (dictionary : list string)
    (st : State) (fs : Firestore) (uid : string) :
  userId st = Some uid -> uid <> "" ->
  pendingAction st = None ->
  ascii_text (currentMessage st) = true ->
  Forall (fun p => ascii_text p = true) dictionary ->
  trim (currentMessage st) <> "" ->
  TokenLibrary.lookupToken (toLowerCase (trim (currentMessage st))) dictionary = None ->
  (pendingAction (submit env dictionary st fs).1 <> None <->
   startsWith (toLowerCase (trim (currentMessage st))) "/archive" = true) /\
  pending_is_confirm (submit env dictionary st fs).1.
Proof.
  intros Huid Hne Hpend _ _ Hs Hnone.
  split; [|apply pendingAction_submit; by left].
  unfold submit, handleUserMessage.
  rewrite Huid, (truthy_id_some uid Hne).
  destruct (String.eqb_spec (trim (currentMessage st)) ""); [done|].
  rewrite Hnone. cbn [pendingAction setError setCurrentMessage].
  rewrite Hpend. cbn [awaiting_confirmation].
  set (s := trim (currentMessage st)).
  pose proof (pendingAction_saveMessage (setError None (setCurrentMessage "" st)) fs
                (CString s) (Some uid) false) as Hp0.
  destruct (saveMessage _ fs (CString s) (Some uid) false) as [[st1 fs1] b].
  cbn [fst pendingAction setError setCurrentMessage] in Hp0. rewrite Hpend in Hp0.
  unfold runTask. cbn [messages dbInstance setError setCurrentMessage].
  pose proof (askAgentQ_confirm env fs1 s (detect s)
                (getFormattedHistory (messages st) uid 10) (dbInstance st) (Some uid)) as Hq.
  destruct (askAgentQ env fs1 s (detect s) _ (dbInstance st) (Some uid)) as [res fs2].
  cbn [fst] in Hq.
  assert (Hkeep : forall c,
    pendingAction (saveMessage (setIsBotThinking true st1) fs2 c (Some botUserId) false).1.1
    = None).
  { intros c. by rewrite pendingAction_saveMessage. }
  assert (Hno : ~ (exists d, res = RAction "ARCHIVE_CONFIRM" d) ->
                startsWith (toLowerCase s) "/archive" = true -> False).
  { intros Hres Hstart. apply Hres, Hq. split; [|done].
    unfold detect. by rewrite (lower_starts_with_slash s Hstart). }
  destruct res as [c|a b0|a d].
  - cbn [content_of]. specialize (Hkeep (CString c)).
    destruct (saveMessage _ fs2 (CString c) _ _) as [[st2 fs3] b2]. cbn [fst] in *.
    split; [done|]. intros Hstart. exfalso. apply Hno; [|done]. by intros (d & ?).
  - assert (Hk : forall c',
        pendingAction (setIsBotThinking false
          (saveMessage (setIsBotThinking true st1) fs2 c' (Some botUserId) false).1.1) = None)
      by (intros c'; apply Hkeep).
    split.
    + intros Hset. exfalso. apply Hset.
      destruct (String.eqb a "ARCHIVE_ACCESS"); cbn [content_of];
        match goal with |- context [saveMessage ?x ?f ?c' ?i ?t] =>
          specialize (Hk c'); destruct (saveMessage x f c' i t) as [[? ?] ?] end; exact Hk.
    + intros Hstart. exfalso. apply Hno; [|done]. by intros (d & ?).
  - destruct (String.eqb_spec a "ARCHIVE_CONFIRM") as [->|Hna].
    + destruct (saveMessage _ fs2 (CString d) _ _) as [[st2 fs3] b2]. cbn [fst pendingAction setPendingAction setIsBotThinking].
      split; [intros _|done].
      apply Hq. by exists d.
    + assert (Hk : forall c',
          pendingAction (setIsBotThinking false
            (saveMessage (setIsBotThinking true st1) fs2 c' (Some botUserId) false).1.1) = None)
        by (intros c'; apply Hkeep).
      split.
      * intros Hset. exfalso. apply Hset.
        destruct (String.eqb a "ARCHIVE_SAVE"); cbn [content_of];
          match goal with |- context [saveMessage ?x ?f ?c' ?i ?t] =>
            specialize (Hk c'); destruct (saveMessage x f c' i t) as [[? ?] ?] end; exact Hk.
      * intros Hstart. exfalso. apply Hno; [|done]. intros (d' & [= -> _]). done.
Qed.

Lemma pending_set_by_archive_witness :
  let st := Sample.ready "/ARCHIVE it" None in
  userId st = Some "u1" /\ "u1" <> "" /\ pendingAction st = None /\
  ascii_text (currentMessage st) = true /\
  Forall (fun p => ascii_text p = true) tokenDictionary /\
  trim (currentMessage st) <> "" /\
  TokenLibrary.lookupToken (toLowerCase (trim (currentMessage st))) tokenDictionary = None /\
  startsWith (toLowerCase (trim (currentMessage st))) "/archive" = true /\
  pendingAction (submit Sample.env tokenDictionary st Sample.fs).1 <> None.
Proof.
  intros st.
  assert (H1 : userId st = Some "u1") by reflexivity.
  assert (H2 : "u1" <> "") by discriminate.
  assert (H3 : pendingAction st = None) by reflexivity.
  assert (Ha : ascii_text (currentMessage st) = true) by reflexivity.
  assert (Hd : Forall (fun p => ascii_text p = true) tokenDictionary)
    by (unfold tokenDictionary; repeat constructor).
  assert (H4 : trim (currentMessage st) <> "") by discriminate.
  assert (H5 : TokenLibrary.lookupToken (toLowerCase (trim (currentMessage st)))
                 tokenDictionary = None) by reflexivity.
  assert (H6 : startsWith (toLowerCase (trim (currentMessage st))) "/archive" = true)
    by reflexivity.
  repeat (split; [assumption|]).
  exact (proj2 (proj1 (pending_set_by_archive Sample.env tokenDictionary st Sample.fs "u1"
                         H1 H2 H3 Ha Hd H4 H5)) H6).
Defined.

End SessionProperties.

(** ** callGeminiApi under any answers of the service *)

Section GatewayProperties.
Import Gateway.
Local Open Scope list_scope.

Context {Json : Type}.
Variable jsonTextOf : Json -> option string.
Variable JSON_parse : string -> option Json.
Variable fetch : Z -> FetchOutcome Json.
Variable random : Z -> Q.
Variable responseSchema : bool.
Variable maxRetries : Z.

Abbreviation try_block' := (try_block Json jsonTextOf JSON_parse fetch random responseSchema maxRetries).
Abbreviation attempts' := (attempts Json jsonTextOf JSON_parse fetch random responseSchema maxRetries).
Abbreviation callGeminiApi' := (callGeminiApi Json jsonTextOf JSON_parse fetch random responseSchema maxRetries).

Lemma attempts_unfold (fuel : nat) (attempt : Z) :
  attempts' (S fuel) attempt =
    if (attempt <? maxRetries)%Z then
      match try_block' attempt with
      | Continue delay =>
          (Fetch attempt :: Sleep delay :: (attempts' fuel (attempt + 1)%Z).1,
           (attempts' fuel (attempt + 1)%Z).2)
      | Return result => ([Fetch attempt], inr result)
      | Throw _ =>
          if (attempt =? maxRetries - 1)%Z
          then ([Fetch attempt], inl FailedToConnect)
          else (Fetch attempt :: (attempts' fuel (attempt + 1)%Z).1,
                (attempts' fuel (attempt + 1)%Z).2)
      end
    else ([], inl MaxRetriesReached).
Proof.
  cbn [Gateway.attempts].
  destruct (attempt <? maxRetries)%Z; [|done].
  destruct (try_block' attempt); [|done|];
    [|destruct (attempt =? maxRetries - 1)%Z; [done|]];
    by destruct (attempts' fuel (attempt + 1)%Z).
Qed.

(** A retry with a sleep is never the last attempt. *)
Lemma try_block_continue (attempt : Z) (delay : Q) :
  try_block' attempt = Continue delay ->
  (attempt < maxRetries - 1)%Z /\ delay = backoff random attempt.
Proof.
  unfold Gateway.try_block.
  destruct (fetch attempt) as [|r]; [done|].
  destruct (negb (ok r)).
  - destruct (Z.eqb_spec (status r) 429); cbn [andb]; [|done].
    destruct (Z.ltb_spec attempt (maxRetries - 1)); [|done].
    by intros [= <-].
  - destruct (body r) as [j|]; [|done].
    destruct responseSchema; [|done].
    destruct (jsonTextOf j) as [t|]; [|done]. by destruct (JSON_parse t).
Qed.

(** Inside the loop the failure is the failed connection. *)
Lemma attempts_failure (fuel : nat) (attempt : Z) (e : ApiError) :
  (attempt < maxRetries)%Z ->
  fuel = Z.to_nat (maxRetries - attempt) ->
  (attempts' fuel attempt).2 = inl e -> e = FailedToConnect.
Proof.
  revert attempt. induction fuel as [|fuel IH]; intros attempt Hlt Hfuel; [lia|].
  rewrite attempts_unfold.
  destruct (Z.ltb_spec attempt maxRetries); [|lia].
  destruct (try_block' attempt) as [d|r|err] eqn:Ht.
  - apply try_block_continue in Ht as [Hlast _]. cbn [snd]. apply IH; lia.
  - done.
  - destruct (Z.eqb_spec attempt (maxRetries - 1)); cbn [snd]; [by intros [= <-]|].
    apply IH; lia.
Qed.

(** X11. The caller sees two failures only.  With at least one attempt every
    failure, an error status included, is the message of a failed
    connection; with none the call asks nothing and reports that the
    attempts are used up. *)
Theorem callGeminiApi_failures (e : ApiError) :
  callGeminiApi'.2 = inl e ->
  (e = FailedToConnect /\ (1 <= maxRetries)%Z) \/
  (e = MaxRetriesReached /\ (maxRetries <= 0)%Z /\ callGeminiApi'.1 = []).
Proof.
  unfold Gateway.callGeminiApi. intros He.
  destruct (Z.le_gt_cases maxRetries 0) as [Hle|Hgt].
  - right. replace (Z.to_nat maxRetries) with O in * by lia.
    cbn in *. by injection He as <-.
  - left. split; [|lia].
    eapply (attempts_failure _ 0); [lia| |exact He]. f_equal. lia.
Qed.

Lemma fetches_cons (a : Z) (events : list Event) :
  fetches (Fetch a :: events) = a :: fetches events.
Proof. reflexivity. Qed.

Lemma fetches_sleep (d : Q) (events : list Event) :
  fetches (Sleep d :: events) = fetches events.
Proof. reflexivity. Qed.

Lemma sleeps_cons (d : Q) (events : list Event) :
  sleeps (Sleep d :: events) = d :: sleeps events.
Proof. reflexivity. Qed.

Lemma sleeps_fetch (a : Z) (events : list Event) :
  sleeps (Fetch a :: events) = sleeps events.
Proof. reflexivity. Qed.

Lemma attempts_requests (fuel : nat) (attempt : Z) :
  (Z.to_nat (maxRetries - attempt) <= fuel)%nat ->
  exists k : nat,
    fetches (attempts' fuel attempt).1 = seqZ attempt (Z.of_nat k) /\
    (Z.of_nat k <= Z.max (maxRetries - attempt) 0)%Z /\
    (length (sleeps (attempts' fuel attempt).1) <= k - 1)%nat /\
    ((attempt < maxRetries)%Z -> (1 <= k)%nat).
Proof.
  revert attempt. induction fuel as [|fuel IH]; intros attempt Hfuel.
  - exists O. repeat split; cbn; lia.
  - rewrite attempts_unfold.
    destruct (Z.ltb_spec attempt maxRetries); [|exists O; repeat split; cbn; lia].
    destruct (IH (attempt + 1)%Z ltac:(lia)) as (k & Hf & Hk & Hs & Hone).
    assert (Hseq : attempt :: seqZ (attempt + 1) (Z.of_nat k)
                   = seqZ attempt (Z.of_nat (S k))).
    { rewrite (seqZ_cons attempt (Z.of_nat (S k))) by lia. do 2 f_equal; lia. }
    destruct (try_block' attempt) as [d|r|err] eqn:Ht.
    + apply try_block_continue in Ht as [Hlast _].
      specialize (Hone ltac:(lia)).
      exists (S k). cbn [fst]. rewrite fetches_cons, fetches_sleep, Hf, Hseq.
      rewrite sleeps_fetch, sleeps_cons. cbn [length].
      repeat split; lia.
    + exists 1%nat. cbn. repeat split; lia.
    + destruct (Z.eqb_spec attempt (maxRetries - 1)).
      * exists 1%nat. cbn. repeat split; lia.
      * exists (S k). cbn [fst]. rewrite fetches_cons, Hf, Hseq, sleeps_fetch.
        repeat split; lia.
Qed.

(** X12. The requests of a call are the attempts 0, 1, ... in order, at most
    [maxRetries] of them, and the call sleeps less often than it asks. *)
Theorem callGeminiApi_requests :
  exists k : nat,
    fetches callGeminiApi'.1 = seqZ 0 (Z.of_nat k) /\
    (Z.of_nat k <= Z.max maxRetries 0)%Z /\
    (length (sleeps callGeminiApi'.1) <= k - 1)%nat /\
    ((1 <= maxRetries)%Z -> (1 <= k)%nat).
Proof.
  unfold Gateway.callGeminiApi.
  destruct (attempts_requests (Z.to_nat maxRetries) 0 ltac:(lia)) as (k & Hf & Hk & Hs & Hone).
  exists k. repeat split; [done|lia|done|]. intros Hmax. apply Hone. lia.
Qed.

Lemma attempts_all_throw (fuel : nat) (attempt : Z) :
  (attempt < maxRetries)%Z ->
  fuel = Z.to_nat (maxRetries - attempt) ->
  (forall k, (attempt <= k < maxRetries)%Z -> exists e, try_block' k = Throw e) ->
  attempts' fuel attempt =
    (map Fetch (seqZ attempt (maxRetries - attempt)), inl FailedToConnect).
Proof.
  revert attempt. induction fuel as [|fuel IH]; intros attempt Hlt Hfuel Hall; [lia|].
  rewrite attempts_unfold.
  destruct (Z.ltb_spec attempt maxRetries); [|lia].
  destruct (Hall attempt ltac:(lia)) as (e & ->).
  rewrite (seqZ_cons attempt (maxRetries - attempt)) by lia. cbn [map].
  destruct (Z.eqb_spec attempt (maxRetries - 1)) as [E|E].
  - replace (Z.pred (maxRetries - attempt)) with 0%Z by lia. done.
  - rewrite (IH (attempt + 1)%Z) by (try lia; intros; apply Hall; lia).
    cbn [fst snd].
    replace (Z.succ attempt) with (attempt + 1)%Z by lia.
    replace (Z.pred (maxRetries - attempt)) with (maxRetries - (attempt + 1))%Z by lia.
    done.
Qed.

(** X13. When every attempt ends in an exception (the fetch rejects, the
    status is an error other than a 429 that is retried, the body cannot
    be read or lacks the text), the call asks [maxRetries] times back to
    back, never sleeps, and fails with the message of a failed
    connection. *)
Theorem callGeminiApi_all_throw :
  (1 <= maxRetries)%Z ->
  (forall k, (0 <= k < maxRetries)%Z -> exists e, try_block' k = Throw e) ->
  callGeminiApi' = (map Fetch (seqZ 0 maxRetries), inl FailedToConnect) /\
  sleeps callGeminiApi'.1 = [] /\
  length (fetches callGeminiApi'.1) = Z.to_nat maxRetries.
Proof.
  intros Hmax Hall.
  assert (Hrun : callGeminiApi' = (map Fetch (seqZ 0 maxRetries), inl FailedToConnect)).
  { unfold Gateway.callGeminiApi.
    rewrite (attempts_all_throw (Z.to_nat maxRetries) 0 ltac:(lia) ltac:(f_equal; lia) Hall).
    by replace (maxRetries - 0)%Z with maxRetries by lia. }
  rewrite Hrun. cbn [fst]. split; [done|].
  assert (Hmap : forall l, sleeps (map Fetch l) = [] /\ fetches (map Fetch l) = l).
  { induction l as [|x l [IH1 IH2]]; [done|]. cbn [map].
    by rewrite sleeps_fetch, fetches_cons, IH1, IH2. }
  destruct (Hmap (seqZ 0 maxRetries)) as [-> ->].
  split; [done|]. rewrite length_seqZ. lia.
Qed.

Lemma attempts_first_return (fuel : nat) (attempt k : Z) (v : Json) :
  (attempt <= k < maxRetries)%Z ->
  (Z.to_nat (maxRetries - attempt) <= fuel)%nat ->
  try_block' k = Return v ->
  (forall j v', (attempt <= j < k)%Z -> try_block' j <> Return v') ->
  (attempts' fuel attempt).2 = inr v /\
  fetches (attempts' fuel attempt).1 = seqZ attempt (k - attempt + 1).
Proof.
  revert attempt. induction fuel as [|fuel IH]; intros attempt Hk Hfuel Hret Hbefore; [lia|].
  rewrite attempts_unfold.
  destruct (Z.ltb_spec attempt maxRetries); [|lia].
  destruct (Z.eq_dec attempt k) as [->|Hne].
  - rewrite Hret. cbn [fst snd]. split; [done|].
    by replace (k - k + 1)%Z with 1%Z by lia.
  - assert (Hseq : attempt :: seqZ (attempt + 1) (k - (attempt + 1) + 1)
                   = seqZ attempt (k - attempt + 1)).
    { rewrite (seqZ_cons attempt (k - attempt + 1)) by lia. do 2 f_equal; lia. }
    destruct (IH (attempt + 1)%Z) as [Hres Hf]; [lia|lia|done|intros; apply Hbefore; lia|].
    destruct (try_block' attempt) as [d|r|err] eqn:Ht.
    + cbn [fst snd]. by rewrite fetches_cons, fetches_sleep, Hf, Hseq.
    + exfalso. by apply (Hbefore attempt r ltac:(lia)).
    + destruct (Z.eqb_spec attempt (maxRetries - 1)); [lia|].
      cbn [fst snd]. by rewrite fetches_cons, Hf, Hseq.
Qed.

(** X14. The call returns the result of the first attempt that succeeds and
    asks no more after it, whatever the failures before. *)
Theorem callGeminiApi_first_success (k : Z) (v : Json) :
  (0 <= k < maxRetries)%Z ->
  try_block' k = Return v ->
  (forall j v', (0 <= j < k)%Z -> try_block' j <> Return v') ->
  callGeminiApi'.2 = inr v /\
  fetches callGeminiApi'.1 = seqZ 0 (k + 1).
Proof.
  intros Hk Hret Hbefore. unfold Gateway.callGeminiApi.
  destruct (attempts_first_return (Z.to_nat maxRetries) 0 k v) as [Hres Hf];
    [lia|lia|done|done|].
  split; [done|]. rewrite Hf. f_equal. lia.
Qed.

Lemma foldr_sleep_cons (d : Q) (events : list Event) :
  total_sleep (Sleep d :: events) = (d + total_sleep events)%Q.
Proof. reflexivity. Qed.

Lemma total_sleep_fetch (a : Z) (events : list Event) :
  total_sleep (Fetch a :: events) = total_sleep events.
Proof. reflexivity. Qed.

(** The sleeps left from [attempt] on add up to less than the bounds of
    the attempts that can still be retried. *)
Lemma attempts_total_sleep (fuel : nat) (attempt : Z) :
  (0 <= attempt)%Z ->
  (forall k, (0 <= random k < 1)%Q) ->
  (total_sleep (attempts' fuel attempt).1 <=
   inject_Z (Z.max 0 ((2 ^ (maxRetries - 1) - 2 ^ attempt) * 1000
                      + (maxRetries - 1 - attempt) * 1000)))%Q.
Proof.
  intros H0 Hrandom. revert attempt H0.
  assert (Hpos : forall z, (0 <= inject_Z (Z.max 0 z))%Q).
  { intros z. change 0%Q with (inject_Z 0). rewrite <- Zle_Qle. lia. }
  induction fuel as [|fuel IH]; intros attempt H0.
  - apply Hpos.
  - rewrite attempts_unfold.
    destruct (attempt <? maxRetries)%Z; [|apply Hpos].
    specialize (IH (attempt + 1)%Z ltac:(lia)).
    assert (Hmono : (attempt < maxRetries - 1)%Z ->
      (Z.max 0 ((2 ^ (maxRetries - 1) - 2 ^ (attempt + 1)) * 1000
                + (maxRetries - 1 - (attempt + 1)) * 1000)
       + (2 ^ attempt * 1000 + 1000)
       = Z.max 0 ((2 ^ (maxRetries - 1) - 2 ^ attempt) * 1000
                  + (maxRetries - 1 - attempt) * 1000))%Z).
    { intros Hlt. rewrite Z.pow_add_r by lia. change (2 ^ 1)%Z with 2%Z.
      assert (2 ^ (attempt + 1) <= 2 ^ (maxRetries - 1))%Z
        by (apply Z.pow_le_mono_r; lia).
      rewrite Z.pow_add_r in H by lia. change (2 ^ 1)%Z with 2%Z in H.
      assert (0 < 2 ^ attempt)%Z by (apply Z.pow_pos_nonneg; lia).
      lia. }
    destruct (try_block' attempt) as [d|r|err] eqn:Ht.
    + apply try_block_continue in Ht as [Hlast ->].
      cbn [fst]. rewrite total_sleep_fetch, foldr_sleep_cons.
      rewrite <- (Hmono Hlast), inject_Z_plus, inject_Z_plus.
      destruct (backoff_bounds random attempt (Hrandom attempt)) as [_ Hup].
      change (inject_Z 1000) with 1000%Q. lra.
    + cbn [fst]. apply Hpos.
    + destruct (Z.eqb_spec attempt (maxRetries - 1)); cbn [fst]; [apply Hpos|].
      rewrite total_sleep_fetch.
      destruct (Z.lt_ge_cases attempt (maxRetries - 1)) as [Hlt|Hge].
      * rewrite <- (Hmono Hlt), inject_Z_plus.
        assert (0 <= inject_Z (2 ^ attempt * 1000 + 1000))%Q.
        { change 0%Q with (inject_Z 0). rewrite <- Zle_Qle.
          assert (0 < 2 ^ attempt)%Z by (apply Z.pow_pos_nonneg; lia). lia. }
        lra.
      * (* past the last attempt: nothing is retried with a sleep *)
        eapply Qle_trans; [exact IH|].
        rewrite <- Zle_Qle.
        assert (2 ^ (maxRetries - 1) <= 2 ^ attempt)%Z by (apply Z.pow_le_mono_r; lia).
        assert (2 ^ attempt <= 2 ^ (attempt + 1))%Z by (apply Z.pow_le_mono_r; lia).
        lia.
Qed.

(** X15. With the draws of [Math.random] in [0, 1), a call sleeps for at most
    [(2^(maxRetries-1) - 1) * 1000 + (maxRetries - 1) * 1000] milliseconds
    in all, whatever the service answers: 5000 for the three attempts of
    the default. *)
Theorem callGeminiApi_total_sleep :
  (1 <= maxRetries)%Z ->
  (forall k, (0 <= random k < 1)%Q) ->
  (total_sleep callGeminiApi'.1 <=
   inject_Z ((2 ^ (maxRetries - 1) - 1) * 1000 + (maxRetries - 1) * 1000))%Q.
Proof.
  intros Hmax Hrandom. unfold Gateway.callGeminiApi.
  eapply Qle_trans; [apply attempts_total_sleep; [lia|done]|].
  rewrite <- Zle_Qle. change (2 ^ 0)%Z with 1%Z.
  assert (1 <= 2 ^ (maxRetries - 1))%Z.
  { change 1%Z with (2 ^ 0)%Z at 1. apply Z.pow_le_mono_r; lia. }
  replace (maxRetries - 1 - 0)%Z with (maxRetries - 1)%Z by lia. lia.
Qed.

End GatewayProperties.

Lemma callGeminiApi_failures_witness :
  let fetch := fun _ : Z => @Gateway.Rejects unit in
  (Gateway.callGeminiApi unit (fun _ => None) (fun _ => None) fetch (fun _ => 0%Q) false 3).2
    = inl Gateway.FailedToConnect /\
  (1 <= 3)%Z.
Proof.
  intros fetch.
  assert (H : (Gateway.callGeminiApi unit (fun _ => None) (fun _ => None) fetch
                 (fun _ => 0%Q) false 3).2 = inl Gateway.FailedToConnect) by reflexivity.
  split; [exact H|].
  destruct (callGeminiApi_failures (fun _ => None) (fun _ => None) fetch (fun _ => 0%Q)
              false 3 Gateway.FailedToConnect H) as [[_ Hm]|[Hm _]];
    [exact Hm|discriminate Hm].
Defined.

Lemma callGeminiApi_all_throw_witness :
  let fetch := fun _ : Z => @Gateway.Rejects unit in
  (1 <= 3)%Z /\
  Gateway.callGeminiApi unit (fun _ => None) (fun _ => None) fetch (fun _ => 0%Q) true 3
    = ([Gateway.Fetch 0; Gateway.Fetch 1; Gateway.Fetch 2], inl Gateway.FailedToConnect).
Proof.
  intros fetch.
  assert (H : (1 <= 3)%Z) by lia.
  split; [exact H|].
  refine (proj1 (callGeminiApi_all_throw (fun _ => None) (fun _ => None) fetch
                   (fun _ => 0%Q) true 3 H _)).
  intros k _. by eexists.
Defined.

Lemma callGeminiApi_first_success_witness :
  let fetch := fun k : Z =>
    if (k =? 0)%Z then @Gateway.Rejects unit
    else Gateway.Resolves {| Gateway.status := 200; Gateway.body := Some tt |} in
  (0 <= 1 < 3)%Z /\
  (Gateway.callGeminiApi unit (fun _ => None) (fun _ => None) fetch (fun _ => 0%Q) false 3).2
    = inr tt /\
  Gateway.fetches
    (Gateway.callGeminiApi unit (fun _ => None) (fun _ => None) fetch (fun _ => 0%Q) false 3).1
    = [0; 1]%Z.
Proof.
  intros fetch.
  assert (H : (0 <= 1 < 3)%Z) by lia.
  split; [exact H|].
  refine (callGeminiApi_first_success (fun _ => None) (fun _ => None) fetch
            (fun _ => 0%Q) false 3 1 tt H _ _).
  - reflexivity.
  - intros j v' Hj. assert (j = 0%Z) as -> by lia. discriminate.
Defined.

Lemma callGeminiApi_total_sleep_witness :
  let fetch := fun _ : Z =>
    Gateway.Resolves {| Gateway.status := 429; Gateway.body := @None unit |} in
  let random := fun _ : Z => (1 # 2)%Q in
  (1 <= 3)%Z /\
  (Gateway.total_sleep
     (Gateway.callGeminiApi unit (fun _ => None) (fun _ => None) fetch random false 3).1
   <= 5000)%Q.
Proof.
  intros fetch random.
  assert (H : (1 <= 3)%Z) by lia.
  split; [exact H|].
  refine (callGeminiApi_total_sleep (fun _ => None) (fun _ => None) fetch random false 3 H _).
  intros k. split; [discriminate|reflexivity].
Defined.

(** ** pcmToWav on every array and every rate *)

Section WavProperties.
Import Wav.
Local Open Scope list_scope.
Local Open Scope Z_scope.

Lemma le32_read (v : Z) :
  v mod 256 + 256 * ((v / 256) mod 256) + 65536 * ((v / 65536) mod 256)
    + 16777216 * ((v / 16777216) mod 256) = v mod 2 ^ 32.
Proof.
  change (2 ^ 32) with 4294967296.
  Z.div_mod_to_equations. lia.
Qed.

(** X16. For an array that spans its buffer and any sample rate at all, the
    blob holds the samples untouched after 44 bytes, and each four-byte
    field of the header holds its value modulo 2^32: the chunk size, the
    sample rate, the byte rate and the data size wrap around instead of
    failing. *)
Theorem pcmToWav_fields_wrap (pcm16 : Int16Array) (sampleRate : Z) :
  spans_buffer pcm16 ->
  exists bytes,
    pcmToWav pcm16 sampleRate = Some {| blob_bytes := bytes; blob_type := "audio/wav" |} /\
    length bytes = (44 + length (buffer pcm16))%nat /\
    getUint32 bytes 4 = Some ((36 + Z.of_nat (byteLength pcm16)) mod 2 ^ 32) /\
    getUint32 bytes 24 = Some (sampleRate mod 2 ^ 32) /\
    getUint32 bytes 28 = Some ((sampleRate * 2) mod 2 ^ 32) /\
    getUint32 bytes 40 = Some (Z.of_nat (byteLength pcm16) mod 2 ^ 32) /\
    drop 44 bytes = map (fun b => b mod 256) (buffer pcm16).
Proof.
  intros [_ Hspan].
  eexists. split; [by apply pcmToWav_bytes|].
  unfold riff_header, le32, le16.
  change (tag "RIFF") with [82; 73; 70; 70].
  change (tag "WAVE") with [87; 65; 86; 69].
  change (tag "fmt ") with [102; 109; 116; 32].
  change (tag "data") with [100; 97; 116; 97].
  cbn [app take drop].
  unfold getUint32.
  cbn [lookup list_lookup Nat.add mbind option_bind].
  rewrite !le32_read.
  repeat split.
  cbn [length]. rewrite length_map. lia.
Qed.

Lemma pcmToWav_fields_wrap_witness :
  let pcm16 := {| buffer := [1; 2]; byteOffset := 0; byteLength := 2 |} in
  spans_buffer pcm16 /\
  exists bytes,
    pcmToWav pcm16 4294967297 = Some {| blob_bytes := bytes; blob_type := "audio/wav" |} /\
    getUint32 bytes 24 = Some 1 /\
    getUint32 bytes 28 = Some 2 /\
    drop 44 bytes = [1; 2].
Proof.
  intros pcm16.
  assert (Hspan : spans_buffer pcm16) by (split; reflexivity).
  split; [exact Hspan|].
  destruct (pcmToWav_fields_wrap pcm16 4294967297 Hspan)
    as (bytes & H0 & _ & _ & H1 & H2 & _ & H3).
  exists bytes. repeat split; assumption.
Defined.

Ltac header_length :=
  repeat first [rewrite length_insert | rewrite length_put_string];
  try match goal with H : length _ = 44%nat |- _ => rewrite H end.

(** The header is written before the samples are looked at: the call is
    the copy loop on the finished header. *)
Lemma pcmToWav_copy (pcm16 : Int16Array) (sampleRate : Z) :
  pcmToWav pcm16 sampleRate =
    dataView ← copyBytes (riff_header sampleRate (Z.of_nat (byteLength pcm16))
                          ++ repeat 0 (byteLength pcm16)) 44 0 (buffer pcm16);
    Some {| blob_bytes := dataView; blob_type := "audio/wav" |}.
Proof.
  unfold pcmToWav.
  set (n := byteLength pcm16) in *.
  change (repeat 0 (44 + n)) with (repeat 0 44 ++ repeat 0 n).
  replace (sampleRate * 1 * (16 / 8)) with (sampleRate * 2)
    by (change (16 / 8) with 2; lia).
  change (1 * (16 / 8)) with 2.
  remember (repeat 0 44) as h0 eqn:Eh0.
  assert (Hh0 : length h0 = 44%nat) by (by subst h0).
  repeat (first [ rewrite writeString_prefix by (header_length; simpl; lia)
                | rewrite setUint16_prefix by (header_length; lia)
                | rewrite setUint32_prefix by (header_length; lia) ];
          cbn [mbind option_bind]).
  subst h0. reflexivity.
Qed.

(** X17. On a real array, whose window lies inside its buffer, the call throws
    exactly when the window is shorter than the buffer: the loop copies
    the whole buffer, not the window, and runs past the end of the view. *)
Theorem pcmToWav_throws (pcm16 : Int16Array) (sampleRate : Z) :
  (byteOffset pcm16 + byteLength pcm16 <= length (buffer pcm16))%nat ->
  (pcmToWav pcm16 sampleRate = None <->
   (byteLength pcm16 < length (buffer pcm16))%nat).
Proof.
  intros Hview. rewrite pcmToWav_copy.
  assert (Hlen : length (riff_header sampleRate (Z.of_nat (byteLength pcm16))) = 44%nat)
    by reflexivity.
  destruct (Nat.lt_ge_cases (byteLength pcm16) (length (buffer pcm16))) as [Hlt|Hge].
  - rewrite copyBytes_overflow; [done|].
    rewrite length_app, Hlen, repeat_length. lia.
  - rewrite copyBytes_app by (rewrite ?repeat_length; lia || done).
    cbn [mbind option_bind]. split; [done|lia].
Qed.

Lemma pcmToWav_throws_witness :
  let pcm16 := {| buffer := [1; 2; 3; 4]; byteOffset := 2; byteLength := 2 |} in
  (byteOffset pcm16 + byteLength pcm16 <= length (buffer pcm16))%nat /\
  (byteLength pcm16 < length (buffer pcm16))%nat /\
  pcmToWav pcm16 16000 = None.
Proof.
  intros pcm16.
  assert (H : (byteOffset pcm16 + byteLength pcm16 <= length (buffer pcm16))%nat)
    by (cbn; lia).
  assert (H' : (byteLength pcm16 < length (buffer pcm16))%nat) by (cbn; lia).
  split; [exact H|]. split; [exact H'|].
  exact (proj2 (pcmToWav_throws pcm16 16000 H) H').
Defined.

End WavProperties.

(** ** The voice handler *)

Section TtsProperties.
Import Wav Tts.
Local Open Scope list_scope.

Lemma rate_here_other (c : ascii) (s : string) :
  c <> "r"%char -> rate_here (String c s) = None.
Proof.
  intros Hc. unfold rate_here. cbn [strip_literal].
  destruct (Ascii.eqb_spec "r" c) as [E|_]; [congruence|]. reflexivity.
Qed.

Lemma rate_match_skip (pre s : string) :
  AgentQ.all_chars (fun c => negb (Ascii.eqb c "r")) pre = true ->
  rate_match (pre ++ s)%string = rate_match s.
Proof.
  induction pre as [|c pre IH]; intros Hpre; [done|].
  simpl in Hpre. apply andb_true_iff in Hpre as [Hc Hpre].
  rewrite app_String. cbn [rate_match].
  rewrite rate_here_other by (intros ->; done).
  by apply IH.
Qed.

Lemma span_digits_run (value rest : string) :
  AgentQ.all_chars AgentQ.is_digit value = true ->
  match rest with String c _ => AgentQ.is_digit c = false | "" => True end ->
  AgentQ.span_digits (value ++ rest)%string = (value, rest).
Proof.
  intros Hv Hrest. induction value as [|d value IH].
  - rewrite app_empty_l. destruct rest as [|c rest]; [done|].
    simpl. by rewrite Hrest.
  - simpl in Hv. apply andb_true_iff in Hv as [Hd Hv].
    rewrite app_String. simpl. by rewrite Hd, (IH Hv).
Qed.

Lemma rate_match_here (s value : string) :
  rate_here s = Some value -> rate_match s = Some value.
Proof. intros H. destruct s; cbn [rate_match]; by rewrite H. Qed.

(** X18. A mime type that names its rate, with no letter r before the word,
    gives the number written there when that is a safe integer; the
    digits are read to their end. *)
Theorem sampleRate_of_named (pre value rest : string) :
  AgentQ.all_chars (fun c => negb (Ascii.eqb c "r")) pre = true ->
  value <> "" ->
  AgentQ.all_chars AgentQ.is_digit value = true ->
  safe_integer (AgentQ.parseInt value) ->
  match rest with String c _ => AgentQ.is_digit c = false | "" => True end ->
  sampleRate_of (pre ++ "rate=" ++ value ++ rest) = AgentQ.parseInt value.
Proof.
  intros Hpre Hne Hv _ Hrest. unfold sampleRate_of.
  rewrite rate_match_skip by done.
  rewrite (rate_match_here _ value); [done|].
  unfold rate_here.
  change (strip_literal "rate=" ("rate=" ++ value ++ rest)) with (Some (value ++ rest)%string).
  cbn [mbind option_bind].
  rewrite span_digits_run by done.
  by destruct (String.eqb_spec value "").
Qed.

Lemma sampleRate_of_named_witness :
  sampleRate_of "audio/L16;codec=pcm;rate=24000" = 24000%Z.
Proof.
  apply (sampleRate_of_named "audio/L16;codec=pcm;" "24000" "");
    [reflexivity | discriminate | reflexivity
    | unfold safe_integer; split; reflexivity | exact I].
Defined.

Lemma strip_literal_prefix (lit s rest : string) :
  strip_literal lit s = Some rest -> String.prefix lit s = true.
Proof.
  revert s. induction lit as [|a lit IH]; intros s H.
  - by destruct s.
  - destruct s as [|b s]; [done|].
    cbn [strip_literal] in H. cbn [String.prefix].
    destruct (Ascii.eqb_spec a b) as [->|?]; [|done].
    destruct (ascii_dec b b); [|done]. by apply IH.
Qed.

Lemma rate_here_includes (s value : string) :
  rate_here s = Some value -> String.prefix "rate=" s = true.
Proof.
  unfold rate_here.
  destruct (strip_literal "rate=" s) as [s1|] eqn:E; [|done].
  intros _. by apply (strip_literal_prefix _ _ s1).
Qed.

(** X19. A mime type in which the word [rate=] does not occur is played at
    16000 samples a second. *)
Theorem sampleRate_of_default (mimeType : string) :
  includes mimeType "rate=" = false -> sampleRate_of mimeType = 16000%Z.
Proof.
  intros H. unfold sampleRate_of.
  enough (rate_match mimeType = None) as -> by done.
  induction mimeType as [|c s IH].
  - reflexivity.
  - cbn [includes] in H. apply orb_false_iff in H as [Hhere Hrest].
    cbn [rate_match].
    destruct (rate_here (String c s)) as [value|] eqn:E.
    + apply rate_here_includes in E. congruence.
    + by apply IH.
Qed.

Lemma sampleRate_of_default_witness :
  sampleRate_of "audio/L16;codec=pcm" = 16000%Z.
Proof. apply (sampleRate_of_default "audio/L16;codec=pcm"). reflexivity. Defined.

Lemma charCodes_bytes (binaryString : string) :
  map (fun b => b mod 256)%Z (charCodes binaryString) = charCodes binaryString.
Proof.
  induction binaryString as [|c s IH]; [done|].
  cbn [charCodes map]. rewrite IH. f_equal. apply Z.mod_mod. lia.
Qed.

Lemma length_charCodes (binaryString : string) :
  length (charCodes binaryString) = String.length binaryString.
Proof. induction binaryString as [|c s IH]; [done|]. cbn [charCodes length String.length]. by rewrite IH. Qed.

Context {Json : Type}.
Variable atob : string -> option string.

(** X20. An answer that carries audio of the linear 16-bit kind is played
    when the data decode to an even number of bytes, and the clip is the
    header for the rate of the mime type followed by the decoded bytes;
    data that do not decode, or an odd number of bytes, end in the
    service error, not in the message about the format.  The rate is
    below 2^53, where the numbers of the page are exact. *)
Theorem decode_part_audio (audioData mimeType : string) :
  audioData <> "" ->
  startsWith mimeType "audio/L16" = true ->
  (sampleRate_of mimeType < 2 ^ 53)%Z ->
  decode_part atob (Some {| inlineData_data := Some audioData;
                            inlineData_mimeType := Some mimeType |}) =
    match atob audioData with
    | None => Failed service_error
    | Some binaryString =>
        if Nat.even (String.length binaryString)
        then Played {| blob_bytes :=
                         riff_header (sampleRate_of mimeType)
                                     (Z.of_nat (String.length binaryString))
                         ++ charCodes binaryString;
                       blob_type := "audio/wav" |}
        else Failed service_error
    end.
Proof.
  intros Hdata Hmime _. unfold decode_part.
  rewrite (truthy_nonempty audioData Hdata).
  assert (Hm : truthy mimeType = true).
  { apply truthy_nonempty. intros ->. discriminate Hmime. }
  rewrite Hm, Hmime. cbn [andb].
  unfold base64ToArrayBuffer.
  destruct (atob audioData) as [binaryString|]; cbn [mbind option_bind]; [|done].
  unfold newInt16Array. rewrite length_charCodes.
  destruct (Nat.even (String.length binaryString)); [|done].
  rewrite pcmToWav_bytes
    by (cbn [buffer byteLength]; symmetry; apply length_charCodes).
  cbn [buffer byteLength]. by rewrite charCodes_bytes.
Qed.

End TtsProperties.

Lemma decode_part_audio_witness :
  Tts.decode_part (fun _ => Some "ab")
    (Some {| Tts.inlineData_data := Some "YWI=";
             Tts.inlineData_mimeType := Some "audio/L16;rate=24000" |}) =
  Tts.Played {| Wav.blob_bytes :=
                  (Wav.riff_header (Tts.sampleRate_of "audio/L16;rate=24000") 2
                   ++ Tts.charCodes "ab")%list;
                Wav.blob_type := "audio/wav" |}.
Proof.
  apply (decode_part_audio (fun _ => Some "ab") "YWI=" "audio/L16;rate=24000");
    [discriminate | reflexivity | reflexivity].
Defined.

(** ** getFormattedHistory for any number of turns *)

Section HistoryProperties.
Local Open Scope list_scope.

(** X21. The window of the history for any [maxTurns]: a positive number keeps
    that many of the last messages with a text that are not tokenized;
    zero and the negative numbers do not shorten from the end: the slice
    then starts at [- maxTurns] from the front, so that [maxTurns = 0]
    gives the whole history. *)
Theorem getFormattedHistory_turns (msgs : list Message) (uid : string) (maxTurns : Z) :
  let kept := filter (fun m => relevant m = true) msgs in
  getFormattedHistory msgs uid maxTurns =
    map (formatMessage uid)
        (drop (if (0 <? maxTurns)%Z then length kept - Z.to_nat maxTurns
               else Z.to_nat (- maxTurns)) kept) /\
  getFormattedHistory msgs uid 0 = map (formatMessage uid) kept.
Proof.
  intros kept.
  assert (H : forall n, getFormattedHistory msgs uid n =
    map (formatMessage uid)
        (drop (if (0 <? n)%Z then length kept - Z.to_nat n else Z.to_nat (- n)) kept)).
  { intros n. unfold getFormattedHistory, slice_from. fold kept. f_equal.
    destruct (Z.ltb_spec 0 n), (Z.ltb_spec (- n) 0); try lia.
    - f_equal. lia.
    - destruct (Z.le_gt_cases (- n) (Z.of_nat (length kept))).
      + f_equal. lia.
      + rewrite !drop_ge by lia. done. }
  split; [apply H|]. by rewrite H.
Qed.

(** X22. Whatever the number of turns, an entry of the history comes from a
    stored document that was not written as a token, and has a text. *)
Theorem history_has_no_token (dictionary : list string)
    (docs : list (string * DocData)) (uid : string) (maxTurns : Z) (e : HistoryEntry) :
  e ∈ getFormattedHistory (map (fun d => decodeDoc dictionary d.1 d.2) docs) uid maxTurns ->
  exists d, d ∈ docs /\ d_isTokenized d.2 <> Some true /\ h_text e <> "" /\
            e = formatMessage uid (decodeDoc dictionary d.1 d.2).
Proof.
  unfold getFormattedHistory, slice_from. intros He.
  apply list_elem_of_fmap in He as (m & -> & Hm).
  eapply elem_of_suffix in Hm; [|apply suffix_drop].
  apply list_elem_of_filter in Hm as [Hrel Hin].
  apply relevant_spec in Hrel as [Htok Htext].
  apply list_elem_of_fmap in Hin as (d & -> & Hd).
  exists d. repeat split; auto.
  intros E. unfold decodeDoc in Htok. simpl in Htok. by rewrite E in Htok.
Qed.

End HistoryProperties.

(** ** The reminder poll, record by record *)

Section ReminderProperties.
Import Router Reminders.
Local Open Scope list_scope.

(** The two ways of the callback. *)
Lemma on_doc_cases (now : Z) (p : Process) (d : string * ReminderDoc) :
  on_doc now p d = p \/
  ((remindAt d.2 <= now)%Z /\ (d.1 ∉ fired p) /\
   fired (on_doc now p d) = {[d.1]} ∪ fired p /\
   effects (on_doc now p d) =
     effects p ++ [Emit d.1 (CString ("⏰ Reminder: " +:+ message d.2)) botUserId; Delete d.1] /\
   (reminders (store (on_doc now p d)) = reminders (store p) \/
    reminders (store (on_doc now p d)) = filter (fun r => r.1 <> d.1) (reminders (store p)))).
Proof.
  destruct (decide ((remindAt d.2 <= now)%Z /\ d.1 ∉ fired p)) as [[Hdue Hfresh]|Hno].
  - right. destruct (on_doc_due now p d Hdue Hfresh) as (Hf & He & _).
    repeat (split; [done|]).
    unfold on_doc.
    destruct (Z.leb_spec (remindAt d.2) now); [|lia].
    rewrite bool_decide_eq_false_2 by done. cbn [andb negb].
    unfold saveMessage, deleteDoc.
    change (truthy_id (Some botUserId)) with (Some botUserId).
    destruct (dbInstance (state p)), (writable (store p)) eqn:Hw;
      cbn [store writable add_chat]; rewrite ?Hw; cbn [reminders delete_reminder add_chat];
      auto.
  - left. apply on_doc_skip.
    destruct (decide (d.1 ∈ fired p)); [by right|]. left.
    destruct (Z.le_gt_cases (remindAt d.2) now); [|lia]. tauto.
Qed.

Lemma filter_other_id (id other : string) (l : list (string * ReminderDoc)) :
  other <> id ->
  filter (fun r => r.1 = id) (filter (fun r => r.1 <> other) l) = filter (fun r => r.1 = id) l.
Proof.
  intros Hne. induction l as [|r l IH]; [done|].
  rewrite (filter_cons (fun r => r.1 <> other)). case_decide as H1.
  - rewrite !filter_cons. case_decide; by rewrite IH.
  - rewrite filter_cons. case_decide as H2; [|done].
    congruence.
Qed.

(** A fired id is left alone by the callback. *)
Lemma on_doc_fired (now : Z) (p : Process) (d : string * ReminderDoc) (id : string) :
  id ∈ fired p ->
  id ∈ fired (on_doc now p d) /\
  filter (fun e => effect_id e = id) (effects (on_doc now p d)) =
    filter (fun e => effect_id e = id) (effects p) /\
  filter (fun r => r.1 = id) (reminders (store (on_doc now p d))) =
    filter (fun r => r.1 = id) (reminders (store p)).
Proof.
  intros Hid.
  destruct (on_doc_cases now p d) as [->|(Hdue & Hfresh & Hf & He & Hr)]; [done|].
  assert (Hne : d.1 <> id) by (intros E; apply Hfresh; by rewrite E).
  split; [rewrite Hf; apply elem_of_union; by right|]. split.
  - rewrite He, filter_app, !filter_cons, filter_nil. cbn [effect_id].
    destruct (decide (d.1 = id)); [done|]. by rewrite app_nil_r.
  - destruct Hr as [->| ->]; [done|]. by apply filter_other_id.
Qed.

Lemma poll_fired (now : Z) (snap : option (list (string * ReminderDoc)))
    (p : Process) (id : string) :
  id ∈ fired p ->
  id ∈ fired (poll now snap p) /\
  filter (fun e => effect_id e = id) (effects (poll now snap p)) =
    filter (fun e => effect_id e = id) (effects p) /\
  filter (fun r => r.1 = id) (reminders (store (poll now snap p))) =
    filter (fun r => r.1 = id) (reminders (store p)).
Proof.
  destruct snap as [docs|]; [|done]. cbn [poll].
  revert p. induction docs as [|d docs IH]; intros p Hid; [done|].
  cbn [foldl].
  destruct (on_doc_fired now p d id Hid) as (H1 & H2 & H3).
  destruct (IH _ H1) as (H4 & H5 & H6).
  split; [done|]. split; congruence.
Qed.

(** X23. A record whose id is in the fired set is out of reach of the poll:
    whatever the later ticks read, they neither deliver nor delete it.  A
    record whose deletion failed stays in the collection. *)
Theorem fired_record_stays (ticks : list (Z * option (list (string * ReminderDoc))))
    (p : Process) (id : string) :
  id ∈ fired p ->
  id ∈ fired (run ticks p) /\
  filter (fun e => effect_id e = id) (effects (run ticks p)) =
    filter (fun e => effect_id e = id) (effects p) /\
  filter (fun r => r.1 = id) (reminders (store (run ticks p))) =
    filter (fun r => r.1 = id) (reminders (store p)).
Proof.
  unfold run. revert p. induction ticks as [|t ticks IH]; intros p Hid; [done|].
  cbn [foldl].
  destruct (poll_fired t.1 t.2 p id Hid) as (H1 & H2 & H3).
  destruct (IH _ H1) as (H4 & H5 & H6).
  split; [done|]. split; congruence.
Qed.

(** What a poll adds to the fired set: the ids of the records of the
    snapshot that are due. *)
Lemma poll_fires (now : Z) (docs : list (string * ReminderDoc)) (p : Process) (id : string) :
  id ∈ fired (poll now (Some docs) p) <->
  id ∈ fired p \/ exists doc, (id, doc) ∈ docs /\ (remindAt doc <= now)%Z.
Proof.
  cbn [poll]. revert p. induction docs as [|d docs IH]; intros p.
  - cbn [foldl]. split; [by left|]. intros [H|(doc & H & _)]; [done|].
    by apply elem_of_nil in H.
  - cbn [foldl]. rewrite IH. destruct d as [i r].
    destruct (on_doc_cases now p (i, r)) as [E|(Hdue & Hfresh & Hf & _)];
      cbn [fst snd] in *.
    + rewrite E. split.
      * intros [H|(doc & H & Hd)]; [by left|].
        right. exists doc. split; [by apply list_elem_of_further|done].
      * intros [H|(doc & H & Hd)]; [by left|].
        apply elem_of_cons in H as [H|H]; [|right; by exists doc].
        injection H as -> ->. left.
        destruct (decide (i ∈ fired p)) as [|Hn]; [done|].
        destruct (on_doc_due now p (i, r) Hd Hn) as (Hf & _).
        rewrite E in Hf. cbn [fst] in Hf. rewrite Hf.
        apply elem_of_union. left. by apply elem_of_singleton.
    + rewrite Hf. split.
      * intros [H|(doc & H & Hd)].
        -- apply elem_of_union in H as [H|H]; [|by left].
           apply elem_of_singleton in H as ->. right. exists r.
           split; [apply list_elem_of_here|done].
        -- right. exists doc. split; [by apply list_elem_of_further|done].
      * intros [H|(doc & H & Hd)]; [left; apply elem_of_union; by right|].
        apply elem_of_cons in H as [H|H]; [|right; by exists doc].
        injection H as -> ->. left.
        apply elem_of_union. left. by apply elem_of_singleton.
Qed.

(** X24. In a process that has delivered each fired id once, a poll delivers
    every record of its snapshot that is due, and delivers nothing before
    its time: an id has an utterance after the poll exactly when it had one
    before or a record of the snapshot with that id is due. *)
Theorem poll_delivers_due (now : Z) (docs : list (string * ReminderDoc)) (p : Process) :
  once p ->
  forall id, id ∈ emitted (effects (poll now (Some docs) p)) <->
             id ∈ emitted (effects p) \/
             exists doc, (id, doc) ∈ docs /\ (remindAt doc <= now)%Z.
Proof.
  intros Hp id.
  destruct (once_poll now (Some docs) p Hp) as [_ H'].
  destruct Hp as [_ H].
  by rewrite H', H, poll_fires.
Qed.

End ReminderProperties.

Lemma fired_record_stays_witness :
  let r := ("r1", {| remindAt := 5; message := "call Sam" |}) in
  let p := {| Reminders.fired := {["r1"]}; Reminders.state := Sample.ready "" None;
              Reminders.store := {| chatMessages := []; reminders := [r]; writable := true |};
              Reminders.effects := [] |} in
  "r1" ∈ Reminders.fired (Reminders.run [(10%Z, None); (22%Z, Some [r])] p) /\
  filter (fun e => Reminders.effect_id e = "r1")
         (Reminders.effects (Reminders.run [(10%Z, None); (22%Z, Some [r])] p)) = [] /\
  filter (fun d => d.1 = "r1")
         (reminders (Reminders.store (Reminders.run [(10%Z, None); (22%Z, Some [r])] p))) = [r].
Proof.
  intros r p.
  apply (fired_record_stays [(10%Z, None); (22%Z, Some [r])] p "r1").
  change ("r1" ∈ ({["r1"]} : gset string)). by apply elem_of_singleton.
Defined.

Lemma poll_delivers_due_witness :
  let r := ("r1", {| remindAt := 5; message := "call Sam" |}) in
  let p := Reminders.start (Sample.ready "" None) Sample.fs in
  "r1" ∈ Reminders.emitted (Reminders.effects (Reminders.poll 10 (Some [r]) p)).
Proof.
  intros r p.
  assert (Hp : Reminders.once p).
  { split; [apply NoDup_nil_2|]. intros id. cbn. set_solver. }
  apply (poll_delivers_due 10 [r] p Hp "r1").
  right. exists r.2. split; [apply list_elem_of_here|]. cbn. lia.
Defined.

Lemma history_has_no_token_witness :
  let docs := [("m1", {| d_text := Some "hello"; d_tokenIndex := None;
                          d_isTokenized := None; d_userId := "u1" |})] in
  exists d, d ∈ docs /\ d_isTokenized d.2 <> Some true.
Proof.
  intros docs.
  destruct (history_has_no_token tokenDictionary docs "u1" 3
              {| h_sender := "user"; h_text := "hello" |}) as (d & Hd & Htok & _).
  - vm_compute. apply list_elem_of_here.
  - exists d. by split.
Defined.

(** ** The first version: what Agent Q answers and what the dispatch reaches *)

Section V1Properties.
Import V1.
Local Open Scope list_scope.

Lemma split_1_occurs (sep s : string) :
  includes s sep = true -> exists segment, split_1 sep s = Some segment.
Proof.
  induction s as [|c s IH]; cbn [includes split_1]; intros H.
  - destruct (String.prefix sep ""); [by eexists|done].
  - destruct (String.prefix sep (String c s)); [by eexists|].
    by apply IH.
Qed.

Lemma prefix_space (c : ascii) (s : string) :
  String.prefix " " (String c s) = Ascii.eqb " " c.
Proof.
  cbn [String.prefix].
  destruct (ascii_dec " " c) as [<-|Hne].
  - by destruct s.
  - symmetry. by apply Ascii.eqb_neq.
Qed.

Lemma split_0_word (s : string) : includes (split_0 " " s) " " = false.
Proof.
  induction s as [|c s IH]; [done|].
  cbn [split_0]. rewrite prefix_space.
  destruct (Ascii.eqb " " c) eqn:E; [done|].
  cbn [includes]. by rewrite prefix_space, E, IH.
Qed.

Lemma toLowerCase_cons (c : ascii) (s : string) :
  toLowerCase (String c s) = String c s -> lower_char c = c /\ toLowerCase s = s.
Proof. cbn [toLowerCase]. intros H. by injection H. Qed.

Lemma split_0_lower (sep s : string) :
  toLowerCase s = s -> toLowerCase (split_0 sep s) = split_0 sep s.
Proof.
  induction s as [|c s IH]; intros H; cbn [split_0].
  - by destruct (String.prefix sep "").
  - destruct (String.prefix sep (String c s)); [done|].
    apply toLowerCase_cons in H as [Hc Hs].
    cbn [toLowerCase]. by rewrite Hc, (IH Hs).
Qed.

Lemma substring_lower (n : nat) (s : string) :
  toLowerCase s = s -> toLowerCase (substring n s) = substring n s.
Proof.
  revert s. induction n as [|n IH]; intros s H; [by destruct s|].
  destruct s as [|c s]; [done|].
  apply toLowerCase_cons in H as [_ Hs]. by apply IH.
Qed.

Lemma split_1_lower (sep s segment : string) :
  toLowerCase s = s -> split_1 sep s = Some segment -> toLowerCase segment = segment.
Proof.
  induction s as [|c s IH]; intros H; cbn [split_1].
  - destruct (String.prefix sep ""); [|done].
    intros [= <-]. by apply split_0_lower, substring_lower.
  - destruct (String.prefix sep (String c s)).
    + intros [= <-]. by apply split_0_lower, substring_lower.
    + apply toLowerCase_cons in H as [_ Hs]. by apply IH.
Qed.

(** A request for the intent is always answered, by an intent. *)
Lemma askAgentQ_intent_answer (userQuery : string) (history : list HistoryEntry) :
  exists action argument,
    askAgentQ userQuery Intent history = Some (IntentOf action argument).
Proof.
  unfold askAgentQ.
  destruct (includes (toLowerCase userQuery) "call ") eqn:Hcall.
  - destruct (split_1_occurs _ _ Hcall) as (segment & ->). by do 2 eexists.
  - repeat (match goal with |- context [if ?b then _ else _] => destruct b end;
            [by do 2 eexists|]).
    by do 2 eexists.
Qed.

(** X26. The intent that Agent Q reads from a message.  The word [call ]
    anywhere in the message makes it a call, whatever else the message
    asks for; the argument of a call is one word of the lower-cased
    message, or [unknown]; a message that is only chat is handed back as
    it was typed; the other intents have no argument. *)
Theorem v1_askAgentQ_intent (userQuery : string) (history : list HistoryEntry) :
  exists action argument,
    askAgentQ userQuery Intent history = Some (IntentOf action argument) /\
    action ∈ ["CALL"; "HANGUP"; "CHIRP"; "ARCHIVE_SAVE"; "ARCHIVE_ACCESS"; "CHAT"] /\
    (action = "CALL" <-> includes (toLowerCase userQuery) "call " = true) /\
    (action = "CALL" ->
       argument <> "" /\ includes argument " " = false /\ toLowerCase argument = argument) /\
    (action = "CHAT" -> argument = userQuery) /\
    (action <> "CALL" -> action <> "CHAT" -> argument = "").
Proof.
  unfold askAgentQ.
  destruct (includes (toLowerCase userQuery) "call ") eqn:Hcall.
  - destruct (split_1_occurs _ _ Hcall) as (segment & Hseg). rewrite Hseg.
    cbn [mbind option_bind].
    exists "CALL", (or_else (split_0 " " segment) "unknown").
    split; [done|]. split; [apply list_elem_of_here|]. split; [done|].
    split; [|split; [discriminate|done]].
    intros _. unfold or_else, truthy.
    destruct (String.eqb_spec (split_0 " " segment) "") as [E|E]; cbn [negb].
    + done.
    + split; [done|]. split; [apply split_0_word|].
      apply split_0_lower.
      apply (split_1_lower "call " (toLowerCase userQuery)); [apply toLowerCase_idem|done].
  - repeat (match goal with |- context [if ?b then _ else _] => destruct b end;
            [ do 2 eexists; split; [reflexivity|];
              split; [repeat first [apply list_elem_of_here | apply list_elem_of_further]|];
              split; [split; discriminate|];
              split; [discriminate|]; split; [discriminate|done] |]).
    do 2 eexists. split; [reflexivity|].
    split; [repeat first [apply list_elem_of_here | apply list_elem_of_further]|].
    split; [split; discriminate|].
    split; [discriminate|]. split; [done|]. intros _ H. by destruct H.
Qed.

Lemma handleGeneralConversation_reply (history : list HistoryEntry) (userText : string) :
  handleGeneralConversation history userText = [Say default_reply].
Proof. reflexivity. Qed.

(** X27. The handler of the intent never reports a recognition error: Agent Q
    answers every message with an intent, and the handler ends in one
    step that is not the error message. *)
Theorem v1_intent_recognized (history : list HistoryEntry) (userMessage : string) :
  exists step, handleIntentDecryption history userMessage = [step] /\
               step <> Say recognition_error.
Proof.
  unfold handleIntentDecryption.
  destruct (askAgentQ_intent_answer userMessage []) as (action & argument & ->).
  rewrite handleGeneralConversation_reply.
  repeat (match goal with |- context [if ?b then _ else _] => destruct b end;
          [eexists; split; [reflexivity|]; intros H; cbv in H; discriminate H|]).
  eexists. split; [reflexivity|]. intros H. cbv in H. discriminate H.
Qed.

(** X28. With [/summary] in the dictionary, no input reaches the summary
    protocol: the bare command is saved as its token, and a longer
    message is not the command. *)
Theorem v1_summary_unreachable (dictionary : list string) (currentMessage : string)
    (userId : option string) (isBotThinking : bool) (query : string) :
  "/summary" ∈ dictionary ->
  CommandResponse "Summary" query ∉
    handleUserMessage dictionary currentMessage userId isBotThinking.
Proof.
  intros Hdict. unfold handleUserMessage.
  destruct (Router.truthy_id userId) as [uid|]; [|apply not_elem_of_nil].
  destruct (String.eqb (trim currentMessage) ""); [apply not_elem_of_nil|].
  destruct (TokenLibrary.lookupToken (toLowerCase (trim currentMessage)) dictionary)
    as [tokenIndex|] eqn:Hlook.
  - intros H. apply list_elem_of_singleton in H. discriminate H.
  - assert (Hne : String.eqb (toLowerCase (trim currentMessage)) "/summary" = false).
    { apply String.eqb_neq. intros E.
      apply (proj1 (lookupToken_none _ _) Hlook "/summary" Hdict).
      by rewrite toLowerCase_idem, E. }
    rewrite Hne.
    repeat (match goal with |- context [if ?b then _ else _] => destruct b end);
      intros H;
      repeat (apply elem_of_cons in H as [H|H]; [discriminate H|]);
      by apply elem_of_nil in H.
Qed.

Lemma v1_summary_unreachable_witness :
  "/summary" ∈ tokenDictionary /\
  handleUserMessage tokenDictionary " /Summary " (Some "u1") false =
    [SaveMessage (CNumber 11) "u1" true] /\
  CommandResponse "Summary" "/summary" ∉
    handleUserMessage tokenDictionary " /Summary " (Some "u1") false.
Proof.
  assert (H : "/summary" ∈ tokenDictionary).
  { unfold tokenDictionary.
    repeat first [apply list_elem_of_here | apply list_elem_of_further]. }
  split; [exact H|]. split; [reflexivity|].
  exact (v1_summary_unreachable tokenDictionary " /Summary " (Some "u1") false "/summary" H).
Defined.

(** *** trim, and the commands that carry an argument *)

Local Open Scope string_scope.

















End V1Properties.


